(* ===== verification/_CoqProject ===== *)
-Q . S2P
Prelude.v
Async.v
Thread.v
Store.v
World.v
Timestamp.v
Fixtures.v
Suspend.v
Close.v
Queue.v
Alert.v
NewThread.v
Bot.v
Interleave.v
Boot.v
