(* ===== verification/Prelude.v ===== *)
(** * A verification development of modmail-espanol's thread lifecycle

    The program is a Discord "modmail" bot (src/modmailbot/src).  A support
    conversation with a user is a *thread*: a row of the threads table bound
    to a staff-side channel.  The files under src/ are the command modules
    and the entry point:

    - [modules/close.js]: the scheduled-close loop ([applyScheduledCloses],
      [scheduledCloseLoop]), the [close] command (a user closing from direct
      messages through the message queue; staff closing in the thread
      channel with the options [cancel], [silent] and a delay) and the
      [channelDelete] auto-close;
    - [modules/suspend.js]: the scheduled-suspend loop and the [suspend],
      [suspend cancel] and [unsuspend] commands;
    - [modules/alert.js], [modules/newthread.js]: the [alert] and
      [newthread] commands;
    - [index.js]: the start-up checks and the process-level error handlers.

    The modules call collaborators that are not under src/ ([data/threads.js],
    [data/Thread.js], [queue.js], [data/blocked.js], [utils.js], the command
    framework and the Discord client).  They are modelled from the
    specification (spec.md, sections 3, 4.1-4.3 and 6) and marked
    spec_modelled in the manifest.

    ** How the program is modelled

    JavaScript [async] functions run on one event loop and interleave only at
    [await] points.  [Async.v] models them by a resumption monad [async S A]:
    a program is a tree of atomic segments, each of which reads the world,
    updates it and yields the rest of the program.  [run n p s] executes a
    program alone with fuel [n] (the number of segments); [wp] is total
    correctness and [pwp] partial correctness for [run]; [conc_step] runs a
    pool of programs under any schedule of the event loop, and [exec] runs an
    explicit schedule.  A thrown exception or rejected promise is the
    [Throw] outcome; [catch] models [try]/[catch] and [.catch].

    - [Prelude.v] (this file): JavaScript value helpers (nullable strings in
      templates, [Array.prototype.includes], [String.prototype.startsWith],
      truthiness), hint databases and shared tactics.
    - [Async.v]: the monad, [run], [wp], [pwp], [all_steps] (a property of
      every segment) and [wp_all_steps] (a preorder every segment respects
      holds across a run), the interleaving semantics and their laws.
    - [Thread.v]: the thread record of [data/Thread.js], its status, and the
      transitions of the state machine of spec 4.2 as partial functions,
      with the per-thread invariant "scheduled actions only while OPEN".
    - [Store.v]: the threads table as a [gmap] keyed by thread id, the
      queries of [data/threads.js] (spec 4.1), the invariant [store_wf]
      (rows under their ids, [thread_wf], at most one OPEN thread per user)
      and [rows_evolve] (rows change only by transitions).
    - [World.v]: the world (table, clock in ms, blocked and unreachable
      users, message queue, ordered list of external effects), each
      collaborator call as one atomic step, the message queue of spec 4.3
      ([queue_add]: a ticket at the back, wait for the front, run, leave),
      and three rule sets driven by one tactic [walk]: [keeps] (a call keeps
      [store_wf]), [segs] (every segment changes rows only by transitions
      and keeps the queue's tickets in order, [seg_ok]) and [terminates] (a
      call finishes when run alone).
    - [Timestamp.v]: the text [moment.utc().add(delay, 'ms').format(
      'YYYY-MM-DD HH:mm:ss')] that timed [close] and [suspend] store
      ([closeAt], [suspendAt]), over the proleptic Gregorian UTC calendar,
      its reading back, and the byte order the due queries compare it by.
    - [Fixtures.v]: a configuration and small worlds for the witnesses.
    - [Suspend.v], [Close.v], [Alert.v], [NewThread.v]: the four modules,
      one definition per handler and per loop body, written block by block
      from the source with its guards and early returns ([Close.v] comes
      after [Suspend.v] because the liveness of both scheduler loops, C24,
      is stated there).
    - [Queue.v]: the mutual exclusion of the message queue for any pool of
      jobs, by an annotated semantics ([qstep]: each task fresh, waiting
      with a ticket, running its job, or done) that simulates the event
      loop's steps on the programs, and the ticket-lock invariant [qinv]
      proved along it.
    - [Bot.v]: the events the modules register and [handle], their
      dispatch; [seq_step] handles one event at a time.
    - [Interleave.v]: handlers started by events and interleaved by the
      event loop ([conc_step]), each race stated for every world that
      meets its hypotheses and proved by an explicit schedule.
    - [Boot.v]: [index.js] as a function of what it reads from the machine
      ([Host]), with the failures of its [require]s, of the migrations and
      of the legacy migrator, and its [uncaughtException] and
      [unhandledRejection] handlers.

    ** What the theorems show

    - Functional behaviour of every handler on its branches, errors
      included: the scheduler ticks (C1, C3: termination, exactly the due
      rows change, the effects in order), the close command in its user,
      staff, cancel and timed forms (C2, C8-C10), the channelDelete
      auto-close (C11, C12), unsuspend (C4, C5, C7), newthread (C14, C15),
      alert (C16), suspend on each of its branches, the rejection of a
      thread that is not OPEN included (C32).
    - The table invariant: each handler run alone keeps [store_wf]
      ([keeps_wf_*]), so handling events one at a time keeps at most one
      OPEN thread per user in every reachable world (C6).
    - Liveness: the scheduled-close loop closes a thread, and the
      scheduled-suspend loop suspends an OPEN thread, within [k + 1]
      iterations when its time falls within [k] periods of two seconds
      (C24).
    - Interleavings, each for any world meeting its hypotheses: "one OPEN
      thread per user" is not kept when unsuspend and newthread race
      (C18); a scheduled-close tick does not isolate a thread whose
      channel is deleted during it (C19); a thread due for both scheduled
      actions can end SUSPENDED with its close dropped, or closed with the
      suspension notice posted after the teardown (C30); a channel
      deletion racing with a staff close ends the process (C23).
    - The message queue's purpose (spec 4.3): the jobs of users' closes,
      with any further queue-free jobs added at any time, never run two at
      a time under any interleaving, and the running one holds the front
      ticket (C31).
    - The scenarios of spec 8 in sequence: a timed close then [close
      cancel] gives back the table unchanged (C28); a scheduled suspension
      overtaken by a close is not applied by a later tick (C29).
    - Start-up: [index.js] calls [main.start()] exactly when every check
      passes and no [require], migration or legacy-migrator call fails
      (C20), and what it reports when a dependency is missing (C21, C22).
    - Time: a timed close, run from the command, is due once the clock
      reaches the requested time and at no clock a second or more earlier
      (C13), and does fire early (C17).  The stored text compares byte by
      byte exactly as the whole seconds the model keeps (C25), reads back
      as that second (C26) and is a well-formed [DATETIME] literal (C27).
      So the integer model of scheduled times is faithful to the text the
      database compares.

    ** Findings

    The reply to a timed close always says "en silencio" (C10 states the
    reply); [close cancel] without a scheduled close says nothing (C9);
    deleting the channel of a SUSPENDED thread leaves it SUSPENDED (C12);
    [unsuspend] outside a thread throws a TypeError (C7); a close can fire
    up to 999 ms early (C17); the unsuspend and newthread checks are not
    atomic with their writes (C18); the tick skips the remaining due
    threads after one failure and sends a second farewell (C19); a missing
    [package.json] is reported as a missing package with an empty name
    (C22); a channel deletion racing with a close crashes the process
    (C23); the message queue is one queue for the whole bot, not one per
    thread as spec 4.3 describes (C31 is stated for that single queue);
    when the suspend loop reads a thread due for both before the close
    loop, the due close is dropped, and when it suspends between the close
    loop's query and its close both transitions apply and the suspension
    notice follows the teardown, against the tie-break of spec 4.2 (C30);
    a queued user close posts its notice before the close validates the
    status.

    ** Bounds and fuel

    Fuel counts atomic segments ([await]s); each handler theorem gives the
    exact number of segments its branch performs (for example 3 for a timed
    close, 4 for [unsuspend] and [newthread], 6 for a timed close followed
    by [close cancel]), and a tick performs [1 + 6 * #due] segments at most,
    whose existence the tick theorems state.  Time is an integer number of
    milliseconds ([Z]); the database keeps timestamps at second precision,
    modelled by [db_time ms = ms / 1000].  The text of a time is modelled
    for 1970 to the end of 9999 ([max_ms], the four-digit years of
    'YYYY'); locating a day uses [days / 365 + 1] rounds of whole years and
    12 of whole months, proved enough.  The loops of the source never end;
    [scheduledCloseLoop n] runs [n] iterations, and the event semantics
    ([Bot], [Interleave]) starts a tick as an event.

    ** Not modelled

    The Discord gateway and message I/O (only their effects are recorded),
    the database engine and the work of the migrations (the due queries'
    comparison of texts is modelled as byte order), command-text parsing
    (handlers take already-parsed arguments), log rendering ([logUrl] is a
    parameter of [Env]), [utils] string helpers (parameters of [Env]), the
    text formatting and sending inside [Thread.postToUser] and
    [Thread.postSystemMessage] of [data/Thread.js] (not under src/; each
    call is one recorded effect, and delivery to an unreachable user
    fails), moment's output for years after 9999, and in [index.js] the
    file-system calls, the modules loaded by [require] and the migrations
    themselves: what they return, or the error they throw or reject with,
    are fields of [Host].  Every line of the five files under src/ that
    computes is translated; the lines left are the [module.exports =
    ({ bot, knex, config, commands }) => { ... }] wrappers, whose only
    work is to pass the collaborators in ([Env] and the arguments of the
    handlers stand for them). *)

From stdpp Require Export base gmap strings list.
From Stdlib Require Export ZArith String.

Create HintDb modmail.
Create Rewrite HintDb modmail_rw.

(** ** JavaScript values *)

(** A nullable string interpolated in a template literal: [`${x}`] prints
    ["null"] when [x] is [null]. *)
Definition js_str_opt (o : option string) : string :=
  match o with
  | Some s => s
  | None => "null"
  end.

(** [Array.prototype.includes] on an array of strings. *)
Definition includes (l : list string) (x : string) : bool :=
  existsb (String.eqb x) l.

(** [String.prototype.startsWith]. *)
Definition starts_with (prefix s : string) : bool := String.prefix prefix s.

(** Truthiness of an optional value ([if (x)] in the source). *)
Definition is_set {A} (o : option A) : bool :=
  match o with Some _ => true | None => false end.

(** Truthiness of an optional string: [null] and the empty string are falsy. *)
Definition truthy_str (o : option string) : bool :=
  match o with
  | Some s => negb (String.eqb s EmptyString)
  | None => false
  end.

(** A newline and a double quote inside text. *)
Definition nl : string := String (Ascii.ascii_of_nat 10) EmptyString.
Definition dq : string := String (Ascii.ascii_of_nat 34) EmptyString.

(** ** Generic lemmas *)

Lemma includes_spec l x : includes l x = true <-> x ∈ l.
Proof.
  unfold includes. rewrite existsb_exists, list_elem_of_In.
  split; [intros (y & Hy & ->%String.eqb_eq); done | intros H; exists x; split; [done|apply String.eqb_refl]].
Qed.

Lemma includes_nil x : includes [] x = false.
Proof. reflexivity. Qed.

Lemma is_set_true {A} (o : option A) : is_set o = true <-> is_Some o.
Proof. destruct o; simpl; split; intros H; try done; by destruct H. Qed.

Lemma find_Some_elem {A} (f : A -> bool) l x :
  List.find f l = Some x -> x ∈ l /\ f x = true.
Proof. intros H. apply find_some in H as [? ?]. by rewrite list_elem_of_In. Qed.

Lemma find_None_elem {A} (f : A -> bool) l x :
  List.find f l = None -> x ∈ l -> f x = false.
Proof. intros H Hx. eapply find_none; [done|]. by apply list_elem_of_In. Qed.

Lemma NoDup_fmap_filter {A B} (f : A -> B) (p : A -> bool) (l : list A) :
  NoDup (f <$> l) -> NoDup (f <$> List.filter p l).
Proof.
  induction l as [|x l IH]; simpl; [done|]. intros [Hx Hl]%NoDup_cons.
  destruct (p x); simpl; [|by apply IH]. constructor; [|by apply IH].
  intros Hin. apply Hx. apply list_elem_of_fmap in Hin as (y & -> & Hy).
  apply list_elem_of_fmap. exists y. split; [done|].
  apply list_elem_of_In in Hy. apply filter_In in Hy as [Hy _]. by apply list_elem_of_In.
Qed.

#[export] Hint Resolve find_Some_elem : modmail.

(** ** Tactics *)

(** Invert a hypothesis and substitute. *)
Ltac invc H := inversion H; subst; clear H.

(** Turn the boolean tests of the code into propositions. *)
Ltac bool_props :=
  repeat match goal with
  | H : (_ && _)%bool = true |- _ => apply andb_prop in H as [? ?]
  | H : (_ || _)%bool = false |- _ => apply orb_false_elim in H as [? ?]
  | H : negb _ = true |- _ => apply negb_true_iff in H
  | H : negb _ = false |- _ => apply negb_false_iff in H
  | H : String.eqb _ _ = true |- _ => apply String.eqb_eq in H
  | H : Z.leb _ _ = true |- _ => apply Z.leb_le in H
  | H : Z.leb _ _ = false |- _ => apply Z.leb_gt in H
  end.
