(* ===== verification/Async.v ===== *)
(** * JavaScript [async] functions as a resumption monad

    An [async S A] is a program over a world [S] that returns an [A]: a finite
    tree whose nodes are atomic segments.  A segment [Step ready upd cont]
    runs, when [ready] holds of the current world, from one [await] to the
    next: it replaces the world [s] by [upd s] and continues with [cont s].
    [Throw e] is a rejected promise (an exception that escaped).  The
    event loop never preempts a segment, so this is the unit of atomicity of
    the source.

    [run n p s] executes [p] alone with fuel [n] (one unit per segment);
    [wp Q p s] is the total-correctness predicate: [p] terminates from [s]
    with an outcome and world satisfying [Q].  [wp_adequate] and
    [run_wp] relate the two. *)

From S2P Require Import Prelude.

(** The errors a JavaScript promise can be rejected with. *)
Inductive js_error :=
| TypeError (msg : string)
| Error (msg : string).

#[export] Instance js_error_eq_dec : EqDecision js_error.
Proof. solve_decision. Defined.

Inductive outcome (A : Type) :=
| Done (a : A)
| Failed (e : js_error).
Arguments Done {A} a.
Arguments Failed {A} e.

Section Async.
Variable S : Type.

Inductive async (A : Type) : Type :=
| Ret (a : A)
| Throw (e : js_error)
| Step (ready : S -> bool) (upd : S -> S) (cont : S -> async A).

Arguments Ret {A} a.
Arguments Throw {A} e.
Arguments Step {A} ready upd cont.

Fixpoint bind {A B} (p : async A) (f : A -> async B) : async B :=
  match p with
  | Ret a => f a
  | Throw e => Throw e
  | Step g u c => Step g u (fun s => bind (c s) f)
  end.

(** [try { p } catch (e) { h(e) }] and [p.catch(h)]. *)
Fixpoint catch {A} (p : async A) (h : js_error -> async A) : async A :=
  match p with
  | Ret a => Ret a
  | Throw e => h e
  | Step g u c => Step g u (fun s => catch (c s) h)
  end.

(** One awaited call that updates the world with [upd] and resolves with
    [res] (both computed from the world the call starts in). *)
Definition act {A} (upd : S -> S) (res : S -> A) : async A :=
  Step (fun _ => true) upd (fun s => Ret (res s)).

(** One awaited call whose result decides between resolving and
    rejecting. *)
Definition act_result {A} (upd : S -> S) (res : S -> outcome A) : async A :=
  Step (fun _ => true) upd (fun s => match res s with Done a => Ret a | Failed e => Throw e end).

(** Wait until the world satisfies [g] (a promise resolved by another task). *)
Definition await_until (g : S -> bool) : async unit :=
  Step g (fun s => s) (fun _ => Ret tt).

Fixpoint run {A} (n : nat) (p : async A) (s : S) {struct p} : option (outcome A * S) :=
  match p with
  | Ret a => Some (Done a, s)
  | Throw e => Some (Failed e, s)
  | Step g u c =>
      match n with
      | O => None
      | Datatypes.S n' => if g s then run n' (c s) (u s) else None
      end
  end.

Inductive wp {A} (Q : outcome A -> S -> Prop) : async A -> S -> Prop :=
| wp_ret a s : Q (Done a) s -> wp Q (Ret a) s
| wp_throw e s : Q (Failed e) s -> wp Q (Throw e) s
| wp_step g u c s : g s = true -> wp Q (c s) (u s) -> wp Q (Step g u c) s.

(** The postcondition of a program followed by [f]. *)
Definition bind_post {A B} (Q : outcome B -> S -> Prop) (f : A -> async B)
    : outcome A -> S -> Prop :=
  fun o s => match o with Done a => wp Q (f a) s | Failed e => Q (Failed e) s end.

Definition catch_post {A} (Q : outcome A -> S -> Prop) (h : js_error -> async A)
    : outcome A -> S -> Prop :=
  fun o s => match o with Done a => Q (Done a) s | Failed e => wp Q (h e) s end.

(** Two programs are equivalent when they have the same terminating
    behaviours. *)
Definition async_equiv {A} (p q : async A) : Prop :=
  forall Q s, wp Q p s <-> wp Q q s.

End Async.

Arguments Ret {S A} a.
Arguments Throw {S A} e.
Arguments Step {S A} ready upd cont.
Arguments bind {S A B} p f.
Arguments catch {S A} p h.
Arguments act {S A} upd res.
Arguments act_result {S A} upd res.
Arguments await_until {S} g.
Arguments run {S A} n p s.
Arguments wp {S A} Q _ _.
Arguments bind_post {S A B} Q f _ _.
Arguments catch_post {S A} Q h _ _.
Arguments async_equiv {S A} p q.

#[export] Instance async_ret {S} : MRet (async S) := fun A a => Ret a.
#[export] Instance async_bind {S} : MBind (async S) := fun A B f p => bind p f.

(** [for (const x of l) { await f(x); }]. *)
Fixpoint for_each {S X} (l : list X) (f : X -> async S unit) : async S unit :=
  match l with
  | [] => Ret tt
  | x :: l' => bind (f x) (fun _ => for_each l' f)
  end.

(** Discard the rejection of a promise: [p.catch(() => {})]. *)
Definition ignore_errors {S} (p : async S unit) : async S unit :=
  catch p (fun _ => Ret tt).

#[export] Hint Constructors wp : modmail.

(** Reduce the postcondition of a [bind] or [catch] after one step, without
    unfolding the program. *)
Ltac wp_post := unfold bind_post, catch_post; cbv beta iota.

(** ** Execution and its program logic *)

Section Laws.
Context {S : Type}.

Lemma run_mono {A} n m (p : async S A) s r :
  run n p s = Some r -> n <= m -> run m p s = Some r.
Proof.
  revert n m s. induction p as [a|e|g u c IH]; intros n m s Hrun Hle; [done|done|].
  destruct n as [|n]; [done|]. destruct m as [|m]; [lia|]. simpl in *.
  destruct (g s); [|done]. eapply IH; [done|lia].
Qed.

(** Sequencing two terminating runs. *)
Lemma run_bind {A B} n1 n2 (p : async S A) (f : A -> async S B) s a s1 r :
  run n1 p s = Some (Done a, s1) -> run n2 (f a) s1 = Some r -> run (n1 + n2) (bind p f) s = Some r.
Proof.
  revert n1 s. induction p as [a'|e|g u c IH]; intros n1 s H1 H2; simpl in H1.
  - simplify_eq. simpl. eapply run_mono; [done|lia].
  - done.
  - destruct n1 as [|n1]; [done|]. simpl. destruct (g s); [|done]. by eapply IH.
Qed.

Lemma wp_mono {A} (Q Q' : outcome A -> S -> Prop) p s :
  (forall o s', Q o s' -> Q' o s') -> wp Q p s -> wp Q' p s.
Proof. intros HQ H. induction H; eauto with modmail. Qed.

(** Adequacy: a [wp] proof gives a run that terminates with enough fuel, and
    its result satisfies the postcondition. *)
Lemma wp_adequate {A} (Q : outcome A -> S -> Prop) p s :
  wp Q p s -> exists n o s', run n p s = Some (o, s') /\ Q o s'.
Proof.
  induction 1 as [a s HQ|e s HQ|g u c s Hg _ (n & o & s' & Hrun & HQ)].
  - by exists 0, (Done a), s.
  - by exists 0, (Failed e), s.
  - exists (Datatypes.S n), o, s'. simpl. by rewrite Hg.
Qed.

Lemma run_wp {A} (Q : outcome A -> S -> Prop) n p s o s' :
  run n p s = Some (o, s') -> Q o s' -> wp Q p s.
Proof.
  revert n s. induction p as [a|e|g u c IH]; intros n s Hrun HQ; simpl in Hrun.
  - simplify_eq. by constructor.
  - simplify_eq. by constructor.
  - destruct n as [|n]; [done|]. destruct (g s) eqn:Hg; [|done].
    constructor; [done|]. by eapply IH.
Qed.

(** Every terminating run satisfies what [wp] promises. *)
Lemma wp_run {A} (Q : outcome A -> S -> Prop) n p s o s' :
  wp Q p s -> run n p s = Some (o, s') -> Q o s'.
Proof.
  intros H. revert n. induction H as [a s HQ|e s HQ|g u c s Hg _ IH]; intros n Hrun.
  - by simplify_eq/=.
  - by simplify_eq/=.
  - destruct n as [|n]; [done|]. simpl in Hrun. rewrite Hg in Hrun. by eapply IH.
Qed.

Lemma wp_bind_iff {A B} (Q : outcome B -> S -> Prop) (p : async S A) f s :
  wp Q (bind p f) s <-> wp (bind_post Q f) p s.
Proof.
  revert s. induction p as [a|e|g u c IH]; intros s; simpl.
  - split; [by constructor|by intros H; invc H].
  - split; [intros H; invc H; by constructor|intros H; invc H; by constructor].
  - split; intros H; invc H; constructor; try done; by apply IH.
Qed.

Lemma wp_catch_iff {A} (Q : outcome A -> S -> Prop) (p : async S A) h s :
  wp Q (catch p h) s <-> wp (catch_post Q h) p s.
Proof.
  revert s. induction p as [a|e|g u c IH]; intros s; simpl.
  - split; [intros H; invc H; by constructor|intros H; invc H; by constructor].
  - split; [by constructor|by intros H; invc H].
  - split; intros H; invc H; constructor; try done; by apply IH.
Qed.

Lemma wp_bind {A B} (Q : outcome B -> S -> Prop) (p : async S A) f s :
  wp (bind_post Q f) p s -> wp Q (bind p f) s.
Proof. apply wp_bind_iff. Qed.

Lemma wp_mbind {A B} (Q : outcome B -> S -> Prop) (p : async S A) (f : A -> async S B) s :
  wp (bind_post Q f) p s -> wp Q (p ≫= f) s.
Proof. apply wp_bind_iff. Qed.

Lemma wp_catch {A} (Q : outcome A -> S -> Prop) (p : async S A) h s :
  wp (catch_post Q h) p s -> wp Q (catch p h) s.
Proof. apply wp_catch_iff. Qed.

Lemma wp_act {A} (Q : outcome A -> S -> Prop) upd res s :
  Q (Done (res s)) (upd s) -> wp Q (act upd res) s.
Proof. intros H. by repeat constructor. Qed.

(** A loop over a list keeps an invariant [I] when every iteration does. *)
Lemma wp_for_each {X} (I : list X -> S -> Prop) (Q : outcome unit -> S -> Prop)
    (f : X -> async S unit) l s :
  I l s ->
  (forall s', I [] s' -> Q (Done tt) s') ->
  (forall x l' s', I (x :: l') s' ->
     wp (fun o s'' => match o with Done _ => I l' s'' | Failed e => Q (Failed e) s'' end) (f x) s') ->
  wp Q (for_each l f) s.
Proof.
  intros HI Hnil Hcons. revert s HI. induction l as [|x l IH]; intros s HI; simpl.
  - constructor. by apply Hnil.
  - apply wp_bind. eapply wp_mono; [|by apply Hcons].
    intros [] s'; simpl; [apply IH|done].
Qed.

(** ** Monad laws, up to the terminating behaviours *)

#[export] Instance async_equiv_equivalence {A} : Equivalence (@async_equiv S A).
Proof.
  split; unfold async_equiv.
  - done.
  - intros p q H Q s. by rewrite H.
  - intros p q r H1 H2 Q s. by rewrite H1, H2.
Qed.

#[export] Instance bind_proper {A B} :
  Proper (async_equiv ==> pointwise_relation A async_equiv ==> async_equiv) (@bind S A B).
Proof.
  intros p p' Hp f f' Hf Q s. rewrite !wp_bind_iff, (Hp _ s).
  split; apply wp_mono; intros [a|e] s'; simpl; try done; apply Hf.
Qed.

Lemma bind_ret_l {A B} (a : A) (f : A -> async S B) : async_equiv (bind (Ret a) f) (f a).
Proof. done. Qed.

Lemma bind_ret_r {A} (p : async S A) : async_equiv (bind p Ret) p.
Proof.
  intros Q s. rewrite wp_bind_iff.
  split; apply wp_mono; intros [a|e] s'; simpl; try done.
  - by intros H; invc H.
  - by constructor.
Qed.

Lemma bind_assoc {A B C} (p : async S A) (f : A -> async S B) (g : B -> async S C) :
  async_equiv (bind (bind p f) g) (bind p (fun a => bind (f a) g)).
Proof.
  intros Q s. rewrite !wp_bind_iff.
  split; apply wp_mono; intros [a|e] s'; simpl; rewrite ?wp_bind_iff; done.
Qed.

End Laws.

(** ** Partial correctness *)

Section Partial.
Context {S : Type}.

(** Every run of [p] from [s] that returns satisfies [Q]. *)
Definition pwp {A} (Q : outcome A -> S -> Prop) (p : async S A) (s : S) : Prop :=
  forall n o s', run n p s = Some (o, s') -> Q o s'.

Lemma run_bind_inv {A B} n (p : async S A) (f : A -> async S B) s r :
  run n (bind p f) s = Some r ->
  exists n1 o1 s1, run n1 p s = Some (o1, s1) /\
    match o1 with
    | Done a => exists n2, run n2 (f a) s1 = Some r
    | Failed e => r = (Failed e, s1)
    end.
Proof.
  revert n s. induction p as [a|e|g u c IH]; intros n s Hrun; simpl in Hrun.
  - exists 0, (Done a), s. split; [done|]. by exists n.
  - exists 0, (Failed e), s. by simplify_eq.
  - destruct n as [|n]; [done|]. destruct (g s) eqn:Hg; [|done].
    destruct (IH s n (u s) Hrun) as (n1 & o1 & s1 & Hr1 & Hk).
    exists (Datatypes.S n1), o1, s1. simpl. rewrite Hg. by split.
Qed.

Lemma run_catch_inv {A} n (p : async S A) h s r :
  run n (catch p h) s = Some r ->
  exists n1 o1 s1, run n1 p s = Some (o1, s1) /\
    match o1 with
    | Done a => r = (Done a, s1)
    | Failed e => exists n2, run n2 (h e) s1 = Some r
    end.
Proof.
  revert n s. induction p as [a|e|g u c IH]; intros n s Hrun; simpl in Hrun.
  - exists 0, (Done a), s. by simplify_eq.
  - exists 0, (Failed e), s. split; [done|]. by exists n.
  - destruct n as [|n]; [done|]. destruct (g s) eqn:Hg; [|done].
    destruct (IH s n (u s) Hrun) as (n1 & o1 & s1 & Hr1 & Hk).
    exists (Datatypes.S n1), o1, s1. simpl. rewrite Hg. by split.
Qed.

Lemma pwp_ret {A} (Q : outcome A -> S -> Prop) a s : Q (Done a) s -> pwp Q (Ret a) s.
Proof. intros HQ n o s' Hr. by simplify_eq/=. Qed.

Lemma pwp_throw {A} (Q : outcome A -> S -> Prop) e s : Q (Failed e) s -> pwp Q (Throw e) s.
Proof. intros HQ n o s' Hr. by simplify_eq/=. Qed.

Lemma pwp_step {A} (Q : outcome A -> S -> Prop) g u c s :
  (g s = true -> pwp Q (c s) (u s)) -> pwp Q (Step g u c) s.
Proof.
  intros H [|n] o s' Hr; simpl in Hr; [done|]. destruct (g s) eqn:Hg; [|done]. by eapply H.
Qed.

Lemma pwp_bind {A B} (Q : outcome B -> S -> Prop) (p : async S A) f s :
  pwp (fun o s1 => match o with Done a => pwp Q (f a) s1 | Failed e => Q (Failed e) s1 end) p s ->
  pwp Q (bind p f) s.
Proof.
  intros H n o s' Hr. apply run_bind_inv in Hr as (n1 & o1 & s1 & Hr1 & Hk).
  specialize (H _ _ _ Hr1). destruct o1 as [a|e].
  - destruct Hk as [n2 Hr2]. by eapply H.
  - by simplify_eq.
Qed.

Lemma pwp_catch {A} (Q : outcome A -> S -> Prop) (p : async S A) h s :
  pwp (fun o s1 => match o with Done a => Q (Done a) s1 | Failed e => pwp Q (h e) s1 end) p s ->
  pwp Q (catch p h) s.
Proof.
  intros H n o s' Hr. apply run_catch_inv in Hr as (n1 & o1 & s1 & Hr1 & Hk).
  specialize (H _ _ _ Hr1). destruct o1 as [a|e].
  - by simplify_eq.
  - destruct Hk as [n2 Hr2]. by eapply H.
Qed.

Lemma pwp_act {A} (Q : outcome A -> S -> Prop) upd (res : S -> A) s :
  Q (Done (res s)) (upd s) -> pwp Q (act upd res) s.
Proof. intros HQ. apply pwp_step. intros _. by apply pwp_ret. Qed.

Lemma pwp_mono {A} (Q Q' : outcome A -> S -> Prop) p s :
  (forall o s', Q o s' -> Q' o s') -> pwp Q p s -> pwp Q' p s.
Proof. intros HQ H n o s' Hr. eauto. Qed.

Lemma wp_pwp {A} (Q : outcome A -> S -> Prop) p s : wp Q p s -> pwp Q p s.
Proof. intros H n o s' Hr. by eapply wp_run. Qed.

(** A terminating run that also satisfies a partial-correctness promise:
    [pwp] carries invariants, [wp] carries termination. *)
Lemma wp_pwp_conj {A} (Q Q' : outcome A -> S -> Prop) p s :
  wp Q p s -> pwp Q' p s -> wp (fun o s' => Q o s' /\ Q' o s') p s.
Proof.
  intros H. induction H as [a s HQ|e s HQ|g u c s Hg _ IH]; intros Hp.
  - constructor. split; [done|]. by apply (Hp 0).
  - constructor. split; [done|]. by apply (Hp 0).
  - constructor; [done|]. apply IH. intros n o s' Hr. apply (Hp (Datatypes.S n)). simpl. by rewrite Hg.
Qed.

(** An invariant [I] of every step keeps holding along a loop over a list. *)
Lemma pwp_for_each {X} (I : S -> Prop) (f : X -> async S unit) l s :
  I s -> (forall x s1, I s1 -> pwp (fun _ s2 => I s2) (f x) s1) ->
  pwp (fun _ s2 => I s2) (for_each l f) s.
Proof.
  revert s. induction l as [|x l IH]; intros s HI Hf; simpl; [by apply pwp_ret|].
  apply pwp_bind. eapply pwp_mono; [|by apply Hf]. intros [] s1 H; [by apply IH|done].
Qed.

End Partial.

Arguments pwp {S A} Q p s.

(** ** Properties of every atomic segment *)

Section Segments.
Context {S : Type}.

(** Every segment a run of [p] may execute has an update satisfying [P]. *)
Fixpoint all_steps {A} (P : (S -> S) -> Prop) (p : async S A) : Prop :=
  match p with
  | Ret _ | Throw _ => True
  | Step _ u c => P u /\ forall s, all_steps P (c s)
  end.

Lemma all_steps_bind {A B} P (p : async S A) (f : A -> async S B) :
  all_steps P p -> (forall a, all_steps P (f a)) -> all_steps P (bind p f).
Proof. induction p as [a|e|g u c IH]; simpl; [auto|done|]. intros [Hu Hc] Hf. split; [done|]. auto. Qed.

Lemma all_steps_catch {A} P (p : async S A) h :
  all_steps P p -> (forall e, all_steps P (h e)) -> all_steps P (catch p h).
Proof. induction p as [a|e|g u c IH]; simpl; [done|auto|]. intros [Hu Hc] Hh. split; [done|]. auto. Qed.

Lemma all_steps_act {A} P u (r : S -> A) : P u -> all_steps P (act u r).
Proof. intros Hu. by split. Qed.

Lemma all_steps_act_result {A} P u (r : S -> outcome A) : P u -> all_steps P (act_result u r).
Proof. intros Hu. split; [done|]. intros s. simpl. by destruct (r s). Qed.

Lemma all_steps_for_each {X} P (l : list X) (f : X -> async S unit) :
  (forall x, all_steps P (f x)) -> all_steps P (for_each l f).
Proof. intros Hf. induction l; simpl; [done|]. by apply all_steps_bind. Qed.

(** A relation that every segment's update respects holds between the
    state a terminating run starts from and the state it ends in. *)
Lemma wp_all_steps {A} P (R : relation S) `{!PreOrder R} (Q : outcome A -> S -> Prop) p s :
  (forall u, P u -> forall s, R s (u s)) -> all_steps P p -> wp Q p s ->
  wp (fun o s' => Q o s' /\ R s s') p s.
Proof.
  intros HP Hp H. induction H as [a s HQ|e s HQ|g u c s Hg _ IH].
  - constructor. by split.
  - constructor. by split.
  - destruct Hp as [Hu Hc]. constructor; [done|].
    eapply wp_mono; [|by apply IH]. intros o s' [HQ Hr]. split; [done|]. by etrans; [apply HP|].
Qed.

End Segments.

(** ** Interleavings *)

(** The event loop runs a pool of tasks.  At each point it may start a new
    task (one of [spawnable]: an incoming event), run the next segment of a
    task whose awaited condition holds, or drop a finished task. *)
Section Interleave.
Context {S : Type} (spawnable : async S unit -> Prop).

Definition is_final {A} (p : async S A) : bool :=
  match p with Step _ _ _ => false | _ => true end.

Inductive conc_step : list (async S unit) * S -> list (async S unit) * S -> Prop :=
| cs_spawn p ts s : spawnable p -> conc_step (ts, s) (ts ++ [p], s)
| cs_step i ts s g u c :
    ts !! i = Some (Step g u c) -> g s = true -> conc_step (ts, s) (<[i := c s]> ts, u s)
| cs_exit i ts s p : ts !! i = Some p -> is_final p = true -> conc_step (ts, s) (delete i ts, s).

(** A preorder [R] on states that every segment of every task respects
    relates the initial state to every state an interleaving reaches. *)
Lemma conc_preserves (P : (S -> S) -> Prop) (R : S -> S -> Prop) `{!PreOrder R} ts0 s0 ts s :
  (forall u, P u -> forall s, R s (u s)) ->
  (forall p, spawnable p -> all_steps P p) ->
  Forall (all_steps P) ts0 -> rtc conc_step (ts0, s0) (ts, s) -> R s0 s.
Proof.
  intros HP Hsp Hts0 Hr.
  cut (forall c1 c2, rtc conc_step c1 c2 -> Forall (all_steps P) c1.1 -> R s0 c1.2 ->
         Forall (all_steps P) c2.1 /\ R s0 c2.2).
  { intros H. by apply (H _ _ Hr). }
  clear Hr. intros c1 c2 Hr. induction Hr as [c|c1 c2 c3 Hst _ IH]; [done|].
  intros Hts Hs.
  inversion Hst as [p ts1 s1 Hp|i ts1 s1 g u k Hi Hg|i ts1 s1 p Hi Hf]; subst; simpl in *; apply IH; simpl.
  - apply Forall_app. split; [done|]. by constructor; [apply Hsp|].
  - done.
  - rewrite Forall_lookup in Hts. specialize (Hts _ _ Hi) as Hk. simpl in Hk. destruct Hk as [_ Hc].
    apply Forall_lookup. intros j q Hj. destruct (decide (i = j)) as [<-|Hne].
    + rewrite list_lookup_insert_eq in Hj by (eapply lookup_lt_Some; eauto). by simplify_eq.
    + rewrite list_lookup_insert_ne in Hj by done. by eapply Hts.
  - rewrite Forall_lookup in Hts. destruct (Hts _ _ Hi) as [Hu _]. etrans; [done|]. by apply HP.
  - by apply Forall_delete.
  - done.
Qed.

(** An executable schedule, to exhibit interleavings. *)
Inductive sched_op := Spawn (p : async S unit) | Go (i : nat).

Definition exec_op (o : sched_op) (c : list (async S unit) * S) : option (list (async S unit) * S) :=
  let (ts, s) := c in
  match o with
  | Spawn p => Some (ts ++ [p], s)
  | Go i =>
      match ts !! i with
      | Some (Step g u k) => if g s then Some (<[i := k s]> ts, u s) else None
      | Some _ => Some (delete i ts, s)
      | None => None
      end
  end.

Fixpoint exec (os : list sched_op) (c : list (async S unit) * S) : option (list (async S unit) * S) :=
  match os with
  | [] => Some c
  | o :: os' => exec_op o c ≫= exec os'
  end.

Definition spawns_ok (os : list sched_op) : Prop :=
  Forall (fun o => match o with Spawn p => spawnable p | Go _ => True end) os.

Lemma exec_sound os c c' : spawns_ok os -> exec os c = Some c' -> rtc conc_step c c'.
Proof.
  revert c. induction os as [|o os IH]; intros [ts s] Hok He; [simpl in He; by simplify_eq|].
  apply Forall_cons in Hok as [Ho Hok]. change (exec_op o (ts, s) ≫= exec os = Some c') in He.
  destruct (exec_op o (ts, s)) as [c1|] eqn:Hop; simpl in He; [|discriminate He].
  eapply rtc_l; [|by apply IH]. destruct o as [p|i]; simpl in Hop; [simplify_eq; by constructor|].
  destruct (ts !! i) as [[a|e|g u k]|] eqn:Hi; try done.
  - simplify_eq. by eapply cs_exit.
  - simplify_eq. by eapply cs_exit.
  - destruct (g s) eqn:Hg; [|done]. simplify_eq. by eapply cs_step.
Qed.

End Interleave.

Arguments Spawn {S} p.
Arguments Go {S} i.
