(* ===== verification/Thread.v ===== *)
(** * Threads and the thread state machine

    The row of the threads table that [data/Thread.js] wraps (fields as the
    modules under src/ read them: [thread.status], [thread.user_id],
    [thread.scheduled_close_at], ...), its status [THREAD_STATUS] from
    [data/constants.js], and the transitions of spec section 4.2 as pure
    functions returning [None] when the precondition fails.  These files
    are not under src/: the definitions follow the specification.

    Timestamps are database timestamps, kept as a number of seconds.

    The invariant [thread_wf] says that scheduled actions exist only on an
    OPEN thread (spec section 3); [thread_step] is the transition relation,
    and [status_step] the abstract status graph it refines. *)

From S2P Require Import Prelude.

Inductive thread_status := CLOSED | OPEN | SUSPENDED.

#[export] Instance thread_status_eq_dec : EqDecision thread_status.
Proof. solve_decision. Defined.

Record Thread := mkThread {
  thread_id : string;
  status : thread_status;
  user_id : string;
  user_name : string;
  channel_id : string;
  scheduled_close_at : option Z;
  scheduled_close_id : option string;
  scheduled_close_name : option string;
  scheduled_close_silent : bool;
  scheduled_suspend_at : option Z;
  scheduled_suspend_id : option string;
  scheduled_suspend_name : option string;
  alert_id : option string
}.

(** The user a command comes from ([msg.author]). *)
Record User := mkUser {
  uid : string;
  username : string;
  discriminator : string
}.

Definition is_open (t : Thread) : bool := bool_decide (status t = OPEN).

(** ** Record updates *)

Definition with_status (st : thread_status) (t : Thread) : Thread :=
  {| thread_id := thread_id t; status := st; user_id := user_id t; user_name := user_name t;
     channel_id := channel_id t;
     scheduled_close_at := scheduled_close_at t; scheduled_close_id := scheduled_close_id t;
     scheduled_close_name := scheduled_close_name t;
     scheduled_close_silent := scheduled_close_silent t;
     scheduled_suspend_at := scheduled_suspend_at t;
     scheduled_suspend_id := scheduled_suspend_id t;
     scheduled_suspend_name := scheduled_suspend_name t; alert_id := alert_id t |}.

Definition with_close (at_ : option Z) (by_id by_name : option string) (silent : bool)
    (t : Thread) : Thread :=
  {| thread_id := thread_id t; status := status t; user_id := user_id t; user_name := user_name t;
     channel_id := channel_id t;
     scheduled_close_at := at_; scheduled_close_id := by_id;
     scheduled_close_name := by_name; scheduled_close_silent := silent;
     scheduled_suspend_at := scheduled_suspend_at t;
     scheduled_suspend_id := scheduled_suspend_id t;
     scheduled_suspend_name := scheduled_suspend_name t; alert_id := alert_id t |}.

Definition with_suspend (at_ : option Z) (by_id by_name : option string) (t : Thread) : Thread :=
  {| thread_id := thread_id t; status := status t; user_id := user_id t; user_name := user_name t;
     channel_id := channel_id t;
     scheduled_close_at := scheduled_close_at t; scheduled_close_id := scheduled_close_id t;
     scheduled_close_name := scheduled_close_name t;
     scheduled_close_silent := scheduled_close_silent t;
     scheduled_suspend_at := at_; scheduled_suspend_id := by_id;
     scheduled_suspend_name := by_name; alert_id := alert_id t |}.

Definition with_alert (a : option string) (t : Thread) : Thread :=
  {| thread_id := thread_id t; status := status t; user_id := user_id t; user_name := user_name t;
     channel_id := channel_id t;
     scheduled_close_at := scheduled_close_at t; scheduled_close_id := scheduled_close_id t;
     scheduled_close_name := scheduled_close_name t;
     scheduled_close_silent := scheduled_close_silent t;
     scheduled_suspend_at := scheduled_suspend_at t;
     scheduled_suspend_id := scheduled_suspend_id t;
     scheduled_suspend_name := scheduled_suspend_name t; alert_id := a |}.

(** Both scheduled actions removed. *)
Definition clear_schedules (t : Thread) : Thread :=
  with_suspend None None None (with_close None None None false t).

(** ** Transitions (spec 4.2) *)

(** [close]: from OPEN or SUSPENDED; clears both scheduled actions. *)
Definition close_thread (t : Thread) : option Thread :=
  match status t with
  | OPEN | SUSPENDED => Some (with_status CLOSED (clear_schedules t))
  | CLOSED => None
  end.

(** [suspend]: from OPEN only. *)
Definition suspend_thread (t : Thread) : option Thread :=
  match status t with
  | OPEN => Some (with_status SUSPENDED (clear_schedules t))
  | _ => None
  end.

(** [unsuspend]: from SUSPENDED only (the check for another OPEN thread of
    the same user is a store-level condition, see [Store]). *)
Definition unsuspend_thread (t : Thread) : option Thread :=
  match status t with
  | SUSPENDED => Some (with_status OPEN t)
  | _ => None
  end.

(** [scheduleClose(time, user, silent)]: from OPEN only. *)
Definition schedule_close_thread (at_ : Z) (by_ : User) (silent : bool) (t : Thread)
    : option Thread :=
  match status t with
  | OPEN => Some (with_close (Some at_) (Some (uid by_)) (Some (username by_)) silent t)
  | _ => None
  end.

(** [cancelScheduledClose]: only when a close is scheduled. *)
Definition cancel_scheduled_close_thread (t : Thread) : option Thread :=
  match scheduled_close_at t with
  | Some _ => Some (with_close None None None false t)
  | None => None
  end.

Definition schedule_suspend_thread (at_ : Z) (by_ : User) (t : Thread) : option Thread :=
  match status t with
  | OPEN => Some (with_suspend (Some at_) (Some (uid by_)) (Some (username by_)) t)
  | _ => None
  end.

Definition cancel_scheduled_suspend_thread (t : Thread) : option Thread :=
  match scheduled_suspend_at t with
  | Some _ => Some (with_suspend None None None t)
  | None => None
  end.

(** [setAlert(id | null)]: independent of the status. *)
Definition set_alert_thread (a : option string) (t : Thread) : Thread := with_alert a t.

(** ** The state machine *)

Inductive thread_step : Thread -> Thread -> Prop :=
| ts_close t t' : close_thread t = Some t' -> thread_step t t'
| ts_suspend t t' : suspend_thread t = Some t' -> thread_step t t'
| ts_unsuspend t t' : unsuspend_thread t = Some t' -> thread_step t t'
| ts_schedule_close at_ u silent t t' :
    schedule_close_thread at_ u silent t = Some t' -> thread_step t t'
| ts_cancel_close t t' : cancel_scheduled_close_thread t = Some t' -> thread_step t t'
| ts_schedule_suspend at_ u t t' : schedule_suspend_thread at_ u t = Some t' -> thread_step t t'
| ts_cancel_suspend t t' : cancel_scheduled_suspend_thread t = Some t' -> thread_step t t'
| ts_set_alert a t : thread_step t (set_alert_thread a t).

(** The status graph of spec 4.2: OPEN -> CLOSED, OPEN -> SUSPENDED,
    SUSPENDED -> OPEN, and SUSPENDED -> CLOSED (close is valid from
    SUSPENDED). *)
Inductive status_step : thread_status -> thread_status -> Prop :=
| st_close_open : status_step OPEN CLOSED
| st_close_suspended : status_step SUSPENDED CLOSED
| st_suspend : status_step OPEN SUSPENDED
| st_unsuspend : status_step SUSPENDED OPEN.

(** Scheduled actions exist only on an OPEN thread. *)
Definition thread_wf (t : Thread) : Prop :=
  status t <> OPEN -> scheduled_close_at t = None /\ scheduled_suspend_at t = None.

#[export] Instance thread_wf_dec t : Decision (thread_wf t).
Proof. unfold thread_wf. apply _. Defined.

(** No close is scheduled: the four close fields at their initial values. *)
Definition no_close_scheduled (t : Thread) : Prop :=
  scheduled_close_at t = None /\ scheduled_close_id t = None /\
  scheduled_close_name t = None /\ scheduled_close_silent t = false.

(** Unfold a transition and split on the status or schedule it tests. *)
Ltac thread_cases :=
  repeat match goal with H : thread_step _ _ |- _ => destruct H end;
  unfold close_thread, suspend_thread, unsuspend_thread, schedule_close_thread,
    cancel_scheduled_close_thread, schedule_suspend_thread,
    cancel_scheduled_suspend_thread in *;
  repeat case_match; simplify_eq.

(** The fields a transition never changes: identity, user and channel. *)
Lemma thread_step_immutable t t' :
  thread_step t t' ->
  thread_id t' = thread_id t /\ user_id t' = user_id t /\ user_name t' = user_name t /\
  channel_id t' = channel_id t.
Proof. intros Hs. thread_cases; done. Qed.

Lemma rtc_thread_step_immutable t t' :
  rtc thread_step t t' ->
  thread_id t' = thread_id t /\ user_id t' = user_id t /\ channel_id t' = channel_id t.
Proof.
  intros Hr. induction Hr as [t0|t1 t2 t3 Hs Hr IH]; [done|].
  apply thread_step_immutable in Hs as (? & ? & ? & ?). destruct IH as (? & ? & ?). split_and!; congruence.
Qed.

#[export] Hint Resolve thread_step_immutable : modmail.

(** ** Theorems of the state machine *)

(** [close] leaves a CLOSED thread with both scheduled actions cleared. *)
Lemma close_thread_clears t t' :
  close_thread t = Some t' ->
  status t' = CLOSED /\ scheduled_close_at t' = None /\ scheduled_suspend_at t' = None /\
  scheduled_close_silent t' = false /\ thread_id t' = thread_id t /\
  user_id t' = user_id t /\ channel_id t' = channel_id t.
Proof. intros H. thread_cases; done. Qed.

Lemma close_thread_None t : close_thread t = None <-> status t = CLOSED.
Proof. unfold close_thread. destruct (status t); naive_solver. Qed.

Lemma suspend_thread_None t : suspend_thread t = None <-> status t <> OPEN.
Proof. unfold suspend_thread. destruct (status t); naive_solver. Qed.

Lemma unsuspend_thread_None t : unsuspend_thread t = None <-> status t <> SUSPENDED.
Proof. unfold unsuspend_thread. destruct (status t); naive_solver. Qed.

#[export] Hint Resolve close_thread_clears : modmail.

(** The invariant of spec section 3 is kept by every transition of
    the thread state machine: a thread that is not OPEN has no scheduled
    close and no scheduled suspension. *)
Lemma thread_step_wf t t' : thread_wf t -> thread_step t t' -> thread_wf t'.
Proof. unfold thread_wf. intros Hwf Hs. thread_cases; simpl in *; naive_solver. Qed.

(** Refinement of the status graph of spec 4.2: every transition of
    a thread either keeps its status or follows one of the edges OPEN ->
    CLOSED, OPEN -> SUSPENDED, SUSPENDED -> OPEN, SUSPENDED -> CLOSED. *)
Lemma thread_step_refines t t' :
  thread_step t t' -> status t' = status t \/ status_step (status t) (status t').
Proof.
  intros Hs. thread_cases; simpl; auto; right; constructor.
Qed.

Lemma rtc_thread_step_refines t t' :
  rtc thread_step t t' -> rtc status_step (status t) (status t').
Proof.
  intros Hr. induction Hr as [t0|t1 t2 t3 Hs _ IH]; [done|].
  destruct (thread_step_refines _ _ Hs) as [Heq | Hst]; [by rewrite <- Heq|]. by eapply rtc_l.
Qed.

(** CLOSED is terminal: after any sequence of transitions a closed
    thread is still closed. *)
Lemma closed_terminal t t' :
  rtc thread_step t t' -> status t = CLOSED -> status t' = CLOSED.
Proof.
  intros Hr%rtc_thread_step_refines Hc. rewrite Hc in Hr.
  inversion Hr as [|? ? ? Hst]; [done|]. inversion Hst.
Qed.

(** Round trip: scheduling a close on an OPEN thread with no scheduled
    close and cancelling it gives back the same thread, with no residual
    field. *)
Lemma schedule_cancel_close_roundtrip t at_ u silent :
  status t = OPEN -> no_close_scheduled t ->
  (schedule_close_thread at_ u silent t ≫= cancel_scheduled_close_thread) = Some t.
Proof.
  intros Hst (? & ? & ? & ?). destruct t; simpl in *; by subst.
Qed.

(** The same for a scheduled suspension. *)
Lemma schedule_cancel_suspend_roundtrip t at_ u :
  status t = OPEN -> scheduled_suspend_at t = None -> scheduled_suspend_id t = None ->
  scheduled_suspend_name t = None ->
  (schedule_suspend_thread at_ u t ≫= cancel_scheduled_suspend_thread) = Some t.
Proof.
  intros Hst ? ? ?. destruct t; simpl in *; by subst.
Qed.
