(* ===== verification/Store.v ===== *)
(** * The threads table and its queries

    The threads table is a [gmap] from thread id to row; [threads_of] lists
    the rows in the table's order.  The queries are those of
    [data/threads.js] that the modules under src/ call (spec 4.1):
    [findOpenThreadByUserId], [findOpenThreadByChannelId],
    [findSuspendedThreadByChannelId], [getThreadsThatShouldBeClosed],
    [getThreadsThatShouldBeSuspended], and the writes [save] and
    [createNewThreadForUser].  [.first()] returns the first matching row,
    modelled by [List.find].

    [store_wf] is the invariant: rows are stored under their own id, every
    row satisfies [thread_wf], and at most one row per user is OPEN (spec
    section 3). *)

From S2P Require Import Prelude Thread.

Abbreviation store := (gmap string Thread).

Definition threads_of (m : store) : list Thread := snd <$> map_to_list m.

(** A scheduled time is due when it is set and not later than [now]. *)
Definition due (at_ : option Z) (now : Z) : bool :=
  match at_ with Some a => Z.leb a now | None => false end.

Definition findOpenThreadByUserId (uid_ : string) (m : store) : option Thread :=
  List.find (fun t => is_open t && String.eqb (user_id t) uid_) (threads_of m).

Definition findOpenThreadByChannelId (cid : string) (m : store) : option Thread :=
  List.find (fun t => is_open t && String.eqb (channel_id t) cid) (threads_of m).

Definition findSuspendedThreadByChannelId (cid : string) (m : store) : option Thread :=
  List.find (fun t => bool_decide (status t = SUSPENDED) && String.eqb (channel_id t) cid)
    (threads_of m).

(** [status = OPEN and scheduled_close_at <= now]. *)
Definition getThreadsThatShouldBeClosed (now : Z) (m : store) : list Thread :=
  List.filter (fun t => is_open t && due (scheduled_close_at t) now) (threads_of m).

Definition getThreadsThatShouldBeSuspended (now : Z) (m : store) : list Thread :=
  List.filter (fun t => is_open t && due (scheduled_suspend_at t) now) (threads_of m).

(** Write a row back under its id. *)
Definition save (t : Thread) (m : store) : store := <[thread_id t := t]> m.

(** A new OPEN thread for [u] bound to the new channel [cid]. *)
Definition new_thread (tid cid : string) (u : User) : Thread :=
  {| thread_id := tid; status := OPEN; user_id := uid u; user_name := username u;
     channel_id := cid;
     scheduled_close_at := None; scheduled_close_id := None; scheduled_close_name := None;
     scheduled_close_silent := false;
     scheduled_suspend_at := None; scheduled_suspend_id := None;
     scheduled_suspend_name := None; alert_id := None |}.

Definition createNewThreadForUser (tid cid : string) (u : User) (m : store) : store :=
  save (new_thread tid cid u) m.

(** ** The invariant *)

Definition one_open_per_user (m : store) : Prop :=
  map_Forall (fun k1 t1 => map_Forall (fun k2 t2 =>
    status t1 = OPEN -> status t2 = OPEN -> user_id t1 = user_id t2 -> k1 = k2) m) m.

(** Every row is stored under its own id and satisfies [thread_wf]. *)
Definition rows_ok (m : store) : Prop :=
  map_Forall (fun k t => thread_id t = k /\ thread_wf t) m.

Definition store_wf (m : store) : Prop := rows_ok m /\ one_open_per_user m.

#[export] Instance store_wf_dec m : Decision (store_wf m).
Proof. unfold store_wf, rows_ok, one_open_per_user. apply _. Defined.

(** ** Rows and queries *)

Lemma elem_of_threads_of (m : store) t : t ∈ threads_of m <-> exists k, m !! k = Some t.
Proof.
  unfold threads_of. rewrite list_elem_of_fmap. split.
  - intros ([k t'] & -> & Hk%elem_of_map_to_list). by exists k.
  - intros [k Hk]. exists (k, t). split; [done|]. by apply elem_of_map_to_list.
Qed.

Lemma store_wf_row m t : store_wf m -> t ∈ threads_of m -> m !! thread_id t = Some t.
Proof. intros [Hk _] [k Hkt]%elem_of_threads_of. by destruct (Hk k t Hkt) as [-> _]. Qed.

Lemma store_wf_thread m k t : store_wf m -> m !! k = Some t -> thread_wf t.
Proof. intros [Hk _] Hkt. apply (Hk k t Hkt). Qed.

Lemma find_query_Some (p : Thread -> bool) m t :
  store_wf m -> List.find p (threads_of m) = Some t -> m !! thread_id t = Some t /\ p t = true.
Proof. intros Hwf [Hin Hp]%find_Some_elem. split; [by apply store_wf_row|done]. Qed.

Lemma find_query_None (p : Thread -> bool) m k t :
  List.find p (threads_of m) = None -> m !! k = Some t -> p t = false.
Proof. intros Hnone Hk. eapply find_None_elem; [done|]. apply elem_of_threads_of. eauto. Qed.

Lemma findOpenThreadByUserId_None uid_ m k t :
  findOpenThreadByUserId uid_ m = None -> m !! k = Some t -> status t = OPEN -> user_id t <> uid_.
Proof.
  intros Hn Hk Ho Hu. pose proof (find_query_None _ _ _ _ Hn Hk) as Hf. simpl in Hf.
  unfold is_open in Hf. rewrite bool_decide_eq_true_2 in Hf by done.
  subst. by rewrite String.eqb_refl in Hf.
Qed.

Lemma findOpenThreadByUserId_Some uid_ m t :
  store_wf m -> findOpenThreadByUserId uid_ m = Some t ->
  m !! thread_id t = Some t /\ status t = OPEN /\ user_id t = uid_.
Proof.
  intros Hwf (Hk & Hp)%find_query_Some; [|done]. bool_props.
  unfold is_open in *. bool_props. by split_and!; [| apply bool_decide_eq_true in H |].
Qed.

Lemma findOpenThreadByChannelId_Some cid m t :
  store_wf m -> findOpenThreadByChannelId cid m = Some t ->
  m !! thread_id t = Some t /\ status t = OPEN /\ channel_id t = cid.
Proof.
  intros Hwf (Hk & Hp)%find_query_Some; [|done]. bool_props.
  unfold is_open in *. by split_and!; [| apply bool_decide_eq_true in H |].
Qed.

Lemma findSuspendedThreadByChannelId_Some cid m t :
  store_wf m -> findSuspendedThreadByChannelId cid m = Some t ->
  m !! thread_id t = Some t /\ status t = SUSPENDED /\ channel_id t = cid.
Proof.
  intros Hwf (Hk & Hp)%find_query_Some; [|done]. bool_props.
  by split_and!; [| apply bool_decide_eq_true in H |].
Qed.

Lemma save_lookup t m k : thread_id t = k -> save t m !! k = Some t.
Proof. intros <-. apply lookup_insert_eq. Qed.

(** Saving a row over its old value rewrites that one row of the list of
    rows, in place. *)
Lemma threads_of_save m t t' :
  rows_ok m -> m !! thread_id t = Some t -> thread_id t' = thread_id t ->
  threads_of (save t' m) = (fun x => if bool_decide (thread_id x = thread_id t) then t' else x) <$> threads_of m.
Proof.
  intros Hok Ht Hid.
  assert (Hm : save t' m = (fun x => if bool_decide (thread_id x = thread_id t) then t' else x) <$> m).
  { apply map_eq. intros k. unfold save. rewrite lookup_fmap, Hid.
    destruct (decide (k = thread_id t)) as [->|Hne].
    - rewrite lookup_insert_eq, Ht. simpl. by rewrite bool_decide_eq_true_2.
    - rewrite lookup_insert_ne by done. destruct (m !! k) as [x|] eqn:Hk; [|done]. simpl.
      destruct (Hok k x Hk) as [Hx _]. by rewrite bool_decide_eq_false_2 by congruence. }
  unfold threads_of. rewrite Hm, map_to_list_fmap, <- !list_fmap_compose. done.
Qed.

(** A query that does not tell [t] from [t'] finds [t'] once it is saved
    over [t]. *)
Lemma find_save (p : Thread -> bool) m t t' :
  rows_ok m -> m !! thread_id t = Some t -> thread_id t' = thread_id t -> p t' = p t ->
  List.find p (threads_of m) = Some t -> List.find p (threads_of (save t' m)) = Some t'.
Proof.
  intros Hok Ht Hid Hp Hfind. rewrite (threads_of_save m t t') by done.
  assert (Hrow : forall x, x ∈ threads_of m -> thread_id x = thread_id t -> x = t).
  { intros x [k Hk]%elem_of_threads_of Hx. destruct (Hok k x Hk) as [<- _]. congruence. }
  revert Hrow Hfind. induction (threads_of m) as [|x l IH]; intros Hrow Hfind; [done|]. cbn in Hfind |- *.
  assert (Hl : forall y, y ∈ l -> thread_id y = thread_id t -> y = t) by (intros; apply Hrow; [by right|done]).
  case_bool_decide as Hx.
  - assert (x = t) as -> by (apply Hrow; [by left|done]). rewrite Hp. destruct (p t); [done|]. by apply IH.
  - destruct (p x); [by simplify_eq|]. by apply IH.
Qed.

(** A row stored under its id is among the rows a filter query returns
    (by id) exactly when it passes the filter. *)
Lemma filter_ids_row (P : Thread -> bool) m t :
  store_wf m -> m !! thread_id t = Some t ->
  thread_id t ∈ thread_id <$> List.filter P (threads_of m) <-> P t = true.
Proof.
  intros Hwf Ht. rewrite list_elem_of_fmap. split.
  - intros (t' & Hid & Hin). apply list_elem_of_In, filter_In in Hin as [Hin HP].
    apply list_elem_of_In, (store_wf_row m) in Hin; [|done]. rewrite <- Hid, Ht in Hin. by simplify_eq.
  - intros HP. exists t. split; [done|]. apply list_elem_of_In, filter_In. split; [|done].
    apply list_elem_of_In, elem_of_threads_of. eauto.
Qed.

Lemma elem_of_getThreadsThatShouldBeClosed now m t :
  t ∈ getThreadsThatShouldBeClosed now m <->
  (exists k, m !! k = Some t) /\ status t = OPEN /\ due (scheduled_close_at t) now = true.
Proof.
  unfold getThreadsThatShouldBeClosed. rewrite list_elem_of_In, filter_In, <- list_elem_of_In.
  rewrite elem_of_threads_of, andb_true_iff. unfold is_open. by rewrite bool_decide_eq_true.
Qed.

Lemma elem_of_getThreadsThatShouldBeSuspended now m t :
  t ∈ getThreadsThatShouldBeSuspended now m <->
  (exists k, m !! k = Some t) /\ status t = OPEN /\ due (scheduled_suspend_at t) now = true.
Proof.
  unfold getThreadsThatShouldBeSuspended. rewrite list_elem_of_In, filter_In, <- list_elem_of_In.
  rewrite elem_of_threads_of, andb_true_iff. unfold is_open. by rewrite bool_decide_eq_true.
Qed.

(** The rows of a well-formed table have distinct ids. *)
Lemma threads_of_NoDup_ids m : store_wf m -> NoDup (thread_id <$> threads_of m).
Proof.
  intros [Hk _]. unfold threads_of. rewrite <- list_fmap_compose.
  erewrite (list_fmap_ext _ fst); [apply NoDup_fst_map_to_list|].
  intros i [k t] Hi%list_elem_of_lookup_2%elem_of_map_to_list. simpl.
  by destruct (Hk k t Hi).
Qed.

(** In a well-formed table the OPEN row of a user is the one the query
    returns. *)
Lemma findOpenThreadByUserId_row m k t :
  store_wf m -> m !! k = Some t -> status t = OPEN -> findOpenThreadByUserId (user_id t) m = Some t.
Proof.
  intros Hwf Hk Ho. destruct (findOpenThreadByUserId (user_id t) m) as [t2|] eqn:Hf.
  - destruct (findOpenThreadByUserId_Some _ _ _ Hwf Hf) as (Ht2 & Ho2 & Hu2).
    destruct Hwf as [_ Hone]. rewrite (Hone k t Hk (thread_id t2) t2 Ht2 Ho Ho2 (eq_sym Hu2)) in Hk.
    by simplify_eq.
  - by destruct (findOpenThreadByUserId_None _ _ _ _ Hf Hk Ho).
Qed.

(** ** Preservation of the invariant *)

(** Writing back a well-formed row keeps the invariant when, if the row is
    OPEN, no other OPEN row belongs to its user. *)
Lemma save_wf m t :
  store_wf m -> thread_wf t ->
  (status t = OPEN -> forall k t2, m !! k = Some t2 -> k <> thread_id t ->
     status t2 = OPEN -> user_id t2 <> user_id t) ->
  store_wf (save t m).
Proof.
  intros [Hk Hone] Htw Hother. unfold save. split.
  - intros k t2 Hl. destruct (decide (thread_id t = k)) as [<-|Hne].
    + rewrite lookup_insert_eq in Hl. by simplify_eq.
    + rewrite lookup_insert_ne in Hl by done. by apply Hk.
  - intros k1 t1 Hl1 k2 t2 Hl2 Ho1 Ho2 Hu.
    destruct (decide (thread_id t = k1)) as [<-|Hne1], (decide (thread_id t = k2)) as [<-|Hne2];
      simplify_map_eq; try done.
    + exfalso. by apply (Hother Ho1 k2 t2 Hl2).
    + exfalso. by apply (Hother Ho2 k1 t1 Hl1).
    + by apply (Hone k1 t1 Hl1 k2 t2 Hl2).
Qed.

(** A transition of a stored row keeps the invariant, provided a thread that
    becomes OPEN has no other OPEN thread of its user (the [unsuspend]
    check). *)
Lemma save_step_wf m t t' :
  store_wf m -> m !! thread_id t = Some t -> thread_step t t' ->
  (status t' = OPEN -> status t <> OPEN ->
     forall k t2, m !! k = Some t2 -> status t2 = OPEN -> user_id t2 <> user_id t) ->
  store_wf (save t' m).
Proof.
  intros Hwf Ht Hs Hreopen.
  destruct (thread_step_immutable _ _ Hs) as (Hid & Huid & _ & _).
  apply save_wf; [done| |].
  - eapply thread_step_wf; [|done]. by eapply store_wf_thread.
  - intros Ho k t2 Hk Hne Ho2 Hu. rewrite Hid in Hne. rewrite Huid in Hu.
    destruct (decide (status t = OPEN)) as [Hot|Hot].
    + apply Hne. destruct Hwf as [_ Hone]. by eapply (Hone k t2 Hk (thread_id t) t).
    + by apply (Hreopen Ho Hot k t2).
Qed.

(** A transition that leaves the row not OPEN keeps the invariant. *)
Lemma save_step_not_open_wf m t t' :
  store_wf m -> m !! thread_id t = Some t -> thread_step t t' -> status t' <> OPEN ->
  store_wf (save t' m).
Proof. intros Hwf Ht Hs Hno. eapply save_step_wf; [done..|]. by intros. Qed.

(** A transition that keeps the status keeps the invariant. *)
Lemma save_step_same_status_wf m t t' :
  store_wf m -> m !! thread_id t = Some t -> thread_step t t' -> status t' = status t ->
  store_wf (save t' m).
Proof. intros Hwf Ht Hs Hst. eapply save_step_wf; [done..|]. by rewrite Hst. Qed.

(** [unsuspend] keeps the invariant when no OPEN thread of the user exists. *)
Lemma unsuspend_save_wf m t t' :
  store_wf m -> m !! thread_id t = Some t -> unsuspend_thread t = Some t' ->
  findOpenThreadByUserId (user_id t) m = None ->
  store_wf (save t' m).
Proof.
  intros Hwf Ht Hu Hnone. eapply save_step_wf; [done|done|by constructor|].
  intros _ _ k t2 Hk Ho. by eapply findOpenThreadByUserId_None.
Qed.

(** Creating a thread keeps the invariant when the id is fresh and the user
    has no OPEN thread. *)
Lemma create_wf m tid cid u :
  store_wf m -> m !! tid = None -> findOpenThreadByUserId (uid u) m = None ->
  store_wf (createNewThreadForUser tid cid u m).
Proof.
  intros Hwf Hfresh Hnone. apply save_wf; [done|by intros ?|].
  intros _ k t2 Hk _ Ho. by eapply findOpenThreadByUserId_None.
Qed.

#[export] Hint Resolve save_step_not_open_wf save_step_same_status_wf : modmail.

(** ** Rows evolve by transitions *)

(** Every row of [m] is still in [m'], reached from it by transitions of
    the state machine. *)
Definition rows_evolve (m m' : store) : Prop :=
  forall k t, m !! k = Some t -> exists t', m' !! k = Some t' /\ rtc thread_step t t'.

#[export] Instance rows_evolve_preorder : PreOrder rows_evolve.
Proof.
  split.
  - intros m k t Hk. exists t. by split.
  - intros m1 m2 m3 H12 H23 k t Hk. destruct (H12 k t Hk) as (t2 & Hk2 & Hr2).
    destruct (H23 k t2 Hk2) as (t3 & Hk3 & Hr3). exists t3. split; [done|]. by etrans.
Qed.

(** Writing back a transition of a stored row. *)
Lemma save_step_ok m k row row' :
  rows_ok m -> m !! k = Some row -> thread_step row row' ->
  rows_ok (save row' m) /\ rows_evolve m (save row' m).
Proof.
  intros Hok Hk Hs. destruct (Hok k row Hk) as [Hid Hwf].
  destruct (thread_step_immutable _ _ Hs) as (Hid' & _). unfold save. rewrite Hid', Hid. split.
  - apply map_Forall_insert_2; [|done]. split; [by rewrite Hid', Hid|]. by eapply thread_step_wf.
  - intros k2 t2 Hk2. destruct (decide (k = k2)) as [<-|Hne].
    + rewrite Hk in Hk2. simplify_eq. exists row'. rewrite lookup_insert_eq. split; [done|].
      by apply rtc_once.
    + exists t2. rewrite lookup_insert_ne by done. by split.
Qed.

(** Inserting a new thread under a fresh id. *)
Lemma create_ok m tid cid u :
  rows_ok m -> m !! tid = None ->
  rows_ok (createNewThreadForUser tid cid u m) /\ rows_evolve m (createNewThreadForUser tid cid u m).
Proof.
  intros Hok Hfresh. unfold createNewThreadForUser, save. simpl. split.
  - apply map_Forall_insert_2; [|done]. split; [done|]. by intros ?.
  - intros k t Hk. exists t. split; [|done]. rewrite lookup_insert_ne; [done|]. congruence.
Qed.

(** ** Updating many rows *)

(** Apply the transition [f] to the rows [p] one after the other. *)
Definition update_all (f : Thread -> option Thread) (p : list Thread) (m : store) : store :=
  foldl (fun m t => match f t with Some t' => save t' m | None => m end) m p.

(** The rows of [p] are stored under their ids and [f] succeeds on each,
    keeping the id. *)
Definition updatable (f : Thread -> option Thread) (p : list Thread) (m : store) : Prop :=
  forall t, t ∈ p -> m !! thread_id t = Some t /\
    exists t', f t = Some t' /\ thread_id t' = thread_id t.

Lemma updatable_cons f t p m :
  updatable f (t :: p) m -> thread_id t ∉ thread_id <$> p ->
  exists t', f t = Some t' /\ thread_id t' = thread_id t /\ m !! thread_id t = Some t /\
    updatable f p (save t' m).
Proof.
  intros Hu Hnotin. destruct (Hu t (list_elem_of_here _ _)) as (Ht & t' & Hf & Hid).
  exists t'. split_and!; [done..|]. intros t2 Ht2.
  destruct (Hu t2 (list_elem_of_further _ _ _ Ht2)) as (Ht2r & Hf2). split; [|done].
  unfold save. rewrite Hid, lookup_insert_ne; [done|]. intros Heq. apply Hnotin.
  rewrite Heq. by apply list_elem_of_fmap_2.
Qed.

Lemma update_all_lookup f p m k :
  updatable f p m -> NoDup (thread_id <$> p) ->
  update_all f p m !! k =
    if bool_decide (k ∈ thread_id <$> p) then m !! k ≫= f else m !! k.
Proof.
  revert m. induction p as [|t p IH]; intros m Hu Hnd.
  { rewrite bool_decide_eq_false_2; [done|]. rewrite fmap_nil. set_solver. }
  rewrite fmap_cons in Hnd |- *. apply NoDup_cons in Hnd as [Hnotin Hnd].
  destruct (updatable_cons f t p m Hu Hnotin) as (t' & Hf & Hid & Ht & Hu').
  change (update_all f (t :: p) m) with
    (update_all f p (match f t with Some t' => save t' m | None => m end)).
  rewrite Hf, IH by done. unfold save. rewrite Hid.
  destruct (decide (k = thread_id t)) as [->|Hne].
  - rewrite lookup_insert_eq, Ht. simpl. rewrite Hf. do 2 case_bool_decide; set_solver.
  - rewrite lookup_insert_ne by done. repeat case_bool_decide; try done; set_solver.
Qed.

Lemma update_all_snoc f p t t' m :
  f t = Some t' -> update_all f (p ++ [t]) m = save t' (update_all f p m).
Proof. intros Hf. unfold update_all. by rewrite foldl_app; simpl; rewrite Hf. Qed.
