(* ===== verification/World.v ===== *)
(** * The world the handlers act on, and the calls they await

    [world] holds the threads table, the clock, the blocked users
    ([data/blocked.js]), the users whose direct messages fail, the message
    queue ([queue.js]) and the ordered list of external effects the program
    has produced.  Every call the modules await is one atomic step of
    [async world]: the queries of [data/threads.js], the methods of
    [data/Thread.js] (acting on the current row of the snapshot's id, which
    is how the spec's "read current state, validate, write back" reads), the
    log channel ([utils.postLog]) and [messageQueue.add] (spec 4.3: one
    operation at a time, in submission order, advancing after a failure).

    [Env] gathers what the handlers take from [config.js] and [utils.js],
    and the log renderer ([getLogUrl]).

    Three rule sets share one tactic, [walk], that follows a handler's
    binds, catches, loops and branches down to its calls: [keeps] (the call
    keeps [store_wf] when it returns), [segs] (every segment of the call is
    a transition of the rows and keeps the queue's tickets in order,
    [seg_ok]) and [terminates] (the call, run alone, finishes). *)

From stdpp Require Import sorting.
From S2P Require Import Prelude Async Thread Store.

Inductive effect :=
| ToUser (user : string) (text : string)
| SystemMessage (channel : string) (text : string)
| ChannelMessage (channel : string) (text : string)
| AuditLog (text : string)
| ChannelDeleted (channel : string)
| ConsoleLog (text : string)
| ConsoleError (e : js_error).

#[export] Instance effect_eq_dec : EqDecision effect.
Proof. solve_decision. Defined.

Record world := mkWorld {
  w_store : store;
  w_now : Z;
  w_blocked : gset string;
  w_unreachable : gset string;
  w_queue : list nat;
  w_next_ticket : nat;
  w_effects : list effect
}.

Abbreviation M := (async world).

Record Env := mkEnv {
  closeMessage : option string;
  allowUserClose : bool;
  prefix : string;
  readMultilineConfigValue : string -> string;
  humanizeDelay : Z -> string;
  delayStringRegex : string -> bool;
  convertDelayStringToMS : string -> option Z;
  logUrl : string -> string;
  getUser : string -> option User
}.

(** A command message as the handlers read it: [msg.author],
    [msg.channel.id], [msg.channel instanceof Eris.PrivateChannel],
    [utils.messageIsOnInboxServer(msg)] and [utils.isStaff(msg.member)]. *)
Record Message := mkMessage {
  msg_author : User;
  msg_channel_id : string;
  msg_is_private : bool;
  msg_on_inbox_server : bool;
  msg_member_is_staff : bool
}.

(** ** Updates of the world *)

Definition set_store (m : store) (w : world) : world :=
  {| w_store := m; w_now := w_now w; w_blocked := w_blocked w;
     w_unreachable := w_unreachable w; w_queue := w_queue w;
     w_next_ticket := w_next_ticket w; w_effects := w_effects w |}.

Definition emit (e : effect) (w : world) : world :=
  {| w_store := w_store w; w_now := w_now w; w_blocked := w_blocked w;
     w_unreachable := w_unreachable w; w_queue := w_queue w;
     w_next_ticket := w_next_ticket w; w_effects := w_effects w ++ [e] |}.

Definition set_queue (q : list nat) (next : nat) (w : world) : world :=
  {| w_store := w_store w; w_now := w_now w; w_blocked := w_blocked w;
     w_unreachable := w_unreachable w; w_queue := q;
     w_next_ticket := next; w_effects := w_effects w |}.

Definition advance_clock (ms : Z) (w : world) : world :=
  {| w_store := w_store w; w_now := w_now w + ms; w_blocked := w_blocked w;
     w_unreachable := w_unreachable w; w_queue := w_queue w;
     w_next_ticket := w_next_ticket w; w_effects := w_effects w |}.

(** The database's [moment.utc().format('YYYY-MM-DD HH:mm:ss')]: the time in
    whole seconds. *)
Definition db_time (ms : Z) : Z := ms / 1000.

(** ** Queries of [data/threads.js] *)

(** An awaited read of the threads table at the current database time. *)
Definition query {A} (f : Z -> store -> A) : M A :=
  act (fun w => w) (fun w => f (db_time (w_now w)) (w_store w)).

Abbreviation q_findOpenThreadByUserId u := (query (fun _ => findOpenThreadByUserId u)).
Abbreviation q_findOpenThreadByChannelId c := (query (fun _ => findOpenThreadByChannelId c)).
Abbreviation q_findSuspendedThreadByChannelId c :=
  (query (fun _ => findSuspendedThreadByChannelId c)).
Abbreviation q_getThreadsThatShouldBeClosed := (query getThreadsThatShouldBeClosed).
Abbreviation q_getThreadsThatShouldBeSuspended := (query getThreadsThatShouldBeSuspended).

(** The identifiers a new thread receives: a fresh row id (the table's
    uuid) and a fresh channel (the channel Discord creates). *)
Definition new_tid (m : store) : string := fresh (dom m).
Definition new_cid (m : store) : string :=
  fresh (list_to_set (channel_id <$> threads_of m) : gset string).

(** [threads.createNewThreadForUser(user, ...)]: creates the channel and
    inserts the OPEN row. *)
Definition q_createNewThreadForUser (u : User) : M Thread :=
  act (fun w => set_store (createNewThreadForUser (new_tid (w_store w)) (new_cid (w_store w)) u (w_store w)) w)
      (fun w => new_thread (new_tid (w_store w)) (new_cid (w_store w)) u).

(** [blocked.isBlocked(userId)]. *)
Definition isBlocked (u : string) : M bool :=
  act (fun w => w) (fun w => bool_decide (u ∈ w_blocked w)).

(** ** Methods of [data/Thread.js] *)

(** [thread.postToUser(text)]: rejects when the user cannot be reached. *)
Definition postToUser (t : Thread) (text : string) : M unit :=
  act_result
    (fun w => if bool_decide (user_id t ∈ w_unreachable w) then w else emit (ToUser (user_id t) text) w)
    (fun w => if bool_decide (user_id t ∈ w_unreachable w)
              then Failed (Error "Cannot send messages to this user") else Done tt).

Definition postSystemMessage (t : Thread) (text : string) : M unit :=
  act (emit (SystemMessage (channel_id t) text)) (fun _ => tt).

(** Apply a transition to the current row of [t]'s id; a failed
    precondition rejects with [msg].  The transition may read the clock
    (for a time computed with [moment.utc()] just before the call). *)
Definition thread_update_at (f : Z -> Thread -> option Thread) (msg : string) (t : Thread)
    : M unit :=
  act_result
    (fun w => match w_store w !! thread_id t ≫= f (w_now w) with
              | Some row => set_store (save row (w_store w)) w
              | None => w
              end)
    (fun w => match w_store w !! thread_id t ≫= f (w_now w) with
              | Some _ => Done tt
              | None => Failed (Error msg)
              end).

Abbreviation thread_update f msg t := (thread_update_at (fun _ => f) msg t).

(** The notice [close] posts in the thread unless suppressed. *)
Definition closing_notice (silent : bool) : string :=
  if silent then "Closing thread silently..." else "Closing thread...".

(** [thread.close(suppressSystemMessage, silent)]: the transition, the
    notice, then the teardown of the channel. *)
Definition close (t : Thread) (suppressSystemMessage silent : bool) : M unit :=
  bind (thread_update_at (fun _ => close_thread) "Thread is already closed" t) (fun _ =>
  bind (if suppressSystemMessage then Ret tt else postSystemMessage t (closing_notice silent))
    (fun _ => act (emit (ChannelDeleted (channel_id t))) (fun _ => tt))).

Abbreviation suspend t := (thread_update suspend_thread "Thread is not open" t).
Abbreviation unsuspend t := (thread_update unsuspend_thread "Thread is not suspended" t).
Abbreviation cancelScheduledClose t :=
  (thread_update cancel_scheduled_close_thread "No close is scheduled" t).
Abbreviation scheduleSuspend at_ by_ t :=
  (thread_update (schedule_suspend_thread at_ by_) "Thread is not open" t).
Abbreviation cancelScheduledSuspend t :=
  (thread_update cancel_scheduled_suspend_thread "No suspension is scheduled" t).
Abbreviation setAlert a t :=
  (thread_update (fun row => Some (set_alert_thread a row)) "Thread not found" t).

(** [utils.postSystemMessageWithFallback(channel, thread, text)]: in the
    thread if there is one, else a plain message in the channel.  Not
    awaited by its callers; one step at the point of the call. *)
Definition postSystemMessageWithFallback (channel : string) (thread : option Thread) (text : string)
    : M unit :=
  match thread with
  | Some t => postSystemMessage t text
  | None => act (emit (ChannelMessage channel text)) (fun _ => tt)
  end.

(** [msg.channel.createMessage(text)]. *)
Definition createMessage (channel text : string) : M unit :=
  act (emit (ChannelMessage channel text)) (fun _ => tt).

Definition getLogUrl (env : Env) (t : Thread) : M string :=
  act (fun w => w) (fun _ => logUrl env (thread_id t)).

(** [utils.postLog(text)]. *)
Definition postLog (text : string) : M unit := act (emit (AuditLog text)) (fun _ => tt).

Definition consoleError (e : js_error) : M unit := act (emit (ConsoleError e)) (fun _ => tt).

Definition consoleLog (text : string) : M unit := act (emit (ConsoleLog text)) (fun _ => tt).

(** [setTimeout(next, ms)]: the clock advances by [ms] before [next] runs. *)
Definition sleep (ms : Z) : M unit := act (advance_clock ms) (fun _ => tt).

(** ** The message queue (spec 4.3) *)

(** [messageQueue.add(job)]: take a ticket at the back of the queue, wait
    until it is at the front, run the job, leave the queue whether the job
    succeeded or failed, and report the job's failure to the caller only. *)
Definition queue_add (job : M unit) : M unit :=
  Step (fun _ => true)
    (fun w => set_queue (w_queue w ++ [w_next_ticket w]) (S (w_next_ticket w)) w)
    (fun w0 =>
       let ticket := w_next_ticket w0 in
       bind (await_until (fun w => bool_decide (head (w_queue w) = Some ticket))) (fun _ =>
       bind (catch (bind job (fun _ => Ret None)) (fun e => Ret (Some e))) (fun r =>
       bind (act (fun w => set_queue (tail (w_queue w)) (w_next_ticket w) w) (fun _ => tt)) (fun _ =>
       match r with None => Ret tt | Some e => Throw e end)))).

(** ** Rules for the calls *)

(** The audit lines among the effects. *)
Definition audit_logs (l : list effect) : list string :=
  omap (fun e => match e with AuditLog x => Some x | _ => None end) l.

(** The world after [postToUser] whose failure is ignored. *)
Definition deliver (t : Thread) (text : string) (w : world) : world :=
  if bool_decide (user_id t ∈ w_unreachable w) then w else emit (ToUser (user_id t) text) w.

(** The world after a successful [close] of the row [row'] written for [t]. *)
Definition closed_world (t : Thread) (suppress silent : bool) (row' : Thread) (w : world) : world :=
  let w1 := set_store (save row' (w_store w)) w in
  let w2 := if suppress then w1 else emit (SystemMessage (channel_id t) (closing_notice silent)) w1 in
  emit (ChannelDeleted (channel_id t)) w2.

Section Rules.
Implicit Types Q : outcome unit -> world -> Prop.

Lemma wp_thread_update_at Q f msg t s row row' :
  w_store s !! thread_id t = Some row -> f (w_now s) row = Some row' ->
  Q (Done tt) (set_store (save row' (w_store s)) s) -> wp Q (thread_update_at f msg t) s.
Proof.
  intros Hrow Hf HQ. apply wp_step; [done|]. simpl. rewrite Hrow. simpl. rewrite Hf.
  by constructor.
Qed.

Lemma wp_thread_update_at_fail Q f msg t s :
  (w_store s !! thread_id t ≫= f (w_now s)) = None -> Q (Failed (Error msg)) s ->
  wp Q (thread_update_at f msg t) s.
Proof. intros Hn HQ. apply wp_step; [done|]. simpl. rewrite Hn. by constructor. Qed.

Lemma wp_ignore_postToUser Q t text s :
  Q (Done tt) (deliver t text s) -> wp Q (ignore_errors (postToUser t text)) s.
Proof.
  intros HQ. unfold ignore_errors. apply wp_catch, wp_step; [done|]. unfold deliver in *.
  simpl. case_bool_decide; by repeat constructor.
Qed.

Lemma wp_close Q t suppress silent s row row' :
  w_store s !! thread_id t = Some row -> close_thread row = Some row' ->
  Q (Done tt) (closed_world t suppress silent row' s) -> wp Q (close t suppress silent) s.
Proof.
  intros Hrow Hc HQ. apply wp_bind. eapply (wp_thread_update_at _ (fun _ => close_thread)); [done..|]. simpl.
  apply wp_bind. destruct suppress; simpl; [apply wp_ret|apply wp_act]; simpl; by apply wp_act.
Qed.

Lemma wp_close_fail Q t suppress silent s :
  (w_store s !! thread_id t ≫= close_thread) = None ->
  Q (Failed (Error "Thread is already closed")) s -> wp Q (close t suppress silent) s.
Proof. intros Hn HQ. apply wp_bind. by apply (wp_thread_update_at_fail _ (fun _ => close_thread)). Qed.

End Rules.

(** A [close] of a stored row that is not CLOSED writes [close_thread row]. *)
Lemma close_thread_row_Some (m : store) t row :
  m !! thread_id t = Some row -> status row <> CLOSED -> exists row', close_thread row = Some row'.
Proof. intros _ Hst. unfold close_thread. destruct (status row); by eauto. Qed.

Lemma deliver_store t text w : w_store (deliver t text w) = w_store w.
Proof. unfold deliver. by case_bool_decide. Qed.

Lemma deliver_now t text w : w_now (deliver t text w) = w_now w.
Proof. unfold deliver. by case_bool_decide. Qed.

Lemma emit_store e w : w_store (emit e w) = w_store w.
Proof. done. Qed.

Lemma emit_unreachable e w : w_unreachable (emit e w) = w_unreachable w.
Proof. done. Qed.

Lemma closed_world_unreachable t sup sil row' w :
  w_unreachable (closed_world t sup sil row' w) = w_unreachable w.
Proof. unfold closed_world. by destruct sup. Qed.

Lemma closed_world_store t sup sil row' w :
  w_store (closed_world t sup sil row' w) = save row' (w_store w).
Proof. unfold closed_world. by destruct sup. Qed.

(** The message a [deliver] adds: none when the user cannot be reached. *)
Definition delivered (t : Thread) (text : string) (w : world) : list effect :=
  if bool_decide (user_id t ∈ w_unreachable w) then [] else [ToUser (user_id t) text].

Lemma deliver_effects t text w : w_effects (deliver t text w) = w_effects w ++ delivered t text w.
Proof. unfold deliver, delivered. case_bool_decide; [by rewrite app_nil_r|done]. Qed.

Lemma deliver_other t text w :
  w_unreachable (deliver t text w) = w_unreachable w /\ w_queue (deliver t text w) = w_queue w /\
  w_next_ticket (deliver t text w) = w_next_ticket w /\ w_blocked (deliver t text w) = w_blocked w.
Proof. unfold deliver. by case_bool_decide. Qed.

(** [messageQueue.add(job)] on an idle queue runs the job at once and leaves
    the queue as the job found it. *)
Lemma wp_queue_add_idle Q job s :
  w_queue s = [] ->
  wp (fun o s1 => Q (match o with Done _ => Done tt | Failed e => Failed e end)
                    (set_queue (tail (w_queue s1)) (w_next_ticket s1) s1))
     job (set_queue [w_next_ticket s] (S (w_next_ticket s)) s) ->
  wp Q (queue_add job) s.
Proof.
  intros Hq Hjob. unfold queue_add. apply wp_step; [done|]. cbv beta. rewrite Hq, app_nil_l.
  apply wp_bind. unfold await_until. apply wp_step; [by rewrite bool_decide_eq_true_2|].
  apply wp_ret. wp_post. apply wp_bind, wp_catch, wp_bind.
  eapply wp_mono; [|exact Hjob]. intros [] s1 HQ; wp_post.
  - apply wp_ret. wp_post. apply wp_bind, wp_act. wp_post. by apply wp_ret.
  - apply wp_ret. wp_post. apply wp_bind, wp_act. wp_post. by apply wp_throw.
Qed.

(** A loop over rows in which each iteration applies [f] to its row and
    appends the effects [E t] (which may depend on who is reachable). *)
Lemma wp_for_each_rows (f : Thread -> option Thread) (E : Thread -> list effect)
    (body : Thread -> M unit) (unreach : gset string) (now : Z) p s :
  updatable f p (w_store s) -> NoDup (thread_id <$> p) -> w_unreachable s = unreach ->
  w_now s = now ->
  (forall t t' s1, w_store s1 !! thread_id t = Some t -> f t = Some t' ->
     w_unreachable s1 = unreach -> w_now s1 = now ->
     wp (fun o s2 => o = Done tt /\ w_store s2 = save t' (w_store s1) /\
           w_effects s2 = w_effects s1 ++ E t /\ w_unreachable s2 = unreach /\
           w_now s2 = now) (body t) s1) ->
  wp (fun o s' => o = Done tt /\ w_store s' = update_all f p (w_store s) /\
        w_effects s' = w_effects s ++ List.concat (E <$> p) /\ w_unreachable s' = unreach /\
        w_now s' = now)
     (for_each p body) s.
Proof.
  revert s. induction p as [|t p IH]; intros s Hu Hnd Hun Hnow Hbody.
  { apply wp_ret. by rewrite app_nil_r. }
  rewrite fmap_cons in Hnd. apply NoDup_cons in Hnd as [Hnotin Hnd].
  destruct (updatable_cons f t p _ Hu Hnotin) as (t' & Hf & Hid & Ht & Hu').
  simpl. apply wp_bind. eapply wp_mono; [|by apply Hbody].
  intros o s2 (-> & Hs2 & He2 & Hun2 & Hn2). wp_post.
  eapply wp_mono; [|apply IH; [by rewrite Hs2|done..]].
  intros o s3 (-> & Hs3 & He3 & Hun3 & Hn3). split_and!; [done| |by rewrite He3, He2, <- app_assoc|done..].
  rewrite Hs3, Hs2. unfold update_all. simpl. by rewrite Hf.
Qed.

(** The shape of both scheduler ticks: query the due rows, run [body] on
    each, and log a failure.  When the body applies [f] to its row and
    appends [E unreach t], the tick terminates, applies [f] to exactly the
    due rows and appends their effects in order. *)
Lemma wp_tick (qf : Z -> store -> list Thread) (f : Thread -> option Thread)
    (E : gset string -> Thread -> list effect) (body : Thread -> M unit) w :
  let due := qf (db_time (w_now w)) (w_store w) in
  updatable f due (w_store w) -> NoDup (thread_id <$> due) ->
  (forall t t' s1, w_store s1 !! thread_id t = Some t -> f t = Some t' ->
     w_unreachable s1 = w_unreachable w -> w_now s1 = w_now w ->
     wp (fun o s2 => o = Done tt /\ w_store s2 = save t' (w_store s1) /\
           w_effects s2 = w_effects s1 ++ E (w_unreachable w) t /\
           w_unreachable s2 = w_unreachable w /\ w_now s2 = w_now w) (body t) s1) ->
  wp (fun o w' => o = Done tt /\
    (forall k, w_store w' !! k =
       if bool_decide (k ∈ thread_id <$> due) then w_store w !! k ≫= f else w_store w !! k) /\
    w_effects w' = w_effects w ++ List.concat (E (w_unreachable w) <$> due) /\
    w_now w' = w_now w)
    (catch (bind (query qf) (fun ts => for_each ts body)) consoleError) w.
Proof.
  intros due Hu Hnd Hbody. apply wp_catch, wp_bind, wp_act. wp_post.
  eapply wp_mono; [|by apply (wp_for_each_rows f (E (w_unreachable w)) body (w_unreachable w) (w_now w))].
  intros o s' (-> & Hs & He & _ & Hn). wp_post. split_and!; [done| |done|done].
  intros k. rewrite Hs. by apply update_all_lookup.
Qed.


#[export] Hint Rewrite emit_store deliver_store deliver_now closed_world_store emit_unreachable
  closed_world_unreachable : modmail_rw.


(** ** The table invariant across awaited calls *)

(** Every run of [p] from a world whose table is well formed that returns
    leaves a well-formed table, whatever it resolves with. *)
Definition keeps_wf {A} (p : M A) : Prop :=
  forall w, store_wf (w_store w) -> pwp (fun _ w' => store_wf (w_store w')) p w.

(** A transition that never makes a row OPEN unless it already was. *)
Definition no_reopen (f : Z -> Thread -> option Thread) : Prop :=
  forall now row row', f now row = Some row' ->
    thread_step row row' /\ (status row' = OPEN -> status row = OPEN).

Section Keeps.

Lemma keeps_wf_ret {A} (a : A) : keeps_wf (Ret a).
Proof. intros w Hw. by apply pwp_ret. Qed.

Lemma keeps_wf_throw {A} e : keeps_wf (Throw (A:=A) e).
Proof. intros w Hw. by apply pwp_throw. Qed.

Lemma keeps_wf_step {A} g u (c : world -> M A) :
  (forall w, store_wf (w_store w) -> store_wf (w_store (u w))) -> (forall w, keeps_wf (c w)) ->
  keeps_wf (Step g u c).
Proof. intros Hu Hc w Hw. apply pwp_step. intros _. by apply Hc, Hu. Qed.

Lemma keeps_wf_bind {A B} (p : M A) (f : A -> M B) :
  keeps_wf p -> (forall a, keeps_wf (f a)) -> keeps_wf (bind p f).
Proof.
  intros Hp Hf w Hw. apply pwp_bind. eapply pwp_mono; [|by apply Hp].
  intros [a|e] w' Hw'; [by apply Hf|done].
Qed.

Lemma keeps_wf_catch {A} (p : M A) h :
  keeps_wf p -> (forall e, keeps_wf (h e)) -> keeps_wf (catch p h).
Proof.
  intros Hp Hh w Hw. apply pwp_catch. eapply pwp_mono; [|by apply Hp].
  intros [a|e] w' Hw'; [done|by apply Hh].
Qed.

Lemma keeps_wf_for_each {X} (l : list X) (f : X -> M unit) :
  (forall x, keeps_wf (f x)) -> keeps_wf (for_each l f).
Proof. intros Hf. induction l; simpl; [apply keeps_wf_ret|by apply keeps_wf_bind]. Qed.

(** Calls that leave the table alone. *)
Definition same_store (u : world -> world) : Prop := forall w, w_store (u w) = w_store w.

Lemma keeps_wf_act {A} u (r : world -> A) : same_store u -> keeps_wf (act u r).
Proof. intros Hu. apply keeps_wf_step; [intros w; by rewrite Hu|]. intros. apply keeps_wf_ret. Qed.

Lemma keeps_wf_act_result {A} u (r : world -> outcome A) : same_store u -> keeps_wf (act_result u r).
Proof.
  intros Hu. apply keeps_wf_step; [intros w; by rewrite Hu|].
  intros w. destruct (r w); [apply keeps_wf_ret|apply keeps_wf_throw].
Qed.

Lemma same_store_id : same_store (fun w => w).
Proof. done. Qed.
Lemma same_store_emit e : same_store (emit e).
Proof. done. Qed.
Lemma same_store_set_queue q n : same_store (set_queue q n).
Proof. done. Qed.
Lemma same_store_advance_clock ms : same_store (advance_clock ms).
Proof. done. Qed.
Lemma same_store_deliver t text : same_store (deliver t text).
Proof. intros w. apply deliver_store. Qed.

(** Calls that leave the message queue and its ticket counter alone. *)
Definition same_queue (u : world -> world) : Prop := forall w, w_queue (u w) = w_queue w.
Definition same_ticket (u : world -> world) : Prop := forall w, w_next_ticket (u w) = w_next_ticket w.

Lemma same_queue_id : same_queue (fun w => w).
Proof. done. Qed.
Lemma same_queue_emit e : same_queue (emit e).
Proof. done. Qed.
Lemma same_queue_set_store m : same_queue (set_store m).
Proof. done. Qed.
Lemma same_queue_advance_clock ms : same_queue (advance_clock ms).
Proof. done. Qed.
Lemma same_queue_deliver t text : same_queue (deliver t text).
Proof. intros w. apply deliver_other. Qed.
Lemma same_ticket_id : same_ticket (fun w => w).
Proof. done. Qed.
Lemma same_ticket_emit e : same_ticket (emit e).
Proof. done. Qed.
Lemma same_ticket_set_store m : same_ticket (set_store m).
Proof. done. Qed.
Lemma same_ticket_advance_clock ms : same_ticket (advance_clock ms).
Proof. done. Qed.
Lemma same_ticket_deliver t text : same_ticket (deliver t text).
Proof. intros w. apply deliver_other. Qed.

Lemma keeps_wf_await_until g : keeps_wf (await_until g).
Proof. apply keeps_wf_step; [done|]. intros. apply keeps_wf_ret. Qed.

Lemma keeps_wf_ignore_errors p : keeps_wf p -> keeps_wf (ignore_errors p).
Proof. intros Hp. apply keeps_wf_catch; [done|]. intros. apply keeps_wf_ret. Qed.

Lemma keeps_wf_postToUser t text : keeps_wf (postToUser t text).
Proof. apply keeps_wf_act_result. intros w. unfold postToUser. by case_bool_decide. Qed.

Lemma keeps_wf_thread_update_at f msg t : no_reopen f -> keeps_wf (thread_update_at f msg t).
Proof.
  intros Hf. apply keeps_wf_step; [|intros w; destruct (_ ≫= _); [apply keeps_wf_ret|apply keeps_wf_throw]].
  intros w Hw. destruct (w_store w !! thread_id t) as [row|] eqn:Hrow; simpl; [|done].
  destruct (f (w_now w) row) as [row'|] eqn:Hrow'; [|done].
  destruct (Hf _ _ _ Hrow') as [Hs Hopen].
  destruct (thread_step_immutable _ _ Hs) as (Hid & _).
  assert (Hk : w_store w !! thread_id row = Some row).
  { destruct Hw as [Hk _]. by destruct (Hk _ _ Hrow) as [-> _]. }
  simpl. eapply save_step_wf; [done..|]. intros Ho Hno. by apply Hopen in Ho.
Qed.

Lemma keeps_wf_queue_add job : keeps_wf job -> keeps_wf (queue_add job).
Proof.
  intros Hjob. unfold queue_add. apply keeps_wf_step; [done|]. intros w0.
  apply keeps_wf_bind; [apply keeps_wf_await_until|intros _].
  apply keeps_wf_bind; [apply keeps_wf_catch; [by apply keeps_wf_bind; [|intros; apply keeps_wf_ret]
                                               |intros; apply keeps_wf_ret]|intros r].
  apply keeps_wf_bind; [by apply keeps_wf_act|intros _].
  destruct r; [apply keeps_wf_throw|apply keeps_wf_ret].
Qed.

End Keeps.

(** The transitions the handlers apply through [thread_update_at]. *)
Lemma no_reopen_close : no_reopen (fun _ => close_thread).
Proof. intros _ row row' H. split; [by constructor|]. unfold close_thread in H. by case_match; simplify_eq. Qed.

Lemma no_reopen_suspend : no_reopen (fun _ => suspend_thread).
Proof. intros _ row row' H. split; [by constructor|]. unfold suspend_thread in H. by case_match; simplify_eq. Qed.

Lemma no_reopen_schedule_close (g : Z -> Z) u b :
  no_reopen (fun now => schedule_close_thread (g now) u b).
Proof.
  intros now row row' H. split; [by econstructor|]. unfold schedule_close_thread in H.
  by case_match; simplify_eq.
Qed.

Lemma no_reopen_cancel_close : no_reopen (fun _ => cancel_scheduled_close_thread).
Proof.
  intros _ row row' H. split; [by constructor|]. unfold cancel_scheduled_close_thread in H.
  by repeat case_match; simplify_eq.
Qed.

Lemma no_reopen_schedule_suspend (g : Z -> Z) u : no_reopen (fun now => schedule_suspend_thread (g now) u).
Proof.
  intros now row row' H. split; [by econstructor|]. unfold schedule_suspend_thread in H.
  by repeat case_match; simplify_eq.
Qed.

Lemma no_reopen_cancel_suspend : no_reopen (fun _ => cancel_scheduled_suspend_thread).
Proof.
  intros _ row row' H. split; [by constructor|]. unfold cancel_scheduled_suspend_thread in H.
  by repeat case_match; simplify_eq.
Qed.

Lemma no_reopen_set_alert a : no_reopen (fun _ row => Some (set_alert_thread a row)).
Proof. intros _ row row' H. simplify_eq. split; [apply ts_set_alert|exact (fun H => H)]. Qed.

Lemma keeps_wf_close t sup sil : keeps_wf (close t sup sil).
Proof.
  unfold close. apply keeps_wf_bind; [apply keeps_wf_thread_update_at, no_reopen_close|intros _].
  apply keeps_wf_bind; [|intros; by apply keeps_wf_act].
  destruct sup; [apply keeps_wf_ret|by apply keeps_wf_act].
Qed.

Create HintDb keeps discriminated.
#[export] Hint Resolve keeps_wf_ret keeps_wf_throw keeps_wf_await_until keeps_wf_postToUser
  keeps_wf_close keeps_wf_thread_update_at : keeps.
#[export] Hint Resolve no_reopen_close no_reopen_suspend no_reopen_schedule_close
  no_reopen_cancel_close no_reopen_schedule_suspend no_reopen_cancel_suspend
  no_reopen_set_alert : keeps.
#[export] Hint Resolve same_store_id same_store_emit same_store_set_queue
  same_store_advance_clock same_store_deliver : keeps.
#[export] Hint Extern 2 (keeps_wf (act _ _)) => apply keeps_wf_act : keeps.

(** Split a handler into its awaited calls and branches, with the rules
    of one property for sequencing, [try]/[catch], loops and the message
    queue, and discharge each call with [leaf]. *)
Ltac walk Hbind Hcatch Hforeach Hqueue leaf :=
  repeat match goal with
  | |- _ (bind _ _) => apply Hbind; [|intros ?]
  | |- _ (catch _ _) => apply Hcatch; [|intros ?]
  | |- _ (ignore_errors _) => apply Hcatch; [|intros ?]
  | |- _ (queue_add _) => apply Hqueue
  | |- _ (for_each _ _) => apply Hforeach; intros ?
  | |- _ (if _ then _ else _) => case_match
  | |- _ (match _ with _ => _ end) => case_match
  | |- _ => solve [leaf]
  end.

Ltac keeps := walk keeps_wf_bind keeps_wf_catch keeps_wf_for_each keeps_wf_queue_add ltac:(eauto with keeps).

(** ** What every atomic step does to the table *)

(** From a table whose rows are well formed, a step keeps them well formed
    and changes rows only by transitions; no row disappears. *)
Definition world_evolves (w w' : world) : Prop :=
  rows_ok (w_store w) -> rows_ok (w_store w') /\ rows_evolve (w_store w) (w_store w').

#[export] Instance world_evolves_preorder : PreOrder world_evolves.
Proof.
  split.
  - intros w Hok. split; [done|reflexivity].
  - intros w1 w2 w3 H12 H23 Hok. destruct (H12 Hok) as [Hok2 He12].
    destruct (H23 Hok2) as [Hok3 He23]. split; [done|by etrans].
Qed.

(** The message queue (spec 4.3): the waiting tickets in strictly
    increasing order, all below the next ticket to hand out. *)
Definition queue_ok (w : world) : Prop :=
  StronglySorted lt (w_queue w) /\ Forall (fun k => k < w_next_ticket w) (w_queue w).

(** A step keeps the queue in order and never hands out a ticket twice. *)
Definition queue_evolves (w w' : world) : Prop :=
  (queue_ok w -> queue_ok w') /\ w_next_ticket w <= w_next_ticket w'.

#[export] Instance queue_evolves_preorder : PreOrder queue_evolves.
Proof.
  split.
  - intros w. by split.
  - intros w1 w2 w3 [H12 L12] [H23 L23]. split; [auto|lia].
Qed.

Lemma queue_evolves_same u w : same_queue u -> same_ticket u -> queue_evolves w (u w).
Proof. intros Hq Ht. unfold queue_evolves, queue_ok. rewrite Hq, Ht. by split. Qed.

(** [messageQueue.add] takes the next ticket at the back of the queue ... *)
Lemma queue_evolves_enter w :
  queue_evolves w (set_queue (w_queue w ++ [w_next_ticket w]) (S (w_next_ticket w)) w).
Proof.
  split; [|simpl; lia]. intros [Hs Hf]. simpl. split.
  - apply StronglySorted_app_2; [|done|repeat constructor]. intros x y Hx ->%list_elem_of_singleton.
    by eapply Forall_forall in Hf.
  - apply Forall_app. split; [|constructor; [simpl; lia|done]]. eapply Forall_impl; [done|]. simpl. lia.
Qed.

(** ... and the task at the front leaves it when its job is over. *)
Lemma queue_evolves_leave w : queue_evolves w (set_queue (tail (w_queue w)) (w_next_ticket w) w).
Proof.
  split; [|done]. intros [Hs Hf]. simpl. destruct (w_queue w) as [|k q]; simpl; [by split|].
  apply StronglySorted_inv in Hs as [Hs _]. by apply Forall_cons in Hf as [_ Hf].
Qed.

(** What a segment may do: transitions of the rows, and the queue
    discipline. *)
Definition seg_ok (u : world -> world) : Prop := forall w, world_evolves w (u w) /\ queue_evolves w (u w).

(** Segments that respect [seg_ok], whatever runs between them. *)
Abbreviation segs_ok p := (all_steps seg_ok p).

Lemma seg_ok_same u : same_store u -> same_queue u -> same_ticket u -> seg_ok u.
Proof.
  intros Hu Hq Ht w. split; [|by apply queue_evolves_same]. intros Hok. rewrite Hu. split; [done|reflexivity].
Qed.

(** A change of the table alone. *)
Lemma seg_ok_store u : (forall w, world_evolves w (u w)) -> same_queue u -> same_ticket u -> seg_ok u.
Proof. intros Hu Hq Ht w. split; [apply Hu|by apply queue_evolves_same]. Qed.

Lemma segs_ok_act {A} u (r : world -> A) : same_store u -> same_queue u -> same_ticket u -> segs_ok (act u r).
Proof. intros Hu Hq Ht. by apply all_steps_act, seg_ok_same. Qed.

Lemma segs_ok_ret {A} (a : A) : segs_ok (Ret (S:=world) a).
Proof. done. Qed.

Lemma segs_ok_throw {A} e : segs_ok (Throw (S:=world) (A:=A) e).
Proof. done. Qed.

(** A transition of the current row, from any [f] whose results are
    transitions. *)
Lemma segs_ok_thread_update_at f msg t :
  (forall now row row', f now row = Some row' -> thread_step row row') ->
  segs_ok (thread_update_at f msg t).
Proof.
  intros Hf. apply all_steps_act_result. apply seg_ok_store; [|intros w; simpl; by destruct (_ ≫= _)..].
  intros w Hok. unfold world_evolves.
  destruct (w_store w !! thread_id t) as [row|] eqn:Hrow; simpl; [|split; [done|reflexivity]].
  destruct (f (w_now w) row) as [row'|] eqn:Hrow'; [|split; [done|reflexivity]].
  by eapply save_step_ok; [| |eauto].
Qed.

Lemma segs_ok_no_reopen f msg t : no_reopen f -> segs_ok (thread_update_at f msg t).
Proof. intros Hf. apply segs_ok_thread_update_at. intros now row row' H. by apply (Hf now). Qed.

Lemma segs_ok_unsuspend t : segs_ok (unsuspend t).
Proof. apply segs_ok_thread_update_at. intros _ row row' H. by constructor. Qed.

Lemma segs_ok_postToUser t text : segs_ok (postToUser t text).
Proof. apply all_steps_act_result, seg_ok_same; intros w; unfold postToUser; by case_bool_decide. Qed.

Lemma segs_ok_create u : segs_ok (q_createNewThreadForUser u).
Proof.
  apply all_steps_act, seg_ok_store; [|done..]. intros w Hok. apply create_ok; [done|].
  apply not_elem_of_dom. unfold new_tid. apply (is_fresh (dom (w_store w))).
Qed.

Lemma segs_ok_close t sup sil : segs_ok (close t sup sil).
Proof.
  unfold close. apply all_steps_bind; [by apply segs_ok_no_reopen, no_reopen_close|intros _].
  apply all_steps_bind; [|intros; by apply segs_ok_act].
  destruct sup; [done|by apply segs_ok_act].
Qed.

Lemma segs_ok_queue_add job : segs_ok job -> segs_ok (queue_add job).
Proof.
  intros Hjob. unfold queue_add. split.
  { intros w. split; [|apply queue_evolves_enter]. intros Hok. split; [done|reflexivity]. }
  intros w0. apply all_steps_bind; [split; [by apply seg_ok_same|done]|intros _].
  apply all_steps_bind; [apply all_steps_catch; [by apply all_steps_bind|done]|intros r].
  apply all_steps_bind; [|intros _; by destruct r]. apply all_steps_act.
  intros w. split; [|apply queue_evolves_leave]. intros Hok. split; [done|reflexivity].
Qed.

Create HintDb segs discriminated.
#[export] Hint Resolve segs_ok_ret segs_ok_throw segs_ok_postToUser segs_ok_close segs_ok_create
  segs_ok_unsuspend segs_ok_no_reopen : segs.
#[export] Hint Resolve no_reopen_close no_reopen_suspend no_reopen_schedule_close
  no_reopen_cancel_close no_reopen_schedule_suspend no_reopen_cancel_suspend
  no_reopen_set_alert : segs.
#[export] Hint Resolve same_store_id same_store_emit same_store_set_queue
  same_store_advance_clock same_store_deliver : segs.
#[export] Hint Resolve same_queue_id same_queue_emit same_queue_set_store same_queue_advance_clock
  same_queue_deliver same_ticket_id same_ticket_emit same_ticket_set_store same_ticket_advance_clock
  same_ticket_deliver : segs.
#[export] Hint Extern 2 (all_steps seg_ok (act _ _)) => apply segs_ok_act : segs.

Ltac segs := walk all_steps_bind all_steps_catch all_steps_for_each segs_ok_queue_add ltac:(eauto with segs).

(** ** Termination *)

(** [p] run alone terminates from every world, leaving the message queue
    as it found it: it awaits no other task. *)
Definition terminates {A} (p : M A) : Prop :=
  forall w, wp (fun _ w' => w_queue w' = w_queue w) p w.

(** [p] run alone from a world whose message queue is idle terminates and
    leaves the queue idle. *)
Definition terminates_idle {A} (p : M A) : Prop :=
  forall w, w_queue w = [] -> wp (fun _ w' => w_queue w' = []) p w.

Section Terminates.

Lemma terminates_ret {A} (a : A) : terminates (Ret a).
Proof. intros w. by apply wp_ret. Qed.

Lemma terminates_throw {A} e : terminates (Throw (A:=A) e).
Proof. intros w. by apply wp_throw. Qed.

Lemma terminates_act {A} u (r : world -> A) : same_queue u -> terminates (act u r).
Proof. intros Hu w. by apply wp_act. Qed.

Lemma terminates_act_result {A} u (r : world -> outcome A) : same_queue u -> terminates (act_result u r).
Proof. intros Hu w. apply wp_step; [done|]. simpl. destruct (r w); constructor; apply Hu. Qed.

Lemma terminates_bind {A B} (p : M A) (f : A -> M B) :
  terminates p -> (forall a, terminates (f a)) -> terminates (bind p f).
Proof.
  intros Hp Hf w. apply wp_bind. eapply wp_mono; [|apply Hp].
  intros [a|e] w1 H1; wp_post; [|done]. eapply wp_mono; [|apply Hf]. intros ? ? ->. done.
Qed.

Lemma terminates_catch {A} (p : M A) h :
  terminates p -> (forall e, terminates (h e)) -> terminates (catch p h).
Proof.
  intros Hp Hh w. apply wp_catch. eapply wp_mono; [|apply Hp].
  intros [a|e] w1 H1; wp_post; [done|]. eapply wp_mono; [|apply Hh]. intros ? ? ->. done.
Qed.

Lemma terminates_for_each {X} (l : list X) (f : X -> M unit) :
  (forall x, terminates (f x)) -> terminates (for_each l f).
Proof. intros Hf. induction l; simpl; [apply terminates_ret|by apply terminates_bind]. Qed.

Lemma terminates_thread_update_at f msg t : terminates (thread_update_at f msg t).
Proof.
  apply terminates_act_result. intros w. simpl. by destruct (_ ≫= _).
Qed.

Lemma terminates_postToUser t text : terminates (postToUser t text).
Proof. apply terminates_act_result. intros w. unfold postToUser. by case_bool_decide. Qed.

Lemma terminates_close t sup sil : terminates (close t sup sil).
Proof.
  unfold close. apply terminates_bind; [apply terminates_thread_update_at|intros _].
  apply terminates_bind; [|intros; by apply terminates_act].
  destruct sup; [apply terminates_ret|by apply terminates_act].
Qed.

Lemma same_queue_create u :
  same_queue (fun w => set_store (createNewThreadForUser (new_tid (w_store w)) (new_cid (w_store w)) u (w_store w)) w).
Proof. done. Qed.

(** A program that awaits nothing terminates from an idle queue. *)
Lemma terminates_idle_of {A} (p : M A) : terminates p -> terminates_idle p.
Proof. intros Hp w Hq. eapply wp_mono; [|apply Hp]. intros ? ? ->. done. Qed.

Lemma terminates_idle_bind {A B} (p : M A) (f : A -> M B) :
  terminates_idle p -> (forall a, terminates_idle (f a)) -> terminates_idle (bind p f).
Proof.
  intros Hp Hf w Hq. apply wp_bind. eapply wp_mono; [|by apply Hp].
  intros [a|e] w1 H1; wp_post; [by apply Hf|done].
Qed.

Lemma terminates_idle_catch {A} (p : M A) h :
  terminates_idle p -> (forall e, terminates_idle (h e)) -> terminates_idle (catch p h).
Proof.
  intros Hp Hh w Hq. apply wp_catch. eapply wp_mono; [|by apply Hp].
  intros [a|e] w1 H1; wp_post; [done|by apply Hh].
Qed.

Lemma terminates_idle_for_each {X} (l : list X) (f : X -> M unit) :
  (forall x, terminates_idle (f x)) -> terminates_idle (for_each l f).
Proof.
  intros Hf. induction l; simpl; [apply terminates_idle_of, terminates_ret|].
  by apply terminates_idle_bind.
Qed.

(** On an idle queue [messageQueue.add] runs its job at once. *)
Lemma terminates_idle_queue_add job : terminates job -> terminates_idle (queue_add job).
Proof.
  intros Hjob w Hq. apply wp_queue_add_idle; [done|].
  eapply wp_mono; [|apply Hjob]. intros o w1 H1. simpl. by rewrite H1.
Qed.

End Terminates.

Create HintDb terminates discriminated.
#[export] Hint Resolve terminates_ret terminates_throw terminates_thread_update_at terminates_postToUser
  terminates_close : terminates.
#[export] Hint Resolve same_queue_id same_queue_emit same_queue_set_store same_queue_advance_clock
  same_queue_create : terminates.
#[export] Hint Extern 2 (terminates (act _ _)) => apply terminates_act : terminates.

Ltac terminates_tac :=
  walk terminates_bind terminates_catch terminates_for_each terminates_idle_queue_add
    ltac:(eauto with terminates).

(** Handlers: use the queue rule where the queue is used, and [terminates]
    everywhere else. *)
Ltac terminates_idle_tac :=
  walk terminates_idle_bind terminates_idle_catch terminates_idle_for_each terminates_idle_queue_add
    ltac:(apply terminates_idle_of; terminates_tac);
  terminates_tac.

(** A CLOSED row stays CLOSED through any terminating program whose
    segments are transitions of the table. *)
Lemma wp_closed_stays {A} (p : M A) w k t :
  segs_ok p -> terminates p -> rows_ok (w_store w) -> w_store w !! k = Some t -> status t = CLOSED ->
  wp (fun _ w' => exists t', w_store w' !! k = Some t' /\ status t' = CLOSED) p w.
Proof.
  intros Hp Ht Hok Hk Hc. eapply wp_mono; [|apply (wp_all_steps seg_ok world_evolves (fun _ w' => w_queue w' = w_queue w) p w); [|done|apply Ht]].
  - intros o w' [_ Hev]. destruct (Hev Hok) as [_ Hre]. destruct (Hre k t Hk) as (t' & Hk' & Hs).
    exists t'. split; [done|]. by eapply closed_terminal.
  - intros u Hu s. apply Hu.
Qed.
