(* ===== verification/Timestamp.v ===== *)
(** * The text of a scheduled time

    [close] with a delay and [suspend] with a delay store the time of the
    scheduled action as text,
    [moment.utc().add(delay, 'ms').format('YYYY-MM-DD HH:mm:ss')]
    (close.js 97-98, suspend.js 44-45), and the due queries of
    [data/threads.js] compare that text with the current time formatted the
    same way, with SQL's [<=] on text, byte by byte.  The other files keep a
    time as the integer number of seconds [db_time ms = ms / 1000].

    This file models the formatting (the proleptic Gregorian UTC calendar
    of [moment.utc()], zero-padded fields, whole seconds) with executable
    definitions: the day number is located year by year from 1970, then
    month by month, with fuel that is proved enough.  It shows that the
    integer model is faithful for every time from 1970 to the end of 9999:
    the text has the shape [YYYY-MM-DD HH:mm:ss], reads back as the same
    second, and compares byte by byte exactly as the seconds compare. *)

From Stdlib Require Import Ascii.
From S2P Require Import Prelude Store World.

Local Open Scope Z_scope.

(** ** The calendar *)

Definition is_leap (y : Z) : bool :=
  ((y mod 4 =? 0) && negb (y mod 100 =? 0)) || (y mod 400 =? 0).

Definition year_length (y : Z) : Z := if is_leap y then 366 else 365.

Definition month_length (y m : Z) : Z :=
  if m =? 2 then (if is_leap y then 29 else 28)
  else if (m =? 4) || (m =? 6) || (m =? 9) || (m =? 11) then 30 else 31.

(** Days in the [n] years from 1 January of [y]. *)
Fixpoint years_days (n : nat) (y : Z) : Z :=
  match n with O => 0 | S n' => year_length y + years_days n' (y + 1) end.

(** Days from 1 January 1970 to 1 January of [y]. *)
Definition days_before_year (y : Z) : Z := years_days (Z.to_nat (y - 1970)) 1970.

(** Days from 1 January of [y] to the first day of its month [1 + n]. *)
Fixpoint months_days (y : Z) (n : nat) : Z :=
  match n with O => 0 | S n' => months_days y n' + month_length y (1 + Z.of_nat n') end.

Definition days_before_month (y m : Z) : Z := months_days y (Z.to_nat (m - 1)).

(** Locate day [d] (from 1 January of [y]): skip whole years. *)
Fixpoint year_of (fuel : nat) (y d : Z) : Z * Z :=
  match fuel with
  | O => (y, d)
  | S f => if d <? year_length y then (y, d) else year_of f (y + 1) (d - year_length y)
  end.

(** Locate day [d] of year [y] (from the first day of month [m]): skip
    whole months. *)
Fixpoint month_of (fuel : nat) (y m d : Z) : Z * Z :=
  match fuel with
  | O => (m, d)
  | S f => if d <? month_length y m then (m, d) else month_of f y (m + 1) (d - month_length y m)
  end.

(** The fields [moment] prints. *)
Record civil := {
  c_year : Z; c_month : Z; c_day : Z; c_hour : Z; c_minute : Z; c_second : Z
}.

(** The UTC calendar fields of a number of seconds since the epoch; a year
    is at least 365 days, so [days / 365 + 1] rounds of [year_of] suffice. *)
Definition to_civil (secs : Z) : civil :=
  let days := secs / 86400 in
  let tod := secs mod 86400 in
  let '(y, doy) := year_of (Z.to_nat (days / 365) + 1) 1970 days in
  let '(m, dom) := month_of 12 y 1 doy in
  {| c_year := y; c_month := m; c_day := dom + 1;
     c_hour := tod / 3600; c_minute := tod / 60 mod 60; c_second := tod mod 60 |}.

(** The number of seconds the fields denote. *)
Definition of_civil (c : civil) : Z :=
  (days_before_year (c_year c) + (days_before_month (c_year c) (c_month c) + (c_day c - 1))) * 86400
  + (c_hour c * 60 + c_minute c) * 60 + c_second c.

(** Fields in range, with a four-digit year from 1970. *)
Definition civil_ok (c : civil) : Prop :=
  1970 <= c_year c <= 9999 /\ 1 <= c_month c <= 12 /\ 1 <= c_day c <= month_length (c_year c) (c_month c) /\
  0 <= c_hour c < 24 /\ 0 <= c_minute c < 60 /\ 0 <= c_second c < 60.

(** The first second of the year 10000 ([days_before_year 10000 * 86400]):
    the times [moment] prints with a four-digit year are the seconds below
    it. *)
Definition max_secs : Z := 253402300800.

Definition max_ms : Z := max_secs * 1000.

(** ** The text *)

Definition dash : ascii := ascii_of_nat 45.
Definition colon : ascii := ascii_of_nat 58.
Definition space : ascii := ascii_of_nat 32.

(** The character of a decimal digit. *)
Definition digit (n : Z) : ascii := ascii_of_nat (48 + Z.to_nat n).

(** Zero-padded fields: [MM], [DD], [HH], [mm], [ss] and [YYYY]. *)
Definition pad2 (n : Z) : string := String (digit (n / 10)) (String (digit (n mod 10)) EmptyString).

Definition pad4 (n : Z) : string :=
  String (digit (n / 1000)) (String (digit (n / 100 mod 10)) (pad2 (n mod 100))).

(** ['YYYY-MM-DD HH:mm:ss']. *)
Definition render (c : civil) : string :=
  String.append (pad4 (c_year c)) (String dash (
  String.append (pad2 (c_month c)) (String dash (
  String.append (pad2 (c_day c)) (String space (
  String.append (pad2 (c_hour c)) (String colon (
  String.append (pad2 (c_minute c)) (String colon (pad2 (c_second c))))))))))).

(** [moment.utc(ms).format('YYYY-MM-DD HH:mm:ss')]: whole seconds. *)
Definition format_utc (ms : Z) : string := render (to_civil (ms / 1000)).

(** [moment.utc().add(delay, 'ms').format('YYYY-MM-DD HH:mm:ss')], the
    [closeAt] that [close] with a delay schedules. *)
Definition closeAt (now delay : Z) : string := format_utc (now + delay).

(** The same text for the [suspendAt] of [suspend] with a delay. *)
Definition suspendAt (now delay : Z) : string := format_utc (now + delay).

(** Reading the text back, as a [DATETIME] column is read. *)
Definition digit_val (a : ascii) : option Z :=
  let n := Z.of_nat (nat_of_ascii a) in
  if (48 <=? n) && (n <=? 57) then Some (n - 48) else None.

Definition num2 (a b : ascii) : option Z :=
  x ← digit_val a; y ← digit_val b; Some (10 * x + y).

Definition parse_utc (s : string) : option civil :=
  match list_ascii_of_string s with
  | [y1; y2; y3; y4; a; m1; m2; b; d1; d2; c; h1; h2; d; i1; i2; e; s1; s2] =>
      if Ascii.eqb a dash && Ascii.eqb b dash && Ascii.eqb c space && Ascii.eqb d colon && Ascii.eqb e colon
      then yh ← num2 y1 y2; yl ← num2 y3 y4; mo ← num2 m1 m2; dd ← num2 d1 d2;
           hh ← num2 h1 h2; mi ← num2 i1 i2; ss ← num2 s1 s2;
           Some {| c_year := 100 * yh + yl; c_month := mo; c_day := dd;
                   c_hour := hh; c_minute := mi; c_second := ss |}
      else None
  | _ => None
  end.

(** ** Positional order *)

(** Lexicographic combination of two comparisons. *)
Definition lexico (c d : comparison) : comparison := match c with Eq => d | _ => c end.

Lemma lexico_assoc a b c : lexico (lexico a b) c = lexico a (lexico b c).
Proof. by destruct a. Qed.

Lemma lexico_eq_r c : lexico c Eq = c.
Proof. by destruct c. Qed.

(** Consecutive blocks [F k .. F k + L k - 1]: an offset in block [k]
    compares as the pair [(k, offset)].  Years and months are such blocks
    of days, and each field of a number in base [b] such a block. *)
Section Blocks.
Context (F L : Z -> Z) (k0 : Z).
Hypothesis HF : forall k, k0 <= k -> F (k + 1) = F k + L k.
Hypothesis HL : forall k, k0 <= k -> 0 <= L k.

Lemma block_mono k1 k2 : k0 <= k1 -> k1 < k2 -> F k1 + L k1 <= F k2.
Proof.
  intros H1 H12.
  assert (Hn : forall n : nat, F k1 + L k1 <= F (k1 + 1 + Z.of_nat n)).
  { induction n as [|n IH]; [rewrite Z.add_0_r, HF by lia; lia|].
    rewrite Nat2Z.inj_succ, <- Z.add_1_r, Z.add_assoc, HF by lia.
    specialize (HL (k1 + 1 + Z.of_nat n) ltac:(lia)). lia. }
  specialize (Hn (Z.to_nat (k2 - k1 - 1))). rewrite Z2Nat.id in Hn by lia.
  by replace (k1 + 1 + (k2 - k1 - 1)) with k2 in Hn by lia.
Qed.

Lemma block_compare k1 k2 x1 x2 :
  k0 <= k1 -> k0 <= k2 -> 0 <= x1 < L k1 -> 0 <= x2 < L k2 ->
  Z.compare (F k1 + x1) (F k2 + x2) = lexico (Z.compare k1 k2) (Z.compare x1 x2).
Proof.
  intros H1 H2 Hx1 Hx2. destruct (Z.compare_spec k1 k2) as [->|Hlt|Hgt]; simpl.
  - apply Z.add_compare_mono_l.
  - apply Z.compare_lt_iff. pose proof (block_mono k1 k2 H1 Hlt). lia.
  - apply Z.compare_gt_iff. pose proof (block_mono k2 k1 H2 Hgt). lia.
Qed.

End Blocks.

Lemma place_compare b k1 k2 x1 x2 :
  0 <= k1 -> 0 <= k2 -> 0 <= x1 < b -> 0 <= x2 < b ->
  Z.compare (b * k1 + x1) (b * k2 + x2) = lexico (Z.compare k1 k2) (Z.compare x1 x2).
Proof. intros. apply (block_compare (fun k => b * k) (fun _ => b) 0); intros; lia. Qed.

(** ** The calendar loops *)

Lemma year_length_bounds y : 365 <= year_length y <= 366.
Proof. unfold year_length. destruct (is_leap y); lia. Qed.

Lemma month_length_bounds y m : 28 <= month_length y m <= 31.
Proof. unfold month_length. repeat case_match; lia. Qed.

Lemma years_days_snoc n y : years_days (S n) y = years_days n y + year_length (y + Z.of_nat n).
Proof.
  revert y. induction n as [|n IH]; intros y.
  - change (years_days 1 y) with (year_length y + 0). change (years_days 0 y) with 0.
    change (Z.of_nat 0) with 0. rewrite !Z.add_0_r. lia.
  - change (years_days (S (S n)) y) with (year_length y + years_days (S n) (y + 1)). rewrite IH.
    change (years_days (S n) y) with (year_length y + years_days n (y + 1)). rewrite Nat2Z.inj_succ.
    replace (y + 1 + Z.of_nat n) with (y + Z.succ (Z.of_nat n)) by lia. lia.
Qed.

Lemma days_before_year_succ y : 1970 <= y -> days_before_year (y + 1) = days_before_year y + year_length y.
Proof.
  intros Hy. unfold days_before_year. replace (Z.to_nat (y + 1 - 1970)) with (S (Z.to_nat (y - 1970))) by lia.
  rewrite years_days_snoc. do 2 f_equal. lia.
Qed.

Lemma days_before_month_succ y m : 1 <= m -> days_before_month y (m + 1) = days_before_month y m + month_length y m.
Proof.
  intros Hm. unfold days_before_month. replace (Z.to_nat (m + 1 - 1)) with (S (Z.to_nat (m - 1))) by lia.
  simpl. do 2 f_equal. lia.
Qed.

Lemma days_before_month_13 y : days_before_month y 13 = year_length y.
Proof. unfold days_before_month, year_length, month_length. change (Z.to_nat (13 - 1)) with 12%nat. cbn -[is_leap].
  unfold month_length. cbn -[is_leap]. by destruct (is_leap y). Qed.

Lemma days_before_year_1970 : days_before_year 1970 = 0.
Proof. done. Qed.

Lemma days_before_month_1 y : days_before_month y 1 = 0.
Proof. done. Qed.

Lemma days_before_year_mono y1 y2 : 1970 <= y1 <= y2 -> days_before_year y1 <= days_before_year y2.
Proof.
  intros Hy. destruct (Z.eq_dec y1 y2) as [->|Hne]; [lia|].
  assert (HL : forall y, 1970 <= y -> 0 <= year_length y) by (intros y _; pose proof (year_length_bounds y); lia).
  pose proof (block_mono _ _ _ days_before_year_succ HL y1 y2 ltac:(lia) ltac:(lia)).
  pose proof (year_length_bounds y1). lia.
Qed.

(** [year_of] with [fuel] rounds locates every day below [365 * fuel]. *)
Lemma year_of_spec fuel y d y' d' :
  year_of fuel y d = (y', d') -> 1970 <= y -> 0 <= d < 365 * Z.of_nat fuel ->
  y <= y' /\ days_before_year y' + d' = days_before_year y + d /\ 0 <= d' < year_length y'.
Proof.
  revert y d. induction fuel as [|f IH]; intros y d Heq Hy Hd; [lia|]. simpl in Heq.
  pose proof (year_length_bounds y). destruct (Z.ltb_spec d (year_length y)).
  - simplify_eq. lia.
  - destruct (IH _ _ Heq ltac:(lia) ltac:(lia)) as (? & Hsum & ?).
    rewrite days_before_year_succ in Hsum by lia. lia.
Qed.

(** [month_of] from month [m] with [13 - m] rounds locates every day of
    the year. *)
Lemma month_of_spec y fuel m d m' d' :
  month_of fuel y m d = (m', d') -> 1 <= m <= 12 -> 0 <= d ->
  days_before_month y m + d < year_length y -> 13 <= m + Z.of_nat fuel ->
  m <= m' <= 12 /\ days_before_month y m' + d' = days_before_month y m + d /\ 0 <= d' < month_length y m'.
Proof.
  revert m d. induction fuel as [|f IH]; intros m d Heq Hm Hd Hy Hf; [lia|]. simpl in Heq.
  destruct (Z.ltb_spec d (month_length y m)).
  - simplify_eq. lia.
  - assert (m <> 12).
    { intros ->. pose proof (days_before_month_succ y 12 ltac:(lia)) as H13.
      change (12 + 1) with 13 in H13. rewrite days_before_month_13 in H13. lia. }
    destruct (IH _ _ Heq ltac:(lia) ltac:(lia) ltac:(rewrite days_before_month_succ by lia; lia) ltac:(lia))
      as (? & Hsum & ?).
    rewrite days_before_month_succ in Hsum by lia. lia.
Qed.

(** The fields of a second from 1970 to the end of 9999 are in range and
    denote that second. *)
Lemma days_before_year_10000 : days_before_year 10000 = 2932897.
Proof. vm_compute. reflexivity. Qed.

Lemma to_civil_spec s :
  0 <= s < max_secs -> civil_ok (to_civil s) /\ of_civil (to_civil s) = s.
Proof.
  intros Hs. unfold to_civil, max_secs in *.
  pose proof (Z.div_mod s 86400 ltac:(lia)) as Hsd. pose proof (Z.mod_pos_bound s 86400 ltac:(lia)).
  assert (Hdays : 0 <= s / 86400 < 2932897) by (split; [apply Z.div_pos|apply Z.div_lt_upper_bound]; lia).
  destruct (year_of _ 1970 (s / 86400)) as [y doy] eqn:Hy.
  apply year_of_spec in Hy as (Hy1 & Hysum & Hdoy);
    [|lia|pose proof (Z.div_mod (s / 86400) 365 ltac:(lia));
          pose proof (Z.mod_pos_bound (s / 86400) 365 ltac:(lia)); lia].
  rewrite days_before_year_1970 in Hysum.
  destruct (month_of 12 y 1 doy) as [m dom] eqn:Hm.
  apply month_of_spec in Hm as (Hm1 & Hmsum & Hdom); [|lia|lia|rewrite days_before_month_1; lia|done].
  rewrite days_before_month_1 in Hmsum.
  assert (y <= 9999).
  { destruct (Z.le_gt_cases y 9999) as [|Hbig]; [done|].
    pose proof (days_before_year_mono 10000 y ltac:(lia)). rewrite days_before_year_10000 in *. lia. }
  set (tod := s mod 86400) in *.
  pose proof (Z.div_mod tod 60 ltac:(lia)). pose proof (Z.mod_pos_bound tod 60 ltac:(lia)).
  pose proof (Z.div_mod (tod / 60) 60 ltac:(lia)). pose proof (Z.mod_pos_bound (tod / 60) 60 ltac:(lia)).
  assert (Hh : tod / 3600 = tod / 60 / 60) by (rewrite Z.div_div by lia; reflexivity).
  assert (0 <= tod / 3600 < 24) by (split; [apply Z.div_pos|apply Z.div_lt_upper_bound]; lia).
  unfold civil_ok, of_civil; cbn [c_year c_month c_day c_hour c_minute c_second]. rewrite Hh in *.
  split; [split_and!; lia|]. lia.
Qed.

Lemma db_time_range ms : 0 <= ms < max_ms -> 0 <= db_time ms < max_secs.
Proof. unfold db_time, max_ms, max_secs. intros. split; [apply Z.div_pos|apply Z.div_lt_upper_bound]; lia. Qed.

(** ** Byte order of the text *)

Lemma append_String a s r : String.append (String a s) r = String a (String.append s r).
Proof. done. Qed.

Lemma append_Empty r : String.append EmptyString r = r.
Proof. done. Qed.

Lemma digit_cases x : 0 <= x < 10 ->
  x = 0 \/ x = 1 \/ x = 2 \/ x = 3 \/ x = 4 \/ x = 5 \/ x = 6 \/ x = 7 \/ x = 8 \/ x = 9.
Proof. lia. Qed.

Lemma digit_code x : 0 <= x < 10 -> Z.of_N (N_of_ascii (digit x)) = 48 + x.
Proof. intros Hx%digit_cases. by repeat destruct Hx as [->|Hx]; [..|subst]. Qed.

Lemma digit_val_digit x : 0 <= x < 10 -> digit_val (digit x) = Some x.
Proof. intros Hx%digit_cases. by repeat destruct Hx as [->|Hx]; [..|subst]. Qed.

Lemma compare_digit a b r1 r2 :
  0 <= a < 10 -> 0 <= b < 10 ->
  String.compare (String (digit a) r1) (String (digit b) r2) = lexico (Z.compare a b) (String.compare r1 r2).
Proof.
  intros Ha Hb. cbn [String.compare]. unfold Ascii.compare.
  rewrite <- N2Z.inj_compare, !digit_code, Z.add_compare_mono_l by done. by destruct (Z.compare a b).
Qed.

Lemma compare_same c r1 r2 : String.compare (String c r1) (String c r2) = String.compare r1 r2.
Proof. cbn [String.compare]. unfold Ascii.compare. by rewrite N.compare_refl. Qed.

Lemma digits_place x : 0 <= x < 100 -> 0 <= x / 10 < 10 /\ 0 <= x mod 10 < 10 /\ x = 10 * (x / 10) + x mod 10.
Proof.
  intros Hx. split_and!; [apply Z.div_pos|apply Z.div_lt_upper_bound|apply Z.mod_pos_bound|
    apply Z.mod_pos_bound|apply Z.div_mod]; lia.
Qed.

Lemma compare_pad2 x y r1 r2 :
  0 <= x < 100 -> 0 <= y < 100 ->
  String.compare (String.append (pad2 x) r1) (String.append (pad2 y) r2) =
  lexico (Z.compare x y) (String.compare r1 r2).
Proof.
  intros Hx Hy. destruct (digits_place x Hx) as (Hx1 & Hx2 & Hxe). destruct (digits_place y Hy) as (Hy1 & Hy2 & Hye).
  unfold pad2. rewrite !append_String, append_Empty. rewrite !compare_digit by done.
  rewrite <- lexico_assoc, <- (place_compare 10) by lia. by rewrite <- Hxe, <- Hye.
Qed.

Lemma compare_pad4 x y r1 r2 :
  0 <= x < 10000 -> 0 <= y < 10000 ->
  String.compare (String.append (pad4 x) r1) (String.append (pad4 y) r2) =
  lexico (Z.compare x y) (String.compare r1 r2).
Proof.
  intros Hx Hy.
  assert (Hd : forall z, 0 <= z < 10000 -> 0 <= z / 100 < 100 /\ 0 <= z mod 100 < 100 /\
      z = 100 * (z / 100) + z mod 100 /\ z / 1000 = z / 100 / 10).
  { intros z Hz. split_and!; [apply Z.div_pos|apply Z.div_lt_upper_bound|apply Z.mod_pos_bound|
      apply Z.mod_pos_bound|apply Z.div_mod|rewrite Z.div_div by lia; reflexivity]; lia. }
  destruct (Hd x Hx) as (Hx1 & Hx2 & Hxe & Hxk). destruct (Hd y Hy) as (Hy1 & Hy2 & Hye & Hyk).
  destruct (digits_place _ Hx1) as (Hx3 & Hx4 & Hxe'). destruct (digits_place _ Hy1) as (Hy3 & Hy4 & Hye').
  unfold pad4. rewrite !append_String. rewrite Hxk, Hyk, !compare_digit, compare_pad2 by done.
  rewrite <- lexico_assoc, <- (place_compare 10), <- Hxe', <- Hye' by lia.
  rewrite <- lexico_assoc, <- (place_compare 100) by lia. by rewrite <- Hxe, <- Hye.
Qed.

Lemma compare_pad2_end x y : 0 <= x < 100 -> 0 <= y < 100 -> String.compare (pad2 x) (pad2 y) = Z.compare x y.
Proof.
  intros Hx Hy. pose proof (compare_pad2 x y EmptyString EmptyString Hx Hy) as H.
  rewrite lexico_eq_r in H. exact H.
Qed.

(** The comparison of the fields, most significant first. *)
Definition civil_cmp (c1 c2 : civil) : comparison :=
  lexico (Z.compare (c_year c1) (c_year c2)) (lexico (Z.compare (c_month c1) (c_month c2))
  (lexico (Z.compare (c_day c1) (c_day c2)) (lexico (Z.compare (c_hour c1) (c_hour c2))
  (lexico (Z.compare (c_minute c1) (c_minute c2)) (Z.compare (c_second c1) (c_second c2)))))).

(** Fixed-width fields at fixed places: the text compares byte by byte as
    its fields compare, most significant first. *)
Lemma compare_render c1 c2 :
  civil_ok c1 -> civil_ok c2 -> String.compare (render c1) (render c2) = civil_cmp c1 c2.
Proof.
  intros (Hy1 & Hm1 & Hd1 & Hh1 & Hi1 & Hs1) (Hy2 & Hm2 & Hd2 & Hh2 & Hi2 & Hs2).
  pose proof (month_length_bounds (c_year c1) (c_month c1)). pose proof (month_length_bounds (c_year c2) (c_month c2)).
  unfold render, civil_cmp. rewrite compare_pad4 by lia.
  repeat (rewrite compare_same || rewrite compare_pad2 by lia). by rewrite compare_pad2_end by lia.
Qed.

Lemma days_before_year_nonneg y : 1970 <= y -> 0 <= days_before_year y.
Proof. intros Hy. rewrite <- days_before_year_1970. apply days_before_year_mono. lia. Qed.

(** The day of the month, counted from the first day of the year, stays
    within the year. *)
Lemma day_of_year_bounds y m d :
  1 <= m <= 12 -> 1 <= d <= month_length y m ->
  0 <= days_before_month y m + (d - 1) < year_length y.
Proof.
  intros Hm Hd.
  assert (HL : forall k, 1 <= k -> 0 <= month_length y k) by (intros k _; pose proof (month_length_bounds y k); lia).
  assert (Hsucc : forall k, 1 <= k -> days_before_month y (k + 1) = days_before_month y k + month_length y k)
    by (intros; by apply days_before_month_succ).
  assert (H0 : 0 <= days_before_month y m).
  { destruct (Z.eq_dec m 1) as [->|]; [by rewrite days_before_month_1|].
    pose proof (block_mono _ _ _ Hsucc HL 1 m ltac:(lia) ltac:(lia)). rewrite days_before_month_1 in *.
    pose proof (month_length_bounds y 1). lia. }
  assert (H13 : days_before_month y m + month_length y m <= year_length y).
  { rewrite <- days_before_month_13. destruct (Z.eq_dec m 12) as [->|].
    - rewrite <- (Hsucc 12) by lia. done.
    - pose proof (block_mono _ _ _ Hsucc HL m 13 ltac:(lia) ltac:(lia)). done. }
  lia.
Qed.

Lemma compare_pred a b : Z.compare (a - 1) (b - 1) = Z.compare a b.
Proof. rewrite (Z.compare_sub (a - 1)), (Z.compare_sub a). f_equal. lia. Qed.

(** Days compare as (year, month, day). *)
Lemma compare_days y1 m1 d1 y2 m2 d2 :
  1 <= m1 <= 12 -> 1 <= d1 <= month_length y1 m1 -> 1 <= m2 <= 12 -> 1 <= d2 <= month_length y2 m2 ->
  lexico (Z.compare y1 y2) (Z.compare (days_before_month y1 m1 + (d1 - 1)) (days_before_month y2 m2 + (d2 - 1))) =
  lexico (Z.compare y1 y2) (lexico (Z.compare m1 m2) (Z.compare d1 d2)).
Proof.
  intros Hm1 Hd1 Hm2 Hd2. destruct (Z.compare_spec y1 y2) as [<-|_|_]; [|done..]. cbn [lexico].
  rewrite (block_compare (days_before_month y1) (month_length y1) 1), compare_pred; [done|..];
    intros; try apply days_before_month_succ; try pose proof (month_length_bounds y1 k); lia.
Qed.

(** The seconds the fields denote compare as the fields do. *)
Lemma compare_of_civil c1 c2 :
  civil_ok c1 -> civil_ok c2 -> Z.compare (of_civil c1) (of_civil c2) = civil_cmp c1 c2.
Proof.
  destruct c1 as [y1 m1 d1 h1 i1 s1], c2 as [y2 m2 d2 h2 i2 s2].
  unfold civil_ok, of_civil, civil_cmp; cbn [c_year c_month c_day c_hour c_minute c_second].
  intros (Hy1 & Hm1 & Hd1 & Hh1 & Hi1 & Hs1) (Hy2 & Hm2 & Hd2 & Hh2 & Hi2 & Hs2).
  pose proof (day_of_year_bounds y1 m1 d1 Hm1 Hd1). pose proof (day_of_year_bounds y2 m2 d2 Hm2 Hd2).
  pose proof (days_before_year_nonneg y1 ltac:(lia)). pose proof (days_before_year_nonneg y2 ltac:(lia)).
  set (D1 := days_before_year y1 + _). set (D2 := days_before_year y2 + _).
  rewrite (Z.mul_comm D1), (Z.mul_comm D2), <- !Z.add_assoc, place_compare by lia.
  rewrite (Z.mul_comm (_ + i1)), (Z.mul_comm (_ + i2)), place_compare by lia.
  rewrite (Z.mul_comm h1), (Z.mul_comm h2), place_compare by lia.
  subst D1 D2. rewrite (block_compare days_before_year year_length 1970) by
    (intros; try apply days_before_year_succ; try pose proof (year_length_bounds k); lia).
  rewrite compare_days by done. by rewrite !lexico_assoc.
Qed.

(** [format_utc] compares byte by byte as the seconds it denotes. *)
Lemma compare_format a b :
  0 <= a < max_ms -> 0 <= b < max_ms ->
  String.compare (format_utc a) (format_utc b) = Z.compare (db_time a) (db_time b).
Proof.
  intros Ha%db_time_range Hb%db_time_range.
  destruct (to_civil_spec _ Ha) as [Hoka Hva]. destruct (to_civil_spec _ Hb) as [Hokb Hvb].
  unfold format_utc. change (a / 1000) with (db_time a). change (b / 1000) with (db_time b).
  by rewrite compare_render, <- compare_of_civil, Hva, Hvb.
Qed.

(** ** Reading the text back *)

Lemma num2_pad x : 0 <= x < 100 -> num2 (digit (x / 10)) (digit (x mod 10)) = Some x.
Proof.
  intros Hx. destruct (digits_place x Hx) as (H1 & H2 & He). unfold num2.
  rewrite !digit_val_digit by done. simpl. by rewrite <- He.
Qed.

Lemma parse_render c : civil_ok c -> parse_utc (render c) = Some c.
Proof.
  destruct c as [y m d h i s]. unfold civil_ok; cbn [c_year c_month c_day c_hour c_minute c_second].
  intros (Hy & Hm & Hd & Hh & Hi & Hs). pose proof (month_length_bounds y m).
  assert (Hyd : 0 <= y / 100 < 100 /\ 0 <= y mod 100 < 100 /\ y = 100 * (y / 100) + y mod 100 /\
      y / 1000 = y / 100 / 10).
  { split_and!; [apply Z.div_pos|apply Z.div_lt_upper_bound|apply Z.mod_pos_bound|
      apply Z.mod_pos_bound|apply Z.div_mod|rewrite Z.div_div by lia; reflexivity]; lia. }
  destruct Hyd as (Hy1 & Hy2 & Hye & Hyk).
  unfold parse_utc, render; cbn [c_year c_month c_day c_hour c_minute c_second]. unfold pad4, pad2.
  rewrite !append_String, !append_Empty, Hyk.
  cbn [list_ascii_of_string]. cbv [Ascii.eqb dash colon space ascii_of_nat ascii_of_pos Bool.eqb andb].
  cbn -[num2 digit]. rewrite !num2_pad by lia. cbn. by rewrite <- Hye.
Qed.

(** The SQL [scheduled_close_at <= now] of the due queries, on the stored
    text. *)
Definition due_text (at_ : option string) (now : string) : bool :=
  match at_ with Some a => String.leb a now | None => false end.

(** ** What the stored text promises *)

(** C25: equivalence: the due queries compare the text [close] with a delay
    stores, [closeAt], with the current time formatted the same way, byte
    by byte; for every time from 1970 to the end of 9999 this is exactly
    the comparison of whole seconds [due] makes on [db_time], so the
    integer model of scheduled times is faithful to the stored text. *)
Theorem closeAt_due_text now0 delay now1 :
  0 <= now0 + delay < max_ms -> 0 <= now1 < max_ms ->
  due_text (Some (closeAt now0 delay)) (format_utc now1) = due (Some (db_time (now0 + delay))) (db_time now1).
Proof. intros H0 H1. unfold due_text, String.leb, closeAt, due. by rewrite compare_format. Qed.

(** C26: roundtrip: the text [suspend] with a delay stores, [suspendAt],
    reads back as the second it was computed from. *)
Theorem suspendAt_roundtrip now delay :
  0 <= now + delay < max_ms ->
  option_map of_civil (parse_utc (suspendAt now delay)) = Some (db_time (now + delay)).
Proof.
  intros H. destruct (to_civil_spec _ (db_time_range _ H)) as [Hok Hv].
  unfold suspendAt, format_utc. change ((now + delay) / 1000) with (db_time (now + delay)).
  rewrite parse_render by exact Hok. cbn [option_map]. by rewrite Hv.
Qed.

(** C27: type: the text [close] with a delay stores is a [DATETIME] literal:
    nineteen characters that read as a date and a time with every field in
    range. *)
Theorem closeAt_shape now delay :
  0 <= now + delay < max_ms ->
  String.length (closeAt now delay) = 19%nat /\ exists c, parse_utc (closeAt now delay) = Some c /\ civil_ok c.
Proof.
  intros H. destruct (to_civil_spec _ (db_time_range _ H)) as [Hok _]. unfold closeAt, format_utc.
  split; [done|]. eexists. split; [by apply parse_render|exact Hok].
Qed.

(** C25 at 14 November 2023 22:13:20 UTC, with a delay of one hour, polled
    exactly one hour later. *)
Lemma closeAt_due_text_witness :
  0 <= 1700000000000 + 3600000 < max_ms /\ 0 <= 1700003600000 < max_ms /\
  due_text (Some (closeAt 1700000000000 3600000)) (format_utc 1700003600000) =
  due (Some (db_time (1700000000000 + 3600000))) (db_time 1700003600000).
Proof.
  assert (H0 : 0 <= 1700000000000 + 3600000 < max_ms) by (unfold max_ms, max_secs; lia).
  assert (H1 : 0 <= 1700003600000 < max_ms) by (unfold max_ms, max_secs; lia).
  split; [exact H0|split; [exact H1|exact (closeAt_due_text _ _ _ H0 H1)]].
Defined.

(** C26 at the same time. *)
Lemma suspendAt_roundtrip_witness :
  0 <= 1700000000000 + 3600000 < max_ms /\
  option_map of_civil (parse_utc (suspendAt 1700000000000 3600000)) = Some (db_time (1700000000000 + 3600000)).
Proof.
  assert (H : 0 <= 1700000000000 + 3600000 < max_ms) by (unfold max_ms, max_secs; lia).
  split; [exact H|exact (suspendAt_roundtrip _ _ H)].
Defined.

(** C27 at the last second [moment] prints with a four-digit year. *)
Lemma closeAt_shape_witness :
  0 <= 253402300799000 + 0 < max_ms /\
  String.length (closeAt 253402300799000 0) = 19%nat /\
  exists c, parse_utc (closeAt 253402300799000 0) = Some c /\ civil_ok c.
Proof.
  assert (H : 0 <= 253402300799000 + 0 < max_ms) by (unfold max_ms, max_secs; lia).
  split; [exact H|exact (closeAt_shape _ _ H)].
Defined.
