(* ===== verification/Fixtures.v ===== *)
(** * Concrete configurations and worlds

    A configuration and a few small worlds on which the witnesses of the
    theorems evaluate the handlers: an OPEN thread of user [u1] whose close
    is due, a staff member, and a user whose direct messages fail. *)

From S2P Require Import Prelude Async Thread Store World.

Local Open Scope string_scope.

Definition ana : User := {| uid := "u1"; username := "Ana"; discriminator := "0001" |}.
Definition sam : User := {| uid := "s1"; username := "Sam"; discriminator := "0002" |}.
Definition cleo : User := {| uid := "u3"; username := "Cleo"; discriminator := "0003" |}.

Definition env0 : Env := {|
  closeMessage := Some "Gracias por contactarnos";
  allowUserClose := true;
  prefix := "!";
  readMultilineConfigValue := fun s => s;
  humanizeDelay := fun _ => "1 hora";
  delayStringRegex := fun s => String.prefix "1" s;
  convertDelayStringToMS := fun s => if String.eqb s "1h" then Some 3600000%Z else None;
  logUrl := fun i => "https://logs.example/" ++ i;
  getUser := fun i => if String.eqb i "u1" then Some ana
                      else if String.eqb i "u3" then Some cleo else None
|}.


(** An OPEN thread of [ana] in channel [c1] whose close was scheduled for
    second 100 by [mod]. *)
Definition threadA : Thread := {|
  thread_id := "a"; status := OPEN; user_id := "u1"; user_name := "Ana"; channel_id := "c1";
  scheduled_close_at := Some 100%Z; scheduled_close_id := Some "m1";
  scheduled_close_name := Some "mod"; scheduled_close_silent := false;
  scheduled_suspend_at := None; scheduled_suspend_id := None; scheduled_suspend_name := None;
  alert_id := None |}.

(** A SUSPENDED thread of [ana] in channel [c0]. *)
Definition threadS : Thread := {|
  thread_id := "s"; status := SUSPENDED; user_id := "u1"; user_name := "Ana"; channel_id := "c0";
  scheduled_close_at := None; scheduled_close_id := None;
  scheduled_close_name := None; scheduled_close_silent := false;
  scheduled_suspend_at := None; scheduled_suspend_id := None; scheduled_suspend_name := None;
  alert_id := None |}.

(** An OPEN thread of user [u2] in channel [c2] whose suspension was
    scheduled for second 150. *)
Definition threadB : Thread := {|
  thread_id := "b"; status := OPEN; user_id := "u2"; user_name := "Bea"; channel_id := "c2";
  scheduled_close_at := None; scheduled_close_id := None;
  scheduled_close_name := None; scheduled_close_silent := false;
  scheduled_suspend_at := Some 150%Z; scheduled_suspend_id := Some "m1";
  scheduled_suspend_name := Some "mod"; alert_id := None |}.

Definition world_of (m : store) (now : Z) : world := {|
  w_store := m; w_now := now; w_blocked := ∅; w_unreachable := ∅;
  w_queue := []; w_next_ticket := 0; w_effects := [] |}.

(** At 200 seconds: [threadA] is due, [threadS] is suspended. *)
Definition w0 : world := world_of (<["a" := threadA]> (<["s" := threadS]> ∅)) 200000.

(** At 200 seconds: [threadB]'s suspension is due. *)
Definition w_susp : world := world_of (<["b" := threadB]> ∅) 200000.

(** Only the SUSPENDED [threadS]. *)
Definition w1 : world := world_of (<["s" := threadS]> ∅) 0.

(** A staff message in channel [c]. *)
Definition staff_msg_in (c : string) : Message := {|
  msg_author := sam; msg_channel_id := c; msg_is_private := false;
  msg_on_inbox_server := true; msg_member_is_staff := true |}.

(** A staff message in [c1], and [ana]'s direct message. *)
Definition staff_msg : Message := {|
  msg_author := sam; msg_channel_id := "c1"; msg_is_private := false;
  msg_on_inbox_server := true; msg_member_is_staff := true |}.

Definition user_msg : Message := {|
  msg_author := ana; msg_channel_id := "dm-u1"; msg_is_private := true;
  msg_on_inbox_server := false; msg_member_is_staff := false |}.

(** A CLOSED thread of [ana] in the deleted channel [c9]. *)
Definition threadC : Thread := {|
  thread_id := "c"; status := CLOSED; user_id := "u1"; user_name := "Ana"; channel_id := "c9";
  scheduled_close_at := None; scheduled_close_id := None;
  scheduled_close_name := None; scheduled_close_silent := false;
  scheduled_suspend_at := None; scheduled_suspend_id := None; scheduled_suspend_name := None;
  alert_id := None |}.

(** An OPEN thread of user [u4] in channel [c4] whose close was scheduled
    for second 150. *)
Definition threadD : Thread := {|
  thread_id := "d"; status := OPEN; user_id := "u4"; user_name := "Dani"; channel_id := "c4";
  scheduled_close_at := Some 150%Z; scheduled_close_id := Some "m2";
  scheduled_close_name := Some "mod"; scheduled_close_silent := false;
  scheduled_suspend_at := None; scheduled_suspend_id := None; scheduled_suspend_name := None;
  alert_id := None |}.

(** At 200 seconds: the closes of [threadA] and [threadD] are both due. *)
Definition w_two : world := world_of (<["a" := threadA]> (<["d" := threadD]> ∅)) 200000.

(** At 200 seconds: [threadA] is OPEN and due, [threadC] is CLOSED. *)
Definition w_closed : world := world_of (<["a" := threadA]> (<["c" := threadC]> ∅)) 200000.

(** An OPEN thread of user [u5] in channel [c5] whose close and suspension
    were both scheduled for second 100. *)
Definition threadX : Thread := {|
  thread_id := "x"; status := OPEN; user_id := "u5"; user_name := "Eva"; channel_id := "c5";
  scheduled_close_at := Some 100%Z; scheduled_close_id := Some "m1";
  scheduled_close_name := Some "mod"; scheduled_close_silent := false;
  scheduled_suspend_at := Some 100%Z; scheduled_suspend_id := Some "m1";
  scheduled_suspend_name := Some "mod"; alert_id := None |}.

(** At 200 seconds: [threadX] is due for both loops. *)
Definition w_race : world := world_of (<["x" := threadX]> ∅) 200000.
