(* ===== verification/Suspend.v ===== *)
(** * [modules/suspend.js]

    The scheduled-suspend loop ([applyScheduledSuspensions],
    [scheduledSuspendLoop]) and the commands [suspend cancel], [suspend
    [delay]] and [unsuspend].  The command framework ([commands.js], not
    under src/) resolves the thread of the channel before calling a handler:
    [addInboxThreadCommand] handlers receive the OPEN thread of the channel,
    [addInboxServerCommand] handlers receive it or nothing, so the handlers
    here take that argument.  [args.delay] is the parsed delay in
    milliseconds, if any. *)

From S2P Require Import Prelude Async Thread Store World Fixtures.

Section Suspend.
Context (env : Env).

(** ** The scheduled-suspend loop *)

Definition scheduledSuspendMessage (t : Thread) : string :=
  "**Hilo suspendido** según lo previsto por " ++ js_str_opt (scheduled_suspend_name t)
  ++ ". Este hilo actuará como cerrado hasta que no se desuspenda con `" ++ prefix env
  ++ "unsuspend`".

(** The body of the loop of [applyScheduledSuspensions]: the status test is
    on the snapshot the query returned. *)
Definition applyScheduledSuspension (t : Thread) : M unit :=
  if is_open t
  then bind (suspend t) (fun _ => postSystemMessage t (scheduledSuspendMessage t))
  else Ret tt.

Definition applyScheduledSuspensions : M unit :=
  bind q_getThreadsThatShouldBeSuspended (fun threadsToBeSuspended =>
  for_each threadsToBeSuspended applyScheduledSuspension).

Definition scheduledSuspendTick : M unit :=
  catch applyScheduledSuspensions (fun e => consoleError e).

Fixpoint scheduledSuspendLoop (n : nat) : M unit :=
  match n with
  | O => Ret tt
  | S n' => bind scheduledSuspendTick (fun _ => bind (sleep 2000) (fun _ => scheduledSuspendLoop n'))
  end.

(** ** Commands *)

(** [suspend cancel] in a thread. *)
Definition suspendCancel (thread : Thread) : M unit :=
  if is_set (scheduled_suspend_at thread)
  then bind (cancelScheduledSuspend thread) (fun _ => postSystemMessage thread "Suspensión cancelada")
  else postSystemMessage thread "El hilo no está previsto para ser suspendido".

Definition suspendScheduledResponse (delay : Z) : string :=
  "El hilo será suspendido en " ++ humanizeDelay env delay ++ ". Usa `" ++ prefix env
  ++ "suspend cancel` para cancelar.".

Definition suspendedResponse : string :=
  "**Hilo suspendido!** Este hilo actuará como cerrado hasta que no se desuspenda con `"
  ++ prefix env ++ "unsuspend`".

(** [suspend [delay]] in a thread: [if (args.delay)] is false for a missing
    or zero delay. *)
Definition suspendCommand (msg : Message) (delay : option Z) (thread : Thread) : M unit :=
  match delay with
  | Some d =>
      if Z.eqb d 0
      then bind (suspend thread) (fun _ => postSystemMessage thread suspendedResponse)
      else bind (thread_update_at
                   (fun now => schedule_suspend_thread (db_time (now + d)) (msg_author msg))
                   "Thread is not open" thread) (fun _ =>
           postSystemMessage thread (suspendScheduledResponse d))
  | None => bind (suspend thread) (fun _ => postSystemMessage thread suspendedResponse)
  end.

(** [thread.postSystemMessage(...)] on [null]. *)
Definition null_postSystemMessage : js_error :=
  TypeError "Cannot read property 'postSystemMessage' of null".

(** [unsuspend] anywhere on the inbox server; [thread] is the OPEN thread of
    the channel, if any. *)
Definition unsuspendCommand (msg : Message) (thread : option Thread) : M unit :=
  match thread with
  | Some t => postSystemMessage t "El hilo no está suspendido!"
  | None =>
      bind (q_findSuspendedThreadByChannelId (msg_channel_id msg)) (fun othread =>
      match othread with
      | None => Throw null_postSystemMessage
      | Some t =>
          bind (q_findOpenThreadByUserId (user_id t)) (fun otherOpenThread =>
          match otherOpenThread with
          | Some other =>
              postSystemMessage t ("No se puede desuspender; hay otro hilo abierto con este usuario: <#"
                                   ++ channel_id other ++ ">")
          | None => bind (unsuspend t) (fun _ => postSystemMessage t "**Hilo desuspendido!**")
          end)
      end)
  end.

(** ** The scheduled-suspend tick *)

Definition scheduledSuspendEffects (t : Thread) : list effect :=
  [SystemMessage (channel_id t) (scheduledSuspendMessage t)].

Lemma due_suspend_rows m now :
  store_wf m ->
  updatable suspend_thread (getThreadsThatShouldBeSuspended now m) m /\
  NoDup (thread_id <$> getThreadsThatShouldBeSuspended now m).
Proof.
  intros Hwf. split.
  - intros t Ht. apply elem_of_getThreadsThatShouldBeSuspended in Ht as ([k Hk] & Ho & _).
    split; [apply store_wf_row; [done|]; apply elem_of_threads_of; eauto|].
    exists (with_status SUSPENDED (clear_schedules t)). unfold suspend_thread. by rewrite Ho.
  - apply NoDup_fmap_filter, threads_of_NoDup_ids, Hwf.
Qed.

(** The tick as a total-correctness triple. *)
Lemma wp_scheduledSuspendTick w :
  store_wf (w_store w) ->
  let due := getThreadsThatShouldBeSuspended (db_time (w_now w)) (w_store w) in
  wp (fun o w' => o = Done tt /\
    (forall k, w_store w' !! k =
       if bool_decide (k ∈ thread_id <$> due) then w_store w !! k ≫= suspend_thread
       else w_store w !! k) /\
    w_effects w' = w_effects w ++ List.concat (scheduledSuspendEffects <$> due) /\
    w_now w' = w_now w) scheduledSuspendTick w.
Proof.
  intros Hwf. destruct (due_suspend_rows (w_store w) (db_time (w_now w)) Hwf) as [Hu Hnd].
  apply (wp_tick _ _ (fun _ => scheduledSuspendEffects)); [done..|].
  intros t t' s1 Ht Hs Hun Hn. unfold applyScheduledSuspension.
  assert (Ho : is_open t = true).
  { unfold suspend_thread in Hs. unfold is_open. case_bool_decide; [done|]. by case_match. }
  rewrite Ho. apply wp_bind. eapply (wp_thread_update_at _ (fun _ => suspend_thread)); [done..|].
  wp_post. by apply wp_act.
Qed.

(** C3: one iteration of the scheduled-suspend loop terminates; every
    thread the due query returns (OPEN, with [scheduled_suspend_at] not
    after the current database time) is suspended with both scheduled
    actions cleared, every other row is unchanged, and one system message
    naming the scheduler is posted in each suspended thread, in the order
    of the query. *)
Theorem scheduledSuspendTick_spec w :
  store_wf (w_store w) ->
  let due := getThreadsThatShouldBeSuspended (db_time (w_now w)) (w_store w) in
  exists n w', run n scheduledSuspendTick w = Some (Done tt, w') /\
    (forall k, w_store w' !! k =
       if bool_decide (k ∈ thread_id <$> due) then w_store w !! k ≫= suspend_thread
       else w_store w !! k) /\
    w_effects w' = w_effects w ++ List.concat (scheduledSuspendEffects <$> due).
Proof.
  intros Hwf. destruct (wp_adequate _ _ _ (wp_scheduledSuspendTick w Hwf)) as (n & o & w' & Hr & -> & ? & ? & _).
  by exists n, w'.
Qed.

(** The run of [suspend <delay>] with a non-zero delay on an OPEN thread. *)
Lemma wp_suspendCommand_scheduled Q w msg d t :
  w_store w !! thread_id t = Some t -> status t = OPEN -> d <> 0%Z ->
  Q (Done tt) (emit (SystemMessage (channel_id t) (suspendScheduledResponse d))
      (set_store (save (with_suspend (Some (db_time (w_now w + d))) (Some (uid (msg_author msg)))
                          (Some (username (msg_author msg))) t) (w_store w)) w)) ->
  wp Q (suspendCommand msg (Some d) t) w.
Proof.
  intros Hrow Ho Hd HQ. unfold suspendCommand. rewrite (proj2 (Z.eqb_neq _ _) Hd). apply wp_bind.
  eapply (wp_thread_update_at _ _ _ _ _ t); [done|unfold schedule_suspend_thread; by rewrite Ho|].
  wp_post. by apply wp_act.
Qed.

(** The world after [suspend] without a delay on the OPEN row [t]: the row
    SUSPENDED with its schedules cleared, then the notice. *)
Definition suspended_world (t : Thread) (w : world) : world :=
  emit (SystemMessage (channel_id t) suspendedResponse)
    (set_store (save (with_status SUSPENDED (clear_schedules t)) (w_store w)) w).

(** C32: the contract of [suspend [delay]] on every branch: on an OPEN
    thread a missing or zero delay suspends it at once (schedules cleared)
    and posts the notice; a non-zero delay only records the suspension at
    the database time of [now + delay] by the author and announces it; on
    a thread that is not OPEN both paths reject with "Thread is not open"
    and change nothing, the notice never posted. *)
Theorem suspendCommand_spec w msg delay t :
  w_store w !! thread_id t = Some t ->
  wp (fun o w' =>
        match status t with
        | OPEN =>
            o = Done tt /\
            w' = match delay with
                 | Some d =>
                     if Z.eqb d 0 then suspended_world t w
                     else emit (SystemMessage (channel_id t) (suspendScheduledResponse d))
                            (set_store (save (with_suspend (Some (db_time (w_now w + d)))
                               (Some (uid (msg_author msg))) (Some (username (msg_author msg))) t)
                               (w_store w)) w)
                 | None => suspended_world t w
                 end
        | _ => o = Failed (Error "Thread is not open") /\ w' = w
        end) (suspendCommand msg delay t) w.
Proof.
  intros Hrow. destruct (status t) eqn:Hs.
  2: destruct delay as [d|]; [destruct (decide (d = 0%Z)) as [->|Hd]|].
  3: rewrite (proj2 (Z.eqb_neq _ _) Hd); by apply wp_suspendCommand_scheduled.
  2,3: unfold suspendCommand; apply wp_bind;
    (eapply wp_thread_update_at; [done|unfold suspend_thread; by rewrite Hs|]); wp_post; by apply wp_act.
  all: unfold suspendCommand; destruct delay as [d|]; [destruct (Z.eqb d 0)|];
    (apply wp_bind, wp_thread_update_at_fail;
      [rewrite Hrow; cbn; unfold suspend_thread, schedule_suspend_thread; by rewrite Hs|wp_post; done]).
Qed.

(** ** [unsuspend] *)

Definition otherOpenMessage (other : Thread) : string :=
  "No se puede desuspender; hay otro hilo abierto con este usuario: <#" ++ channel_id other ++ ">".

(** C4: [unsuspend] in the channel of a SUSPENDED thread [c] whose user
    already has an OPEN thread [d] is rejected: the only effect is a system
    message in [c] naming [d]'s channel, and the table is unchanged ([c]
    stays SUSPENDED, [d] untouched). *)
Theorem unsuspend_rejected_other_open w msg c d :
  findSuspendedThreadByChannelId (msg_channel_id msg) (w_store w) = Some c ->
  findOpenThreadByUserId (user_id c) (w_store w) = Some d ->
  run 3 (unsuspendCommand msg None) w =
    Some (Done tt, emit (SystemMessage (channel_id c) (otherOpenMessage d)) w).
Proof. intros Hs Ho. cbn. rewrite Hs. cbn. by rewrite Ho. Qed.

(** C5: [unsuspend] in the channel of a SUSPENDED thread whose user has no
    OPEN thread reopens it, keeps "one OPEN thread per user", and posts the
    confirmation. *)
Theorem unsuspend_reopens w msg c :
  store_wf (w_store w) ->
  findSuspendedThreadByChannelId (msg_channel_id msg) (w_store w) = Some c ->
  findOpenThreadByUserId (user_id c) (w_store w) = None ->
  exists w', run 4 (unsuspendCommand msg None) w = Some (Done tt, w') /\
    w_store w' = save (with_status OPEN c) (w_store w) /\ store_wf (w_store w') /\
    w_effects w' = w_effects w ++ [SystemMessage (channel_id c) "**Hilo desuspendido!**"].
Proof.
  intros Hwf Hs Ho.
  destruct (findSuspendedThreadByChannelId_Some _ _ _ Hwf Hs) as (Hrow & Hst & _).
  assert (Hu : unsuspend_thread c = Some (with_status OPEN c)) by (unfold unsuspend_thread; by rewrite Hst).
  eexists. split; [cbn; rewrite Hs; cbn; rewrite Ho; cbn; rewrite Hrow; cbn; rewrite Hu; done|].
  split_and!; [done| |done]. simpl. by eapply unsuspend_save_wf.
Qed.

(** C7: [unsuspend] in a channel that has neither an OPEN nor a SUSPENDED
    thread rejects with a [TypeError] (the handler calls
    [thread.postSystemMessage] on [null]) and changes nothing: the intended
    reply is never posted. *)
Theorem unsuspend_outside_thread_rejects w msg :
  findSuspendedThreadByChannelId (msg_channel_id msg) (w_store w) = None ->
  run 1 (unsuspendCommand msg None) w = Some (Failed null_postSystemMessage, w).
Proof. intros Hs. cbn. by rewrite Hs. Qed.

(** ** The table invariant *)

Lemma keeps_wf_scheduledSuspendTick : keeps_wf scheduledSuspendTick.
Proof. unfold scheduledSuspendTick, applyScheduledSuspensions, applyScheduledSuspension,
    postSystemMessage, consoleError, query. keeps. Qed.

Lemma keeps_wf_scheduledSuspendLoop k : keeps_wf (scheduledSuspendLoop k).
Proof.
  induction k as [|k IH]; [apply keeps_wf_ret|].
  change (scheduledSuspendLoop (S k))
    with (bind scheduledSuspendTick (fun _ => bind (sleep 2000) (fun _ => scheduledSuspendLoop k))).
  pose proof keeps_wf_scheduledSuspendTick. unfold sleep. keeps.
Qed.

Lemma keeps_wf_suspendCancel t : keeps_wf (suspendCancel t).
Proof. unfold suspendCancel, postSystemMessage. keeps. Qed.

Lemma keeps_wf_suspendCommand msg delay t : keeps_wf (suspendCommand msg delay t).
Proof. unfold suspendCommand, postSystemMessage. keeps. Qed.

(** [unsuspend] reopens a row only after finding no OPEN thread of its
    user, and nothing runs between that query and the write. *)
Lemma keeps_wf_unsuspendCommand msg th : keeps_wf (unsuspendCommand msg th).
Proof.
  unfold unsuspendCommand. destruct th as [t|]; [unfold postSystemMessage; keeps|].
  intros w Hw. apply pwp_bind, pwp_act. cbv beta iota.
  destruct (findSuspendedThreadByChannelId _ _) as [t|] eqn:Hs; [|by apply pwp_throw].
  destruct (findSuspendedThreadByChannelId_Some _ _ _ Hw Hs) as (Ht & Hst & _).
  apply pwp_bind, pwp_act. cbv beta iota.
  destruct (findOpenThreadByUserId _ _) as [other|] eqn:Ho; [by apply pwp_act|].
  assert (Hu : unsuspend_thread t = Some (with_status OPEN t)).
  { unfold unsuspend_thread. by rewrite Hst. }
  apply pwp_bind, pwp_step. intros _. simpl. rewrite Ht. simpl. rewrite Hu.
  apply pwp_ret, pwp_act. simpl. by eapply unsuspend_save_wf.
Qed.

(** ** Every segment is a transition *)

Lemma segs_ok_scheduledSuspendTick : segs_ok scheduledSuspendTick.
Proof.
  unfold scheduledSuspendTick, applyScheduledSuspensions, applyScheduledSuspension,
    postSystemMessage, consoleError, query. segs.
Qed.

Lemma segs_ok_suspendCancel t : segs_ok (suspendCancel t).
Proof. unfold suspendCancel, postSystemMessage. segs. Qed.

Lemma segs_ok_suspendCommand msg delay t : segs_ok (suspendCommand msg delay t).
Proof. unfold suspendCommand, postSystemMessage. segs. Qed.

Lemma segs_ok_unsuspendCommand msg th : segs_ok (unsuspendCommand msg th).
Proof. unfold unsuspendCommand, postSystemMessage, query. segs. Qed.

(** ** Termination *)

Lemma terminates_scheduledSuspendTick : terminates scheduledSuspendTick.
Proof.
  unfold scheduledSuspendTick, applyScheduledSuspensions, applyScheduledSuspension,
    postSystemMessage, consoleError, query. terminates_tac.
Qed.

Lemma terminates_suspendCancel t : terminates (suspendCancel t).
Proof. unfold suspendCancel, postSystemMessage. terminates_tac. Qed.

Lemma terminates_suspendCommand msg delay t : terminates (suspendCommand msg delay t).
Proof. unfold suspendCommand, postSystemMessage. terminates_tac. Qed.

Lemma terminates_unsuspendCommand msg th : terminates (unsuspendCommand msg th).
Proof. unfold unsuspendCommand, postSystemMessage, query. terminates_tac. Qed.

(** ** Liveness of the scheduled-suspend loop *)

Lemma scheduledSuspendLoop_S k :
  scheduledSuspendLoop (S k) =
  bind scheduledSuspendTick (fun _ => bind (sleep 2000) (fun _ => scheduledSuspendLoop k)).
Proof. done. Qed.

(** A row stored under its id is among the rows due for suspension exactly
    when it is OPEN with its suspension due. *)
Lemma due_suspend_ids m now t :
  store_wf m -> m !! thread_id t = Some t ->
  thread_id t ∈ thread_id <$> getThreadsThatShouldBeSuspended now m <->
  status t = OPEN /\ due (scheduled_suspend_at t) now = true.
Proof.
  intros Hwf Ht. unfold getThreadsThatShouldBeSuspended. rewrite filter_ids_row by done.
  unfold is_open. by rewrite andb_true_iff, bool_decide_eq_true.
Qed.

(** The loop body run from a consistent table, with the table still
    consistent afterwards. *)
Lemma wp_scheduledSuspendTick_wf w :
  store_wf (w_store w) ->
  let due := getThreadsThatShouldBeSuspended (db_time (w_now w)) (w_store w) in
  wp (fun o w' => (o = Done tt /\
    (forall k, w_store w' !! k =
       if bool_decide (k ∈ thread_id <$> due) then w_store w !! k ≫= suspend_thread
       else w_store w !! k) /\
    w_effects w' = w_effects w ++ List.concat (scheduledSuspendEffects <$> due) /\
    w_now w' = w_now w) /\ store_wf (w_store w')) scheduledSuspendTick w.
Proof. intros Hwf. apply wp_pwp_conj; [by apply wp_scheduledSuspendTick|by apply keeps_wf_scheduledSuspendTick]. Qed.

(** The loop never touches a row that is not OPEN. *)
Lemma wp_scheduledSuspendLoop_keeps n w t :
  store_wf (w_store w) -> w_store w !! thread_id t = Some t -> status t <> OPEN ->
  wp (fun _ w' => w_store w' !! thread_id t = Some t) (scheduledSuspendLoop n) w.
Proof.
  revert w. induction n as [|n IH]; intros w Hwf Ht Hn; [by constructor|].
  rewrite scheduledSuspendLoop_S. apply wp_bind.
  eapply wp_mono; [|by apply wp_scheduledSuspendTick_wf]. intros o w1 [(-> & Hs1 & _) Hwf1].
  wp_post. apply wp_bind, wp_act. wp_post. apply IH; [apply Hwf1| |done].
  simpl. rewrite Hs1, bool_decide_eq_false_2; [done|]. rewrite due_suspend_ids by done. tauto.
Qed.

(** The loop, from a world where [t] is OPEN with a suspension scheduled no
    later than [k] periods ahead, leaves [t] SUSPENDED. *)
Lemma wp_scheduledSuspendLoop_suspends (k : nat) w t (at_ : Z) :
  store_wf (w_store w) -> w_store w !! thread_id t = Some t -> status t = OPEN ->
  scheduled_suspend_at t = Some at_ -> (at_ <= db_time (w_now w + 2000 * Z.of_nat k))%Z ->
  wp (fun _ w' => exists t', w_store w' !! thread_id t = Some t' /\ status t' = SUSPENDED)
     (scheduledSuspendLoop (S k)) w.
Proof.
  revert w. induction k as [|k IH]; intros w Hwf Ht Ho Hat Hle; rewrite scheduledSuspendLoop_S; apply wp_bind;
    (eapply wp_mono; [|by apply wp_scheduledSuspendTick_wf]);
    intros o w1 [(-> & Hs1 & _ & Hn1) Hwf1]; wp_post; apply wp_bind, wp_act; wp_post;
    (destruct (Z.leb_spec at_ (db_time (w_now w))) as [Hdue|Hlate]).
  1,3: eapply wp_mono; [|apply (wp_scheduledSuspendLoop_keeps _ _ (with_status SUSPENDED (clear_schedules t)))];
    [intros ? w' Hw'; exists (with_status SUSPENDED (clear_schedules t)); split; [exact Hw'|done]|apply Hwf1| |done];
    simpl; rewrite Hs1, bool_decide_eq_true_2, Ht; [simpl; unfold suspend_thread; by rewrite Ho|];
    apply due_suspend_ids; [done..|]; rewrite Hat; split; [done|by apply Z.leb_le].
  - rewrite Z.mul_0_r, Z.add_0_r in Hle. lia.
  - apply IH; [apply Hwf1| |done..|].
    + simpl. rewrite Hs1, bool_decide_eq_false_2; [done|]. rewrite due_suspend_ids by done.
      rewrite Hat. intros [_ Hd%Z.leb_le]. lia.
    + simpl. rewrite Hn1. rewrite Nat2Z.inj_succ in Hle. by replace (w_now w + 2000 + 2000 * Z.of_nat k)%Z
        with (w_now w + 2000 * Z.succ (Z.of_nat k))%Z by lia.
Qed.

End Suspend.

(** ** Witnesses on the fixture worlds *)

(** C3 at [w_susp], where [threadB]'s suspension is due. *)
Lemma scheduledSuspendTick_spec_witness :
  store_wf (w_store w_susp) /\
  let due := getThreadsThatShouldBeSuspended (db_time (w_now w_susp)) (w_store w_susp) in
  exists n w', run n (scheduledSuspendTick env0) w_susp = Some (Done tt, w') /\
    (forall k, w_store w' !! k =
       if bool_decide (k ∈ thread_id <$> due) then w_store w_susp !! k ≫= suspend_thread
       else w_store w_susp !! k) /\
    w_effects w' = w_effects w_susp ++ List.concat (scheduledSuspendEffects env0 <$> due).
Proof.
  assert (Hwf : store_wf (w_store w_susp)) by (apply (bool_decide_unpack _); vm_compute; reflexivity).
  split; [exact Hwf|]. exact (scheduledSuspendTick_spec env0 w_susp Hwf).
Defined.

(** C4 at [w0]: [threadS] is suspended in [c0] while [threadA] of the same
    user is OPEN. *)
Lemma unsuspend_rejected_other_open_witness :
  findSuspendedThreadByChannelId "c0" (w_store w0) = Some threadS /\
  findOpenThreadByUserId "u1" (w_store w0) = Some threadA /\
  run 3 (unsuspendCommand (staff_msg_in "c0") None) w0 =
    Some (Done tt, emit (SystemMessage "c0" (otherOpenMessage threadA)) w0).
Proof.
  assert (Hs : findSuspendedThreadByChannelId "c0" (w_store w0) = Some threadS)
    by (vm_compute; reflexivity).
  assert (Ho : findOpenThreadByUserId "u1" (w_store w0) = Some threadA)
    by (vm_compute; reflexivity).
  split; [exact Hs|split; [exact Ho|]].
  exact (unsuspend_rejected_other_open w0 (staff_msg_in "c0") threadS threadA Hs Ho).
Defined.

(** C5 at [w1]: [threadS] is the only thread of its user. *)
Lemma unsuspend_reopens_witness :
  store_wf (w_store w1) /\
  findSuspendedThreadByChannelId "c0" (w_store w1) = Some threadS /\
  findOpenThreadByUserId "u1" (w_store w1) = None /\
  exists w', run 4 (unsuspendCommand (staff_msg_in "c0") None) w1 = Some (Done tt, w') /\
    w_store w' = save (with_status OPEN threadS) (w_store w1) /\ store_wf (w_store w') /\
    w_effects w' = w_effects w1 ++ [SystemMessage "c0" "**Hilo desuspendido!**"].
Proof.
  assert (Hwf : store_wf (w_store w1)) by (apply (bool_decide_unpack _); vm_compute; reflexivity).
  assert (Hs : findSuspendedThreadByChannelId "c0" (w_store w1) = Some threadS)
    by (vm_compute; reflexivity).
  assert (Ho : findOpenThreadByUserId "u1" (w_store w1) = None) by (vm_compute; reflexivity).
  split; [exact Hwf|split; [exact Hs|split; [exact Ho|]]].
  exact (unsuspend_reopens w1 (staff_msg_in "c0") threadS Hwf Hs Ho).
Defined.

(** C7 at [w0]: channel [zz] has no thread. *)
Lemma unsuspend_outside_thread_rejects_witness :
  findSuspendedThreadByChannelId "zz" (w_store w0) = None /\
  run 1 (unsuspendCommand (staff_msg_in "zz") None) w0 = Some (Failed null_postSystemMessage, w0).
Proof.
  assert (Hs : findSuspendedThreadByChannelId "zz" (w_store w0) = None) by (vm_compute; reflexivity).
  split; [exact Hs|]. exact (unsuspend_outside_thread_rejects w0 (staff_msg_in "zz") Hs).
Defined.

(** C32 at [w0]: [suspend 5] on [threadS], which is SUSPENDED already. *)
Lemma suspendCommand_spec_witness :
  w_store w0 !! thread_id threadS = Some threadS /\
  wp (fun o w' => o = Failed (Error "Thread is not open") /\ w' = w0)
    (suspendCommand env0 staff_msg (Some 5%Z) threadS) w0.
Proof.
  assert (H : w_store w0 !! thread_id threadS = Some threadS) by (vm_compute; reflexivity).
  split; [exact H|exact (suspendCommand_spec env0 w0 staff_msg (Some 5%Z) threadS H)].
Defined.
