(* ===== verification/Close.v ===== *)
(** * [modules/close.js]

    The scheduled-close loop ([applyScheduledCloses], [scheduledCloseLoop]),
    the [close] command in its two forms (a user closing from direct
    messages, through the message queue; a staff member closing in the
    thread channel, with the options [cancel]/[c], [silent]/[s] and a delay)
    and the [channelDelete] auto-close.  Each definition is the code block
    named in its comment, on the same collaborator calls ([World]).

    Two calls of the source are not awaited: [thread.postSystemMessage] in
    the user close and in the staff branches.  They are modelled as steps at
    the point of the call.  [console.log] is a step that only records its
    line.

    Besides each handler's behaviour, the file proves that the loop, left
    to run, closes a thread once its scheduled time comes (liveness), and
    that a timed close followed by [close cancel] gives back the table it
    started from. *)

From S2P Require Import Prelude Async Thread Store World Fixtures Suspend.

Section Close.
Context (env : Env).

(** [utils.readMultilineConfigValue(config.closeMessage)]. *)
Definition closeMessageText : string :=
  readMultilineConfigValue env (js_str_opt (closeMessage env)).

(** The audit line of a scheduled close (the template after
    [utils.trimAll]). *)
Definition scheduledCloseLog (t : Thread) (logUrl : string) : string :=
  "El hilo de " ++ user_name t ++ " (" ++ user_id t ++ ") se cerró según lo previsto por "
  ++ js_str_opt (scheduled_close_name t) ++ nl ++ "Logs: " ++ logUrl.

(** The body of the loop of [applyScheduledCloses] for one due thread. *)
Definition applyScheduledClose (t : Thread) : M unit :=
  bind (if truthy_str (closeMessage env) && negb (scheduled_close_silent t)
        then ignore_errors (postToUser t closeMessageText) else Ret tt) (fun _ =>
  bind (close t false (scheduled_close_silent t)) (fun _ =>
  bind (getLogUrl env t) (fun url =>
  postLog (scheduledCloseLog t url)))).

Definition applyScheduledCloses : M unit :=
  bind q_getThreadsThatShouldBeClosed (fun threadsToBeClosed =>
  for_each threadsToBeClosed applyScheduledClose).

(** One iteration of [scheduledCloseLoop]: errors are logged and swallowed. *)
Definition scheduledCloseTick : M unit :=
  catch applyScheduledCloses (fun e => consoleError e).

(** [scheduledCloseLoop] run for [n] iterations, [setTimeout(_, 2000)]
    between them. *)
Fixpoint scheduledCloseLoop (n : nat) : M unit :=
  match n with
  | O => Ret tt
  | S n' => bind scheduledCloseTick (fun _ => bind (sleep 2000) (fun _ => scheduledCloseLoop n'))
  end.

(** ** The [close] command *)

(** The audit line of a manual close. *)
Definition closedByLog (t : Thread) (closedBy logUrl : string) : string :=
  "Modmail thread with " ++ user_name t ++ " (" ++ user_id t ++ ") was closed by " ++ closedBy
  ++ nl ++ "Logs: " ++ logUrl.

(** The end of the handler: the farewell unless silent, then the audit log. *)
Definition closeFarewellAndLog (hasCloseMessage : bool) (t : Thread) (closedBy : string)
    (silentClose : bool) : M unit :=
  bind (if hasCloseMessage && negb silentClose
        then ignore_errors (postToUser t closeMessageText) else Ret tt) (fun _ =>
  bind (getLogUrl env t) (fun url =>
  postLog (closedByLog t closedBy url))).

(** A user closing their own thread from direct messages. *)
(** The notice of a user's close. *)
Definition userClosingMessage : string := "El hilo fue cerrado por el usuario, cerrando...".

(** The job a user's close puts on the message queue: the notice (not
    awaited), then the close without its own notice. *)
Definition userCloseJob (thread : Thread) : M unit :=
  bind (postSystemMessage thread userClosingMessage)
    (fun _ => close thread true false).

Definition closeByUser (hasCloseMessage : bool) (msg : Message) : M unit :=
  if negb (allowUserClose env) then Ret tt else
  bind (isBlocked (uid (msg_author msg))) (fun blocked =>
  if blocked then Ret tt else
  bind (q_findOpenThreadByUserId (uid (msg_author msg))) (fun othread =>
  match othread with
  | None => Ret tt
  | Some thread =>
      bind (queue_add (userCloseJob thread)) (fun _ =>
      closeFarewellAndLog hasCloseMessage thread "the user" false)
  end)).

(** [close cancel]: cancel a scheduled close if there is one. *)
Definition closeCancel (thread : Thread) : M unit :=
  if is_set (scheduled_close_at thread)
  then bind (cancelScheduledClose thread) (fun _ => postSystemMessage thread "Cierre cancelado")
  else Ret tt.

(** The reply to a timed close. *)
Definition timedCloseResponse (silentClose : bool) (delay : Z) : string :=
  if silentClose
  then "El hilo ahora está programado para ser cerrado en silencio en " ++ humanizeDelay env delay
       ++ ". Usa `" ++ prefix env ++ "close cancel` para cancelar."
  else "El hilo ahora está programado para ser cerrado en silencio en " ++ humanizeDelay env delay
       ++ ". Usa `" ++ prefix env ++ "close cancel` para cancelarl.".

(** [close <delay>]: schedule the close at [now + delay]. *)
Definition closeTimed (author : User) (thread : Thread) (silentClose : bool)
    (delayStringArg : string) : M unit :=
  match convertDelayStringToMS env delayStringArg with
  | None | Some 0%Z =>
      postSystemMessage thread ("Demora especificada inválida. Formato: " ++ dq ++ "1h30m" ++ dq)
  | Some delay =>
      bind (thread_update_at
              (fun now => schedule_close_thread (db_time (now + delay)) author
                            (if silentClose then true else false))
              "Thread is not open" thread) (fun _ =>
      postSystemMessage thread (timedCloseResponse silentClose delay))
  end.

(** A staff member closing in the thread channel. *)
Definition closeByStaff (hasCloseMessage : bool) (msg : Message) (opts : list string) : M unit :=
  if negb (msg_on_inbox_server msg) then Ret tt else
  if negb (msg_member_is_staff msg) then Ret tt else
  bind (q_findOpenThreadByChannelId (msg_channel_id msg)) (fun othread =>
  match othread with
  | None => Ret tt
  | Some thread =>
      let regularClose (silentClose : bool) :=
        bind (close thread false silentClose) (fun _ =>
        closeFarewellAndLog hasCloseMessage thread (username (msg_author msg)) silentClose) in
      match opts with
      | [] => regularClose false
      | _ :: _ =>
          if includes opts "cancel" || includes opts "c" then closeCancel thread else
          let silentClose := includes opts "silent" || includes opts "s" in
          match List.find (delayStringRegex env) opts with
          | Some delayStringArg => closeTimed (msg_author msg) thread silentClose delayStringArg
          | None => regularClose silentClose
          end
      end
  end).

(** The [close] command: [hasCloseMessage] is read from the configuration
    first, then the channel decides who is closing. *)
Definition closeCommand (msg : Message) (opts : list string) : M unit :=
  let hasCloseMessage := truthy_str (closeMessage env) in
  if msg_is_private msg then closeByUser hasCloseMessage msg
  else closeByStaff hasCloseMessage msg opts.

(** ** Auto-close when the channel is deleted *)

(** The deleted channel as the handler reads it: its id, whether it is a
    [TextChannel], and whether its guild is the inbox server. *)
Record DeletedChannel := mkDeletedChannel {
  dc_id : string;
  dc_is_text : bool;
  dc_on_inbox : bool
}.

Definition channelDeletedLog (t : Thread) (logUrl : string) : string :=
  "Modmail thread with " ++ user_name t ++ " (" ++ user_id t
  ++ ") was closed automatically because the channel was deleted" ++ nl ++ "Logs: " ++ logUrl.

Definition autoCloseLine (t : Thread) : string :=
  "[INFO] Auto-closing thread with " ++ user_name t ++ " because the channel was deleted".

Definition onChannelDelete (channel : DeletedChannel) : M unit :=
  if negb (dc_is_text channel) then Ret tt else
  if negb (dc_on_inbox channel) then Ret tt else
  bind (q_findOpenThreadByChannelId (dc_id channel)) (fun othread =>
  match othread with
  | None => Ret tt
  | Some thread =>
      bind (consoleLog (autoCloseLine thread)) (fun _ =>
      bind (if truthy_str (closeMessage env)
            then ignore_errors (postToUser thread closeMessageText) else Ret tt) (fun _ =>
      bind (close thread true false) (fun _ =>
      bind (getLogUrl env thread) (fun url =>
      postLog (channelDeletedLog thread url)))))
  end).

(** ** The scheduled-close tick *)

(** The audit line the tick writes for a due thread. *)
Definition scheduledCloseEntry (t : Thread) : string :=
  scheduledCloseLog t (logUrl env (thread_id t)).

(** The world after the farewell of [applyScheduledClose]. *)
Definition scheduledFarewell (t : Thread) (s : world) : world :=
  if truthy_str (closeMessage env) && negb (scheduled_close_silent t)
  then deliver t closeMessageText s else s.

Lemma scheduledFarewell_fields t s :
  w_store (scheduledFarewell t s) = w_store s /\ w_unreachable (scheduledFarewell t s) = w_unreachable s /\
  w_effects (scheduledFarewell t s) = w_effects s ++
    (if truthy_str (closeMessage env) && negb (scheduled_close_silent t)
     then delivered t closeMessageText s else []).
Proof.
  unfold scheduledFarewell. case_match.
  - split_and!; [apply deliver_store|apply deliver_other|apply deliver_effects].
  - by rewrite app_nil_r.
Qed.

Lemma wp_applyScheduledClose Q t s t' :
  w_store s !! thread_id t = Some t -> close_thread t = Some t' ->
  Q (Done tt) (emit (AuditLog (scheduledCloseEntry t))
                 (closed_world t false (scheduled_close_silent t) t' (scheduledFarewell t s))) ->
  wp Q (applyScheduledClose t) s.
Proof.
  intros Ht Hc HQ. unfold applyScheduledClose. apply wp_bind.
  apply (wp_mono (fun o s1 => o = Done tt /\ s1 = scheduledFarewell t s)).
  { intros o s1 [-> ->]. wp_post. apply wp_bind.
    eapply wp_close; [by rewrite (proj1 (scheduledFarewell_fields t s))|done|]. wp_post.
    apply wp_bind, wp_act. wp_post. by apply wp_act. }
  unfold scheduledFarewell. case_match; [apply wp_ignore_postToUser|apply wp_ret]; done.
Qed.

(** The effects of the tick for one due thread: the farewell (unless the
    close is silent, no message is configured, or the user cannot be
    reached), the closing notice, the teardown and the audit line. *)
Definition scheduledCloseEffects (unreach : gset string) (t : Thread) : list effect :=
  (if truthy_str (closeMessage env) && negb (scheduled_close_silent t) &&
      negb (bool_decide (user_id t ∈ unreach))
   then [ToUser (user_id t) closeMessageText] else []) ++
  [SystemMessage (channel_id t) (closing_notice (scheduled_close_silent t));
   ChannelDeleted (channel_id t); AuditLog (scheduledCloseEntry t)].

(** The rows the tick finds due are stored under their ids, can be closed,
    and have distinct ids. *)
Lemma due_close_rows m now :
  store_wf m ->
  updatable close_thread (getThreadsThatShouldBeClosed now m) m /\
  NoDup (thread_id <$> getThreadsThatShouldBeClosed now m).
Proof.
  intros Hwf. split.
  - intros t Ht. apply elem_of_getThreadsThatShouldBeClosed in Ht as ([k Hk] & Ho & _).
    split; [apply store_wf_row; [done|]; apply elem_of_threads_of; eauto|].
    exists (with_status CLOSED (clear_schedules t)). unfold close_thread. by rewrite Ho.
  - apply NoDup_fmap_filter, threads_of_NoDup_ids, Hwf.
Qed.

(** The tick as a total-correctness triple; the clock does not move. *)
Lemma wp_scheduledCloseTick w :
  store_wf (w_store w) ->
  let due := getThreadsThatShouldBeClosed (db_time (w_now w)) (w_store w) in
  wp (fun o w' => o = Done tt /\
    (forall k, w_store w' !! k =
       if bool_decide (k ∈ thread_id <$> due) then w_store w !! k ≫= close_thread
       else w_store w !! k) /\
    w_effects w' = w_effects w ++ List.concat (scheduledCloseEffects (w_unreachable w) <$> due) /\
    w_now w' = w_now w) scheduledCloseTick w.
Proof.
  intros Hwf. destruct (due_close_rows (w_store w) (db_time (w_now w)) Hwf) as [Hu Hnd].
  apply (wp_tick _ _ scheduledCloseEffects); [done..|].
  intros t t' s1 Ht Hc Hun Hn. eapply wp_applyScheduledClose; [done..|].
  destruct (scheduledFarewell_fields t s1) as (Hfs & Hfu & Hfe).
  split_and!; [done|by autorewrite with modmail_rw; rewrite Hfs| |
               by autorewrite with modmail_rw; rewrite Hfu|].
  2:{ unfold closed_world, scheduledFarewell. simpl. case_match; by autorewrite with modmail_rw. }
  unfold closed_world. simpl. rewrite Hfe, <- !app_assoc. f_equal.
  unfold scheduledCloseEffects, delivered. rewrite Hun.
  destruct (truthy_str _), (scheduled_close_silent t); simpl; try done. by case_bool_decide.
Qed.


(** C1: one iteration of the scheduled-close loop terminates; every thread
    the due query returns (OPEN, with [scheduled_close_at] not after the
    current database time) is closed with both scheduled actions cleared,
    every other row is unchanged, and the effects are, thread after thread
    in the order of the query, the farewell (unless silent or unreachable),
    the closing notice, the channel teardown and exactly one audit line
    naming the user and the scheduler. *)
Theorem scheduledCloseTick_spec w :
  store_wf (w_store w) ->
  let due := getThreadsThatShouldBeClosed (db_time (w_now w)) (w_store w) in
  exists n w', run n scheduledCloseTick w = Some (Done tt, w') /\
    (forall k, w_store w' !! k =
       if bool_decide (k ∈ thread_id <$> due) then w_store w !! k ≫= close_thread
       else w_store w !! k) /\
    w_effects w' = w_effects w ++ List.concat (scheduledCloseEffects (w_unreachable w) <$> due).
Proof.
  intros Hwf. destruct (wp_adequate _ _ _ (wp_scheduledCloseTick w Hwf)) as (n & o & w' & Hr & -> & ? & ? & _).
  by exists n, w'.
Qed.

(** ** The [close] command *)

(** The farewell a close sends: the configured message, unless the user
    cannot be reached. *)
Definition farewell (t : Thread) (w : world) : list effect :=
  if truthy_str (closeMessage env) then delivered t closeMessageText w else [].

(** The row a close writes. *)
Definition closed_row (t : Thread) : Thread := with_status CLOSED (clear_schedules t).

Lemma close_thread_open t : status t = OPEN -> close_thread t = Some (closed_row t).
Proof. intros Ho. unfold close_thread. by rewrite Ho. Qed.

Lemma wp_closeFarewellAndLog Q has t by_ silent s :
  Q (Done tt) (emit (AuditLog (closedByLog t by_ (logUrl env (thread_id t))))
                 (if has && negb silent then deliver t closeMessageText s else s)) ->
  wp Q (closeFarewellAndLog has t by_ silent) s.
Proof.
  intros HQ. unfold closeFarewellAndLog. apply wp_bind.
  apply (wp_mono (fun o s1 => o = Done tt /\ s1 = if has && negb silent then deliver t closeMessageText s else s)).
  { intros o s1 [-> ->]. wp_post. apply wp_bind, wp_act. wp_post. by apply wp_act. }
  case_match; [by apply wp_ignore_postToUser|by apply wp_ret].
Qed.

(** The effects of a regular close with [silent] from world [w]. *)
Definition regular_close_effects (t : Thread) (silent : bool) (by_ : string) (w : world) : list effect :=
  [SystemMessage (channel_id t) (closing_notice silent); ChannelDeleted (channel_id t)] ++
  (if silent then [] else farewell t w) ++
  [AuditLog (closedByLog t by_ (logUrl env (thread_id t)))].

(** The run of a staff [close] without [cancel] or a delay, as a
    total-correctness triple. *)
Lemma wp_closeCommand_staff w msg opts t :
  store_wf (w_store w) ->
  msg_is_private msg = false -> msg_on_inbox_server msg = true -> msg_member_is_staff msg = true ->
  findOpenThreadByChannelId (msg_channel_id msg) (w_store w) = Some t ->
  (includes opts "cancel" || includes opts "c") = false ->
  List.find (delayStringRegex env) opts = None ->
  let silent := includes opts "silent" || includes opts "s" in
  wp (fun o w' => o = Done tt /\
      w' = emit (AuditLog (closedByLog t (username (msg_author msg)) (logUrl env (thread_id t))))
             (if truthy_str (closeMessage env) && negb silent
              then deliver t closeMessageText (closed_world t false silent (closed_row t) w)
              else closed_world t false silent (closed_row t) w))
    (closeCommand msg opts) w.
Proof.
  intros Hwf Hpriv Hin Hstaff Hfind Hnc Hnd silent.
  destruct (findOpenThreadByChannelId_Some _ _ _ Hwf Hfind) as (Hrow & Hopen & _).
  unfold closeCommand, closeByStaff. rewrite Hpriv, Hin, Hstaff. cbn [negb].
  apply wp_bind, wp_act. wp_post. rewrite Hfind. cbv zeta.
  assert (Hreg : forall sil, sil = silent ->
    wp (fun o w' => o = Done tt /\ w' = emit (AuditLog (closedByLog t (username (msg_author msg))
           (logUrl env (thread_id t)))) (if truthy_str (closeMessage env) && negb silent
            then deliver t closeMessageText (closed_world t false silent (closed_row t) w)
            else closed_world t false silent (closed_row t) w))
      (bind (close t false sil) (fun _ =>
        closeFarewellAndLog (truthy_str (closeMessage env)) t (username (msg_author msg)) sil)) w).
  { intros sil ->. apply wp_bind. eapply wp_close; [done|by apply close_thread_open|].
    wp_post. by apply wp_closeFarewellAndLog. }
  destruct opts as [|o opts]; [by apply Hreg|]. rewrite Hnc, Hnd. by apply Hreg.
Qed.

(** C2: a staff member's [close] in an OPEN thread's channel, without
    [cancel] or a delay among the options, closes the thread (both scheduled
    actions cleared) and produces, in order, the closing notice in the
    thread, the channel teardown, the farewell to the user (unless the close
    is silent or the user cannot be reached) and one audit line naming the
    staff member; [silent] or [s] suppresses the farewell only. *)
Theorem closeCommand_staff_close w msg opts t :
  store_wf (w_store w) ->
  msg_is_private msg = false -> msg_on_inbox_server msg = true -> msg_member_is_staff msg = true ->
  findOpenThreadByChannelId (msg_channel_id msg) (w_store w) = Some t ->
  (includes opts "cancel" || includes opts "c") = false ->
  List.find (delayStringRegex env) opts = None ->
  let silent := includes opts "silent" || includes opts "s" in
  exists n w', run n (closeCommand msg opts) w = Some (Done tt, w') /\
    w_store w' = save (closed_row t) (w_store w) /\
    w_effects w' = w_effects w ++ regular_close_effects t silent (username (msg_author msg)) w.
Proof.
  intros Hwf Hpriv Hin Hstaff Hfind Hnc Hnd silent.
  destruct (wp_adequate _ _ _ (wp_closeCommand_staff w msg opts t Hwf Hpriv Hin Hstaff Hfind Hnc Hnd))
    as (n & o & w' & Hrun & -> & ->).
  exists n. eexists. split_and!; [done| |].
  - by case_match; autorewrite with modmail_rw.
  - unfold regular_close_effects, farewell, closed_world. simpl. fold silent.
    destruct silent, (truthy_str (closeMessage env)); simpl;
      rewrite ?deliver_effects; simpl; by rewrite <- ?app_assoc.
Qed.

(** C8: a user's [close] in direct messages, when user close is allowed,
    the user is not blocked, the user has an OPEN thread and the message
    queue is idle, runs the close through the queue and ends with the
    thread closed, the queue idle again, and the effects: the notice in the
    thread, the teardown, the farewell (unless the user cannot be reached)
    and one audit line "closed by the user". *)
Theorem closeCommand_user_close w msg opts t :
  store_wf (w_store w) -> msg_is_private msg = true -> allowUserClose env = true ->
  uid (msg_author msg) ∉ w_blocked w -> w_queue w = [] ->
  findOpenThreadByUserId (uid (msg_author msg)) (w_store w) = Some t ->
  exists n w', run n (closeCommand msg opts) w = Some (Done tt, w') /\
    w_store w' = save (closed_row t) (w_store w) /\ w_queue w' = [] /\
    w_effects w' = w_effects w ++
      [SystemMessage (channel_id t) userClosingMessage; ChannelDeleted (channel_id t)] ++
      farewell t w ++ [AuditLog (closedByLog t "the user" (logUrl env (thread_id t)))].
Proof.
  intros Hwf Hpriv Hallow Hnb Hq Hfind.
  destruct (findOpenThreadByUserId_Some _ _ _ Hwf Hfind) as (Hrow & Hopen & _).
  edestruct (wp_adequate (fun o w' => o = Done tt /\
      w_store w' = save (closed_row t) (w_store w) /\ w_queue w' = [] /\
      w_effects w' = w_effects w ++
        [SystemMessage (channel_id t) userClosingMessage; ChannelDeleted (channel_id t)] ++
        farewell t w ++ [AuditLog (closedByLog t "the user" (logUrl env (thread_id t)))])
      (closeCommand msg opts) w) as (n & o & w' & Hrun & -> & HQ); [|by eauto].
  unfold closeCommand, closeByUser, userCloseJob. rewrite Hpriv, Hallow. cbn [negb].
  apply wp_bind, wp_act. wp_post. rewrite bool_decide_eq_false_2 by done.
  apply wp_bind, wp_act. wp_post. rewrite Hfind.
  apply wp_bind, wp_queue_add_idle; [done|]. apply wp_bind, wp_act. wp_post.
  eapply wp_close; [done|by apply close_thread_open|]. wp_post.
  apply wp_closeFarewellAndLog. unfold farewell, delivered, deliver.
  destruct (truthy_str _); simpl; [case_bool_decide|]; simpl; rewrite ?Hq; split_and!; try done;
    by rewrite <- !app_assoc.
Qed.

(** The run of a staff [close cancel]. *)
Lemma closeCommand_cancel_run w msg opts t :
  store_wf (w_store w) ->
  msg_is_private msg = false -> msg_on_inbox_server msg = true -> msg_member_is_staff msg = true ->
  findOpenThreadByChannelId (msg_channel_id msg) (w_store w) = Some t ->
  (includes opts "cancel" || includes opts "c") = true ->
  run 3 (closeCommand msg opts) w = Some (Done tt,
    match scheduled_close_at t with
    | Some _ => emit (SystemMessage (channel_id t) "Cierre cancelado")
                  (set_store (save (with_close None None None false t) (w_store w)) w)
    | None => w
    end).
Proof.
  intros Hwf Hpriv Hin Hstaff Hfind Hc.
  destruct (findOpenThreadByChannelId_Some _ _ _ Hwf Hfind) as (Hrow & _ & _).
  destruct opts as [|o opts]; [done|].
  unfold closeCommand, closeByStaff. rewrite Hpriv, Hin, Hstaff. cbn [negb].
  unfold closeCancel. destruct (scheduled_close_at t) eqn:Hat.
  - cbn -[includes]. rewrite Hfind. cbn -[includes]. rewrite Hc. cbn. rewrite Hat. cbn. rewrite Hrow. cbn.
    unfold cancel_scheduled_close_thread. by rewrite Hat.
  - cbn -[includes]. rewrite Hfind. cbn -[includes]. rewrite Hc. cbn. by rewrite Hat.
Qed.

(** C9: [close cancel] (or [c]) by staff in an OPEN thread's channel
    cancels a scheduled close and reports it; when no close is scheduled it
    does nothing at all and reports nothing. *)
Theorem closeCommand_cancel w msg opts t :
  store_wf (w_store w) ->
  msg_is_private msg = false -> msg_on_inbox_server msg = true -> msg_member_is_staff msg = true ->
  findOpenThreadByChannelId (msg_channel_id msg) (w_store w) = Some t ->
  (includes opts "cancel" || includes opts "c") = true ->
  exists n w', run n (closeCommand msg opts) w = Some (Done tt, w') /\
    match scheduled_close_at t with
    | Some _ => w_store w' = save (with_close None None None false t) (w_store w) /\
                w_effects w' = w_effects w ++ [SystemMessage (channel_id t) "Cierre cancelado"]
    | None => w' = w
    end.
Proof.
  intros Hwf Hpriv Hin Hstaff Hfind Hc. eexists 3, _. split; [by apply closeCommand_cancel_run|].
  by destruct (scheduled_close_at t).
Qed.

(** The row a timed close writes. *)
Definition scheduled_row (at_ : Z) (by_ : User) (silent : bool) (t : Thread) : Thread :=
  with_close (Some at_) (Some (uid by_)) (Some (username by_)) silent t.

(** The run of a staff [close <delay>]. *)
Lemma closeCommand_timed_run w msg opts t d delay :
  store_wf (w_store w) ->
  msg_is_private msg = false -> msg_on_inbox_server msg = true -> msg_member_is_staff msg = true ->
  findOpenThreadByChannelId (msg_channel_id msg) (w_store w) = Some t ->
  (includes opts "cancel" || includes opts "c") = false ->
  List.find (delayStringRegex env) opts = Some d ->
  convertDelayStringToMS env d = Some delay -> delay <> 0%Z ->
  let silent := includes opts "silent" || includes opts "s" in
  run 3 (closeCommand msg opts) w =
    Some (Done tt, emit (SystemMessage (channel_id t) (timedCloseResponse silent delay))
      (set_store (save (scheduled_row (db_time (w_now w + delay)) (msg_author msg) silent t)
                   (w_store w)) w)).
Proof.
  intros Hwf Hpriv Hin Hstaff Hfind Hc Hd Hconv Hnz silent.
  destruct (findOpenThreadByChannelId_Some _ _ _ Hwf Hfind) as (Hrow & Hopen & _).
  destruct opts as [|o opts]; [done|].
  unfold closeCommand, closeByStaff. rewrite Hpriv, Hin, Hstaff. cbn -[includes List.find].
  rewrite Hfind. cbn -[includes List.find]. rewrite Hc. cbn -[includes List.find].
  rewrite Hd. unfold closeTimed.
  rewrite Hconv. fold silent.
  assert (Hsil : (if silent then true else false) = silent) by (by destruct silent).
  destruct delay as [|p|p]; [done| |]; cbn; rewrite Hrow; cbn;
    unfold schedule_close_thread; rewrite Hopen, Hsil; reflexivity.
Qed.

(** C10: a staff [close <delay>] with a valid non-zero delay in an OPEN
    thread's channel only records the schedule (at the database time of
    [now + delay], by the staff member, silent when [silent]/[s] is given),
    leaves the thread OPEN, and posts the reply; nothing is closed. *)
Theorem closeCommand_timed w msg opts t d delay :
  store_wf (w_store w) ->
  msg_is_private msg = false -> msg_on_inbox_server msg = true -> msg_member_is_staff msg = true ->
  findOpenThreadByChannelId (msg_channel_id msg) (w_store w) = Some t ->
  (includes opts "cancel" || includes opts "c") = false ->
  List.find (delayStringRegex env) opts = Some d ->
  convertDelayStringToMS env d = Some delay -> delay <> 0%Z ->
  let silent := includes opts "silent" || includes opts "s" in
  run 3 (closeCommand msg opts) w =
    Some (Done tt, emit (SystemMessage (channel_id t) (timedCloseResponse silent delay))
      (set_store (save (scheduled_row (db_time (w_now w + delay)) (msg_author msg) silent t)
                   (w_store w)) w)).
Proof. apply closeCommand_timed_run. Qed.

(** C28: roundtrip (spec 8): a staff [close <delay>] followed by
    [close cancel] in the channel of an OPEN thread with no close scheduled
    leaves the threads table exactly as it was, with no residual field of
    the schedule, and its only effects are the two replies. *)
Theorem close_schedule_then_cancel w msg opts opts' t d delay :
  store_wf (w_store w) ->
  msg_is_private msg = false -> msg_on_inbox_server msg = true -> msg_member_is_staff msg = true ->
  findOpenThreadByChannelId (msg_channel_id msg) (w_store w) = Some t -> no_close_scheduled t ->
  (includes opts "cancel" || includes opts "c") = false ->
  List.find (delayStringRegex env) opts = Some d -> convertDelayStringToMS env d = Some delay -> delay <> 0%Z ->
  (includes opts' "cancel" || includes opts' "c") = true ->
  exists w', run 6 (bind (closeCommand msg opts) (fun _ => closeCommand msg opts')) w = Some (Done tt, w') /\
    w_store w' = w_store w /\
    w_effects w' = w_effects w ++
      [SystemMessage (channel_id t) (timedCloseResponse (includes opts "silent" || includes opts "s") delay);
       SystemMessage (channel_id t) "Cierre cancelado"].
Proof.
  intros Hwf Hpriv Hin Hstaff Hfind Hno Hc Hd Hconv Hnz Hc'.
  destruct (findOpenThreadByChannelId_Some _ _ _ Hwf Hfind) as (Hrow & Hopen & Hch).
  set (silent := includes opts "silent" || includes opts "s").
  set (t1 := scheduled_row (db_time (w_now w + delay)) (msg_author msg) silent t).
  set (w1 := emit (SystemMessage (channel_id t) (timedCloseResponse silent delay))
               (set_store (save t1 (w_store w)) w)).
  assert (Hwf1 : store_wf (w_store w1)).
  { apply (save_step_same_status_wf _ t); [done|done| |done]. eapply ts_schedule_close.
    unfold schedule_close_thread. by rewrite Hopen. }
  assert (Hfind1 : findOpenThreadByChannelId (msg_channel_id msg) (w_store w1) = Some t1)
    by (apply (find_save _ _ t); [apply Hwf|done..]).
  eexists. split_and!.
  - apply (run_bind 3 3 _ _ _ tt w1); [by apply (closeCommand_timed_run w msg opts t d delay)|].
    by rewrite (closeCommand_cancel_run w1 msg opts' t1).
  - assert (Ht1 : with_close None None None false t1 = t)
      by (destruct Hno as (? & ? & ? & ?); destruct t; simpl in *; by subst).
    simpl. unfold save. rewrite Ht1. change (thread_id t1) with (thread_id t).
    by rewrite insert_insert_eq, insert_id.
  - simpl. by rewrite <- app_assoc.
Qed.

(** C11: when the channel of an OPEN thread is deleted, the thread is
    closed (scheduled actions cleared) and the effects are the console
    line, the farewell (if configured and the user can be reached), the
    teardown and one audit line "closed automatically". *)
Theorem onChannelDelete_closes w ch t :
  store_wf (w_store w) -> dc_is_text ch = true -> dc_on_inbox ch = true ->
  findOpenThreadByChannelId (dc_id ch) (w_store w) = Some t ->
  exists n w', run n (onChannelDelete ch) w = Some (Done tt, w') /\
    w_store w' = save (closed_row t) (w_store w) /\
    w_effects w' = w_effects w ++ [ConsoleLog (autoCloseLine t)] ++ farewell t w ++
      [ChannelDeleted (channel_id t); AuditLog (channelDeletedLog t (logUrl env (thread_id t)))].
Proof.
  intros Hwf Htext Hin Hfind.
  destruct (findOpenThreadByChannelId_Some _ _ _ Hwf Hfind) as (Hrow & Hopen & _).
  edestruct (wp_adequate (fun o w' => o = Done tt /\
      w_store w' = save (closed_row t) (w_store w) /\
      w_effects w' = w_effects w ++ [ConsoleLog (autoCloseLine t)] ++ farewell t w ++
        [ChannelDeleted (channel_id t); AuditLog (channelDeletedLog t (logUrl env (thread_id t)))])
      (onChannelDelete ch) w) as (n & o & w' & Hrun & -> & HQ); [|by eauto].
  unfold onChannelDelete. rewrite Htext, Hin. cbn [negb].
  apply wp_bind, wp_act. wp_post. rewrite Hfind. apply wp_bind, wp_act. wp_post.
  apply wp_bind.
  apply (wp_mono (fun o s1 => o = Done tt /\ s1 = if truthy_str (closeMessage env)
           then deliver t closeMessageText (emit (ConsoleLog (autoCloseLine t)) w)
           else emit (ConsoleLog (autoCloseLine t)) w)).
  { intros o s1 [-> ->]. wp_post. apply wp_bind.
    eapply wp_close; [|by apply close_thread_open|].
    { case_match; [by rewrite deliver_store|done]. }
    wp_post. apply wp_bind, wp_act. wp_post. apply wp_act.
    unfold farewell, delivered, deliver. destruct (truthy_str _); simpl; [case_bool_decide|];
      simpl; split_and!; try done; by rewrite <- !app_assoc. }
  case_match; [by apply wp_ignore_postToUser|by apply wp_ret].
Qed.

(** C12: deleting the channel of a SUSPENDED thread does nothing: the
    handler looks only for an OPEN thread, so the suspended thread stays
    SUSPENDED, bound to a channel that no longer exists. *)
Theorem onChannelDelete_leaves_suspended w ch k t :
  w_store w !! k = Some t -> status t = SUSPENDED -> channel_id t = dc_id ch ->
  findOpenThreadByChannelId (dc_id ch) (w_store w) = None ->
  run 1 (onChannelDelete ch) w = Some (Done tt, w) /\ w_store w !! k = Some t.
Proof.
  intros Hk _ _ Hfind. split; [|done]. unfold onChannelDelete.
  destruct (dc_is_text ch), (dc_on_inbox ch); cbn; try done. by rewrite Hfind.
Qed.

(** A row stored under its id is among the due rows exactly when it is
    OPEN and its scheduled close is due. *)
Lemma due_close_ids m now t :
  store_wf m -> m !! thread_id t = Some t ->
  thread_id t ∈ thread_id <$> getThreadsThatShouldBeClosed now m <->
  status t = OPEN /\ due (scheduled_close_at t) now = true.
Proof.
  intros Hwf Ht. unfold getThreadsThatShouldBeClosed. rewrite filter_ids_row by done.
  unfold is_open. by rewrite andb_true_iff, bool_decide_eq_true.
Qed.

(** Whole seconds: a time [at_] in ms stored as [db_time at_] compares
    with the clock read the same way at least as early as [at_], and at
    most one second earlier. *)
Lemma db_time_due_window (at_ now1 : Z) :
  ((at_ <= now1)%Z -> (db_time at_ <= db_time now1)%Z) /\
  ((db_time at_ <= db_time now1)%Z -> (at_ - 1000 < now1)%Z).
Proof.
  unfold db_time. split; intros H; [by apply Z.div_le_mono|].
  pose proof (Z.mod_pos_bound at_ 1000 ltac:(lia)). pose proof (Z.mod_pos_bound now1 1000 ltac:(lia)).
  pose proof (Z.div_mod at_ 1000 ltac:(lia)). pose proof (Z.div_mod now1 1000 ltac:(lia)). lia.
Qed.

(** The table after a staff [close <delay>] is consistent and holds the
    scheduled row under the thread's id. *)
Lemma scheduled_row_saved w t at_ by_ silent :
  store_wf (w_store w) -> w_store w !! thread_id t = Some t -> status t = OPEN ->
  store_wf (save (scheduled_row at_ by_ silent t) (w_store w)) /\
  save (scheduled_row at_ by_ silent t) (w_store w) !! thread_id (scheduled_row at_ by_ silent t) =
    Some (scheduled_row at_ by_ silent t).
Proof.
  intros Hwf Ht Ho. split; [|by apply save_lookup].
  apply (save_step_same_status_wf _ t); [done|done| |done].
  apply (ts_schedule_close at_ by_ silent). unfold schedule_close_thread. by rewrite Ho.
Qed.

(** C17: a timed close fires early: the close time [now + delay] is
    stored in whole seconds, so after a staff [close <delay>] at a clock
    whose milliseconds part is not zero, the thread is already due for the
    scheduled-close loop at the whole second before the requested instant. *)
Theorem timed_close_fires_early w msg opts t d delay :
  store_wf (w_store w) ->
  msg_is_private msg = false -> msg_on_inbox_server msg = true -> msg_member_is_staff msg = true ->
  findOpenThreadByChannelId (msg_channel_id msg) (w_store w) = Some t ->
  (includes opts "cancel" || includes opts "c") = false ->
  List.find (delayStringRegex env) opts = Some d ->
  convertDelayStringToMS env d = Some delay -> (0 < delay)%Z -> ((w_now w + delay) mod 1000 <> 0)%Z ->
  let target := (w_now w + delay)%Z in
  exists w', run 3 (closeCommand msg opts) w = Some (Done tt, w') /\
    (exists t', t' ∈ getThreadsThatShouldBeClosed (db_time (target - target mod 1000)) (w_store w') /\
       thread_id t' = thread_id t) /\
    (target - target mod 1000 < target)%Z.
Proof.
  intros Hwf Hpriv Hin Hstaff Hfind Hc Hd Hconv Hpos Hmod target.
  destruct (findOpenThreadByChannelId_Some _ _ _ Hwf Hfind) as (_ & Hopen & _).
  eexists. split; [eapply closeCommand_timed_run; eauto; lia|]. split.
  - exists (scheduled_row (db_time target) (msg_author msg) (includes opts "silent" || includes opts "s") t).
    split; [|reflexivity]. apply elem_of_getThreadsThatShouldBeClosed. split_and!.
    + exists (thread_id t). cbn [w_store emit set_store]. unfold save. apply lookup_insert_eq.
    + done.
    + simpl. apply Z.leb_le. unfold db_time, target.
      rewrite (Z.div_mod (w_now w + delay) 1000) at 2 by lia.
      replace (1000 * ((w_now w + delay) / 1000) + (w_now w + delay) mod 1000 - (w_now w + delay) mod 1000)%Z
        with (((w_now w + delay) / 1000) * 1000)%Z by lia.
      rewrite Z.div_mul by lia. lia.
  - unfold target. pose proof (Z.mod_pos_bound (w_now w + delay) 1000 ltac:(lia)). lia.
Qed.

(** C13: bounds of a timed close: after a staff [close <delay>] at time
    [now] in an OPEN thread's channel, the due query of the scheduled-close
    loop returns the thread at every clock [now1] from [now + delay] on,
    and never at a clock [1000] ms or more before it, because the close
    time is stored in whole seconds. *)
Theorem timed_close_due_window w msg opts t d delay :
  store_wf (w_store w) ->
  msg_is_private msg = false -> msg_on_inbox_server msg = true -> msg_member_is_staff msg = true ->
  findOpenThreadByChannelId (msg_channel_id msg) (w_store w) = Some t ->
  (includes opts "cancel" || includes opts "c") = false ->
  List.find (delayStringRegex env) opts = Some d ->
  convertDelayStringToMS env d = Some delay -> delay <> 0%Z ->
  exists w', run 3 (closeCommand msg opts) w = Some (Done tt, w') /\
    forall now1 : Z,
      ((w_now w + delay <= now1)%Z ->
         thread_id t ∈ thread_id <$> getThreadsThatShouldBeClosed (db_time now1) (w_store w')) /\
      (thread_id t ∈ thread_id <$> getThreadsThatShouldBeClosed (db_time now1) (w_store w') ->
         (w_now w + delay - 1000 < now1)%Z).
Proof.
  intros Hwf Hpriv Hin Hstaff Hfind Hc Hd Hconv Hne.
  destruct (findOpenThreadByChannelId_Some _ _ _ Hwf Hfind) as (Hrow & Hopen & _).
  eexists. split; [by eapply closeCommand_timed_run|]. intros now1. cbn [w_store emit set_store].
  destruct (scheduled_row_saved w t (db_time (w_now w + delay)) (msg_author msg)
              (includes opts "silent" || includes opts "s") Hwf Hrow Hopen) as [Hwf' Hrow'].
  change (thread_id t) with (thread_id (scheduled_row (db_time (w_now w + delay)) (msg_author msg)
              (includes opts "silent" || includes opts "s") t)).
  rewrite (due_close_ids _ _ _ Hwf' Hrow'). cbn [scheduled_row with_close status scheduled_close_at due].
  destruct (db_time_due_window (w_now w + delay) now1) as [H1 H2].
  split; [intros Hle; split; [done|apply Z.leb_le; auto]|intros [_ Hdue%Z.leb_le]; auto].
Qed.

(** ** The table invariant *)

Lemma keeps_wf_closeCommand msg opts : keeps_wf (closeCommand msg opts).
Proof.
  unfold closeCommand, closeByUser, userCloseJob, closeByStaff, closeFarewellAndLog, closeCancel, closeTimed,
    getLogUrl, postLog, postSystemMessage, isBlocked, query. cbv zeta. keeps.
Qed.

Lemma keeps_wf_onChannelDelete ch : keeps_wf (onChannelDelete ch).
Proof. unfold onChannelDelete, getLogUrl, postLog, consoleLog, query. keeps. Qed.

Lemma keeps_wf_scheduledCloseTick : keeps_wf scheduledCloseTick.
Proof. unfold scheduledCloseTick, applyScheduledCloses, applyScheduledClose, getLogUrl, postLog,
    consoleError, query. keeps. Qed.

Lemma keeps_wf_scheduledCloseLoop k : keeps_wf (scheduledCloseLoop k).
Proof.
  induction k as [|k IH]; [apply keeps_wf_ret|].
  change (scheduledCloseLoop (S k))
    with (bind scheduledCloseTick (fun _ => bind (sleep 2000) (fun _ => scheduledCloseLoop k))).
  pose proof keeps_wf_scheduledCloseTick. unfold sleep. keeps.
Qed.

(** ** Every segment is a transition *)

Lemma segs_ok_closeCommand msg opts : segs_ok (closeCommand msg opts).
Proof.
  unfold closeCommand, closeByUser, userCloseJob, closeByStaff, closeFarewellAndLog, closeCancel, closeTimed,
    getLogUrl, postLog, postSystemMessage, isBlocked, query. cbv zeta. segs.
Qed.

Lemma segs_ok_onChannelDelete ch : segs_ok (onChannelDelete ch).
Proof. unfold onChannelDelete, getLogUrl, postLog, consoleLog, query. segs. Qed.

Lemma segs_ok_scheduledCloseTick : segs_ok scheduledCloseTick.
Proof.
  unfold scheduledCloseTick, applyScheduledCloses, applyScheduledClose, getLogUrl, postLog,
    consoleError, query. segs.
Qed.

(** ** Termination *)

Lemma terminates_idle_closeCommand msg opts : terminates_idle (closeCommand msg opts).
Proof.
  unfold closeCommand, closeByUser, userCloseJob, closeByStaff, closeFarewellAndLog, closeCancel, closeTimed,
    getLogUrl, postLog, postSystemMessage, isBlocked, query. cbv zeta. terminates_idle_tac.
Qed.

Lemma terminates_onChannelDelete ch : terminates (onChannelDelete ch).
Proof. unfold onChannelDelete, getLogUrl, postLog, consoleLog, query. terminates_tac. Qed.

Lemma terminates_scheduledCloseTick : terminates scheduledCloseTick.
Proof.
  unfold scheduledCloseTick, applyScheduledCloses, applyScheduledClose, getLogUrl, postLog,
    consoleError, query. terminates_tac.
Qed.

Lemma terminates_scheduledCloseLoop k : terminates (scheduledCloseLoop k).
Proof.
  induction k as [|k IH]; [apply terminates_ret|]. apply terminates_bind; [apply terminates_scheduledCloseTick|].
  intros _. apply terminates_bind; [by apply terminates_act|done].
Qed.

Lemma segs_ok_scheduledCloseLoop k : segs_ok (scheduledCloseLoop k).
Proof.
  induction k as [|k IH]; [done|]. apply all_steps_bind; [apply segs_ok_scheduledCloseTick|].
  intros _. apply all_steps_bind; [by apply segs_ok_act|done].
Qed.

(** ** Liveness of the scheduled close *)

Lemma scheduledCloseLoop_S k :
  scheduledCloseLoop (S k) = bind scheduledCloseTick (fun _ => bind (sleep 2000) (fun _ => scheduledCloseLoop k)).
Proof. done. Qed.


(** The loop, from a world where [t] is OPEN with a close scheduled no later
    than [k] periods ahead, leaves [t] CLOSED. *)
Lemma wp_scheduledCloseLoop_closes (k : nat) w t (at_ : Z) :
  store_wf (w_store w) -> w_store w !! thread_id t = Some t -> status t = OPEN ->
  scheduled_close_at t = Some at_ -> (at_ <= db_time (w_now w + 2000 * Z.of_nat k))%Z ->
  wp (fun _ w' => exists t', w_store w' !! thread_id t = Some t' /\ status t' = CLOSED)
     (scheduledCloseLoop (S k)) w.
Proof.
  revert w. induction k as [|k IH]; intros w Hwf Ht Ho Hat Hle; rewrite scheduledCloseLoop_S; apply wp_bind;
    (eapply wp_mono; [|apply (wp_pwp_conj _ _ _ _ (wp_scheduledCloseTick w Hwf) (keeps_wf_scheduledCloseTick w Hwf))]);
    intros o w1 [(-> & Hs1 & _ & Hn1) Hwf1]; wp_post; apply wp_bind, wp_act; wp_post;
    (destruct (Z.leb_spec at_ (db_time (w_now w))) as [Hdue|Hlate]);
    try (apply wp_closed_stays with (t := closed_row t);
      [apply segs_ok_scheduledCloseLoop|apply terminates_scheduledCloseLoop|apply Hwf1| |done];
      simpl; rewrite Hs1, bool_decide_eq_true_2, Ht; [by apply close_thread_open|];
      apply due_close_ids; [done..|]; rewrite Hat; split; [done|by apply Z.leb_le]).
  - rewrite Z.mul_0_r, Z.add_0_r in Hle. lia.
  - apply IH; [apply Hwf1| |done..|].
    + simpl. rewrite Hs1, bool_decide_eq_false_2; [done|]. rewrite due_close_ids by done.
      rewrite Hat. intros [_ Hd%Z.leb_le]. lia.
    + simpl. rewrite Hn1. rewrite Nat2Z.inj_succ in Hle. by replace (w_now w + 2000 + 2000 * Z.of_nat k)%Z
        with (w_now w + 2000 * Z.succ (Z.of_nat k))%Z by lia.
Qed.

(** C24: liveness of the two scheduler loops: left to run from a
    consistent table, the scheduled-close loop closes a thread once its
    scheduled close comes, and the scheduled-suspend loop suspends an OPEN
    thread once its scheduled suspension comes: when [t] is OPEN with the
    time due within [k] periods of two seconds, the first [k + 1]
    iterations of the loop terminate and leave the thread CLOSED
    (respectively SUSPENDED), whatever else the ticks change on the way. *)
Theorem scheduler_loops_live :
  (forall w t (at_ : Z) (k : nat),
    store_wf (w_store w) -> w_store w !! thread_id t = Some t -> status t = OPEN ->
    scheduled_close_at t = Some at_ -> (at_ <= db_time (w_now w + 2000 * Z.of_nat k))%Z ->
    exists n o w', run n (scheduledCloseLoop (S k)) w = Some (o, w') /\
      exists t', w_store w' !! thread_id t = Some t' /\ status t' = CLOSED) /\
  (forall w t (at_ : Z) (k : nat),
    store_wf (w_store w) -> w_store w !! thread_id t = Some t -> status t = OPEN ->
    scheduled_suspend_at t = Some at_ -> (at_ <= db_time (w_now w + 2000 * Z.of_nat k))%Z ->
    exists n o w', run n (scheduledSuspendLoop env (S k)) w = Some (o, w') /\
      exists t', w_store w' !! thread_id t = Some t' /\ status t' = SUSPENDED).
Proof.
  split; intros w t at_ k Hwf Ht Ho Hat Hle.
  - destruct (wp_adequate _ _ _ (wp_scheduledCloseLoop_closes k w t at_ Hwf Ht Ho Hat Hle)) as (n & o & w' & ? & ?).
    eauto.
  - destruct (wp_adequate _ _ _ (wp_scheduledSuspendLoop_suspends env k w t at_ Hwf Ht Ho Hat Hle))
      as (n & o & w' & ? & ?).
    eauto.
Qed.

End Close.

(** ** Witnesses on the fixture world *)


(** C1 at [w0], where [threadA] is due. *)
Lemma scheduledCloseTick_spec_witness :
  store_wf (w_store w0) /\
  let due := getThreadsThatShouldBeClosed (db_time (w_now w0)) (w_store w0) in
  exists n w', run n (scheduledCloseTick env0) w0 = Some (Done tt, w') /\
    (forall k, w_store w' !! k =
       if bool_decide (k ∈ thread_id <$> due) then w_store w0 !! k ≫= close_thread
       else w_store w0 !! k) /\
    w_effects w' = w_effects w0 ++
      List.concat (scheduledCloseEffects env0 (w_unreachable w0) <$> due).
Proof.
  assert (Hwf : store_wf (w_store w0)) by (apply (bool_decide_unpack _); vm_compute; reflexivity).
  split; [exact Hwf|]. exact (scheduledCloseTick_spec env0 w0 Hwf).
Defined.

(** C2 at [w0]: Sam closes [threadA] in [c1] without options. *)
Lemma closeCommand_staff_close_witness :
  store_wf (w_store w0) /\ findOpenThreadByChannelId "c1" (w_store w0) = Some threadA /\
  exists n w', run n (closeCommand env0 staff_msg []) w0 = Some (Done tt, w') /\
    w_store w' = save (closed_row threadA) (w_store w0) /\
    w_effects w' = w_effects w0 ++ regular_close_effects env0 threadA false "Sam" w0.
Proof.
  assert (Hwf : store_wf (w_store w0)) by (apply (bool_decide_unpack _); vm_compute; reflexivity).
  assert (Hf : findOpenThreadByChannelId "c1" (w_store w0) = Some threadA)
    by (vm_compute; reflexivity).
  split; [exact Hwf|split; [exact Hf|]].
  exact (closeCommand_staff_close env0 w0 staff_msg [] threadA Hwf eq_refl eq_refl eq_refl Hf
           eq_refl eq_refl).
Defined.

(** C8 at [w0]: Ana closes her OPEN [threadA] from direct messages. *)
Lemma closeCommand_user_close_witness :
  store_wf (w_store w0) /\ findOpenThreadByUserId "u1" (w_store w0) = Some threadA /\
  exists n w', run n (closeCommand env0 user_msg []) w0 = Some (Done tt, w') /\
    w_store w' = save (closed_row threadA) (w_store w0) /\ w_queue w' = [] /\
    w_effects w' = w_effects w0 ++
      [SystemMessage "c1" userClosingMessage; ChannelDeleted "c1"] ++
      farewell env0 threadA w0 ++ [AuditLog (closedByLog threadA "the user" (logUrl env0 "a"))].
Proof.
  assert (Hwf : store_wf (w_store w0)) by (apply (bool_decide_unpack _); vm_compute; reflexivity).
  assert (Hf : findOpenThreadByUserId "u1" (w_store w0) = Some threadA) by (vm_compute; reflexivity).
  split; [exact Hwf|split; [exact Hf|]].
  exact (closeCommand_user_close env0 w0 user_msg [] threadA Hwf eq_refl eq_refl
           ltac:(set_solver) eq_refl Hf).
Defined.

(** C9 at [w0]: Sam cancels the close scheduled on [threadA]. *)
Lemma closeCommand_cancel_witness :
  store_wf (w_store w0) /\ findOpenThreadByChannelId "c1" (w_store w0) = Some threadA /\
  exists n w', run n (closeCommand env0 staff_msg ["cancel"]) w0 = Some (Done tt, w') /\
    w_store w' = save (with_close None None None false threadA) (w_store w0) /\
    w_effects w' = w_effects w0 ++ [SystemMessage "c1" "Cierre cancelado"].
Proof.
  assert (Hwf : store_wf (w_store w0)) by (apply (bool_decide_unpack _); vm_compute; reflexivity).
  assert (Hf : findOpenThreadByChannelId "c1" (w_store w0) = Some threadA)
    by (vm_compute; reflexivity).
  split; [exact Hwf|split; [exact Hf|]].
  exact (closeCommand_cancel env0 w0 staff_msg ["cancel"] threadA Hwf eq_refl eq_refl eq_refl Hf
           eq_refl).
Defined.

(** C10 at [w0]: Sam schedules the close of [threadA] in one hour. *)
Lemma closeCommand_timed_witness :
  store_wf (w_store w0) /\ findOpenThreadByChannelId "c1" (w_store w0) = Some threadA /\
  run 3 (closeCommand env0 staff_msg ["1h"]) w0 =
    Some (Done tt, emit (SystemMessage "c1" (timedCloseResponse env0 false 3600000))
      (set_store (save (scheduled_row (db_time (w_now w0 + 3600000)) sam false threadA)
                   (w_store w0)) w0)).
Proof.
  assert (Hwf : store_wf (w_store w0)) by (apply (bool_decide_unpack _); vm_compute; reflexivity).
  assert (Hf : findOpenThreadByChannelId "c1" (w_store w0) = Some threadA)
    by (vm_compute; reflexivity).
  split; [exact Hwf|split; [exact Hf|]].
  exact (closeCommand_timed env0 w0 staff_msg ["1h"] threadA "1h" 3600000 Hwf eq_refl eq_refl
           eq_refl Hf eq_refl eq_refl eq_refl ltac:(lia)).
Defined.

(** C13 at [w0]: Sam closes [threadA] in [c1] in an hour. *)
Lemma timed_close_due_window_witness :
  store_wf (w_store w0) /\ findOpenThreadByChannelId "c1" (w_store w0) = Some threadA /\
  exists w', run 3 (closeCommand env0 staff_msg ["1h"]) w0 = Some (Done tt, w') /\
    forall now1 : Z,
      ((w_now w0 + 3600000 <= now1)%Z ->
         thread_id threadA ∈ thread_id <$> getThreadsThatShouldBeClosed (db_time now1) (w_store w')) /\
      (thread_id threadA ∈ thread_id <$> getThreadsThatShouldBeClosed (db_time now1) (w_store w') ->
         (w_now w0 + 3600000 - 1000 < now1)%Z).
Proof.
  assert (Hwf : store_wf (w_store w0)) by (apply (bool_decide_unpack _); vm_compute; reflexivity).
  assert (Hf : findOpenThreadByChannelId "c1" (w_store w0) = Some threadA)
    by (vm_compute; reflexivity).
  split; [exact Hwf|split; [exact Hf|]].
  exact (timed_close_due_window env0 w0 staff_msg ["1h"] threadA "1h" 3600000 Hwf eq_refl eq_refl
           eq_refl Hf eq_refl eq_refl eq_refl ltac:(lia)).
Defined.

(** The deletion of channel [c]. *)
Definition deleted (c : string) : DeletedChannel := {| dc_id := c; dc_is_text := true; dc_on_inbox := true |}.

(** C11 at [w0]: channel [c1] of [threadA] is deleted. *)
Lemma onChannelDelete_closes_witness :
  store_wf (w_store w0) /\ findOpenThreadByChannelId "c1" (w_store w0) = Some threadA /\
  exists n w', run n (onChannelDelete env0 (deleted "c1")) w0 = Some (Done tt, w') /\
    w_store w' = save (closed_row threadA) (w_store w0) /\
    w_effects w' = w_effects w0 ++ [ConsoleLog (autoCloseLine threadA)] ++ farewell env0 threadA w0 ++
      [ChannelDeleted "c1"; AuditLog (channelDeletedLog threadA (logUrl env0 "a"))].
Proof.
  assert (Hwf : store_wf (w_store w0)) by (apply (bool_decide_unpack _); vm_compute; reflexivity).
  assert (Hf : findOpenThreadByChannelId "c1" (w_store w0) = Some threadA)
    by (vm_compute; reflexivity).
  split; [exact Hwf|split; [exact Hf|]].
  exact (onChannelDelete_closes env0 w0 (deleted "c1") threadA Hwf eq_refl eq_refl Hf).
Defined.

(** C12 at [w0]: channel [c0] of the SUSPENDED [threadS] is deleted. *)
Lemma onChannelDelete_leaves_suspended_witness :
  w_store w0 !! "s" = Some threadS /\ findOpenThreadByChannelId "c0" (w_store w0) = None /\
  run 1 (onChannelDelete env0 (deleted "c0")) w0 = Some (Done tt, w0) /\
  w_store w0 !! "s" = Some threadS.
Proof.
  assert (Hk : w_store w0 !! "s" = Some threadS) by (vm_compute; reflexivity).
  assert (Hf : findOpenThreadByChannelId "c0" (w_store w0) = None) by (vm_compute; reflexivity).
  split; [exact Hk|split; [exact Hf|]].
  exact (onChannelDelete_leaves_suspended env0 w0 (deleted "c0") "s" threadS Hk eq_refl eq_refl Hf).
Defined.

(** C17 at [w0] half a second later: [close 1h] at 200.5 s is due at
    3800 s, half a second before 3800.5 s. *)
Lemma timed_close_fires_early_witness :
  store_wf (w_store (advance_clock 500 w0)) /\
  findOpenThreadByChannelId "c1" (w_store (advance_clock 500 w0)) = Some threadA /\
  ((w_now (advance_clock 500 w0) + 3600000) mod 1000 <> 0)%Z /\
  let target := (w_now (advance_clock 500 w0) + 3600000)%Z in
  exists w', run 3 (closeCommand env0 staff_msg ["1h"]) (advance_clock 500 w0) = Some (Done tt, w') /\
    (exists t', t' ∈ getThreadsThatShouldBeClosed (db_time (target - target mod 1000)) (w_store w') /\
       thread_id t' = thread_id threadA) /\
    (target - target mod 1000 < target)%Z.
Proof.
  assert (Hwf : store_wf (w_store (advance_clock 500 w0)))
    by (apply (bool_decide_unpack _); vm_compute; reflexivity).
  assert (Hf : findOpenThreadByChannelId "c1" (w_store (advance_clock 500 w0)) = Some threadA)
    by (vm_compute; reflexivity).
  assert (Hm : ((w_now (advance_clock 500 w0) + 3600000) mod 1000 <> 0)%Z) by (vm_compute; discriminate).
  split_and!; [exact Hwf|exact Hf|exact Hm|].
  exact (timed_close_fires_early env0 (advance_clock 500 w0) staff_msg ["1h"] threadA "1h" 3600000
           Hwf eq_refl eq_refl eq_refl Hf eq_refl eq_refl eq_refl ltac:(lia) Hm).
Defined.

(** C24 for [threadD], due to close at 150 s, from 146 s (the third
    iteration closes it), and for [threadB], due to be suspended at 150 s,
    from 146 s. *)
Lemma scheduler_loops_live_witness :
  let w := world_of (<["d" := threadD]> ∅) 146000 in
  let v := world_of (<["b" := threadB]> ∅) 146000 in
  store_wf (w_store w) /\ w_store w !! thread_id threadD = Some threadD /\ status threadD = OPEN /\
  scheduled_close_at threadD = Some 150%Z /\ (150 <= db_time (w_now w + 2000 * Z.of_nat 2))%Z /\
  (exists n o w', run n (scheduledCloseLoop env0 3) w = Some (o, w') /\
    exists t', w_store w' !! thread_id threadD = Some t' /\ status t' = CLOSED) /\
  store_wf (w_store v) /\ w_store v !! thread_id threadB = Some threadB /\ status threadB = OPEN /\
  scheduled_suspend_at threadB = Some 150%Z /\ (150 <= db_time (w_now v + 2000 * Z.of_nat 2))%Z /\
  (exists n o w', run n (scheduledSuspendLoop env0 3) v = Some (o, w') /\
    exists t', w_store w' !! thread_id threadB = Some t' /\ status t' = SUSPENDED).
Proof.
  intros w v. assert (Hwf : store_wf (w_store w)) by (apply (bool_decide_unpack _); vm_compute; reflexivity).
  assert (Hwv : store_wf (w_store v)) by (apply (bool_decide_unpack _); vm_compute; reflexivity).
  split_and!; [exact Hwf|reflexivity|reflexivity|reflexivity|vm_compute; congruence| |
               exact Hwv|reflexivity|reflexivity|reflexivity|vm_compute; congruence|].
  - apply (proj1 (scheduler_loops_live env0) w threadD 150%Z 2); [exact Hwf|reflexivity..|vm_compute; congruence].
  - apply (proj2 (scheduler_loops_live env0) v threadB 150%Z 2); [exact Hwv|reflexivity..|vm_compute; congruence].
Defined.

(** C28 in [threadB]'s channel [c2] at [w_susp]: [close 1h], then
    [close cancel]. *)
Lemma close_schedule_then_cancel_witness :
  store_wf (w_store w_susp) /\ findOpenThreadByChannelId "c2" (w_store w_susp) = Some threadB /\
  no_close_scheduled threadB /\
  exists w', run 6 (bind (closeCommand env0 (staff_msg_in "c2") ["1h"])
                      (fun _ => closeCommand env0 (staff_msg_in "c2") ["cancel"])) w_susp = Some (Done tt, w') /\
    w_store w' = w_store w_susp /\
    w_effects w' = w_effects w_susp ++
      [SystemMessage "c2" (timedCloseResponse env0 false 3600000); SystemMessage "c2" "Cierre cancelado"].
Proof.
  assert (Hwf : store_wf (w_store w_susp)) by (apply (bool_decide_unpack _); vm_compute; reflexivity).
  assert (Hf : findOpenThreadByChannelId "c2" (w_store w_susp) = Some threadB) by (vm_compute; reflexivity).
  assert (Hno : no_close_scheduled threadB) by (repeat split).
  split; [exact Hwf|split; [exact Hf|split; [exact Hno|]]].
  exact (close_schedule_then_cancel env0 w_susp (staff_msg_in "c2") ["1h"] ["cancel"] threadB "1h" 3600000
           Hwf eq_refl eq_refl eq_refl Hf Hno eq_refl eq_refl eq_refl ltac:(lia) eq_refl).
Defined.
