(* ===== verification/Queue.v ===== *)
(** * The message queue: one job at a time, for any pool of jobs

    [queue.js] is not under src/; [World.queue_add] models [messageQueue.add]
    from spec 4.3: take a ticket at the back, wait until it is at the front,
    run the job, leave.  This file shows what the queue is for: whatever
    jobs are put on it, and whenever, and however the event loop
    interleaves them, at most one of them is running, and it is the one
    whose ticket is at the front.

    A task of the pool is a program, and a program does not say where it
    stands.  So the tasks are annotated ([qtask]): not yet in the queue
    ([QFresh]), holding a ticket and waiting ([QWait]), in its job
    ([QBody]), or finished ([QDone]).  [qstep] runs the annotated pool; it
    simulates every step of [conc_step] on the programs the annotations
    stand for ([qprog], lemma [conc_qsteps]), so an annotation reached by
    [qstep] is the history of the pool, and the invariant [qinv] proved
    along [qstep] holds of every interleaving.  The proof of exclusion is
    the ticket-lock argument: the held tickets are distinct and in the
    queue, and a running job holds the front one. *)

From S2P Require Import Prelude Async Thread Store World Fixtures Close.

(** ** Jobs and the stages of [queue_add] *)

(** A job that never takes a ticket or leaves the queue itself. *)
Definition queue_free (j : M unit) : Prop :=
  all_steps (fun u => same_queue u /\ same_ticket u) j.

(** The end of [queue_add]: leave the queue, then pass on the job's failure. *)
Definition queue_leave (r : option js_error) : M unit :=
  bind (act (fun w => set_queue (tail (w_queue w)) (w_next_ticket w) w) (fun _ => tt)) (fun _ =>
  match r with None => Ret tt | Some e => Throw e end).

(** The rest of [queue_add] while (what is left of) the job [j] runs. *)
Definition job_body (j : M unit) : M unit :=
  bind (catch (bind j (fun _ => Ret None)) (fun e => Ret (Some e))) queue_leave.

(** The rest of [queue_add] with ticket [k], waiting for the front. *)
Definition queue_wait (k : nat) (j : M unit) : M unit :=
  bind (await_until (fun w => bool_decide (head (w_queue w) = Some k))) (fun _ => job_body j).

Inductive qtask :=
| QFresh (j : M unit)
| QWait (k : nat) (j : M unit)
| QBody (k : nat) (j : M unit)
| QDone (r : option js_error).

(** The program an annotated task stands for. *)
Definition qprog (t : qtask) : M unit :=
  match t with
  | QFresh j => queue_add j
  | QWait k j => queue_wait k j
  | QBody _ j => job_body j
  | QDone None => Ret tt
  | QDone (Some e) => Throw e
  end.

Definition qticket (t : qtask) : option nat :=
  match t with QWait k _ | QBody k _ => Some k | _ => None end.

(** How a job ended, if it has. *)
Definition job_end (j : M unit) : option (option js_error) :=
  match j with Ret _ => Some None | Throw e => Some (Some e) | Step _ _ _ => None end.

(** An incoming [messageQueue.add] of a job that leaves the queue alone. *)
Definition queued_job (p : M unit) : Prop := exists j, queue_free j /\ p = queue_add j.

(** The annotated pool. *)
Inductive qstep : list qtask * world -> list qtask * world -> Prop :=
| qs_spawn ts w j : queue_free j -> qstep (ts, w) (ts ++ [QFresh j], w)
| qs_enter i ts w j : ts !! i = Some (QFresh j) ->
    qstep (ts, w) (<[i := QWait (w_next_ticket w) j]> ts,
                   set_queue (w_queue w ++ [w_next_ticket w]) (S (w_next_ticket w)) w)
| qs_start i ts w k j : ts !! i = Some (QWait k j) -> head (w_queue w) = Some k ->
    qstep (ts, w) (<[i := QBody k j]> ts, w)
| qs_run i ts w k g u c : ts !! i = Some (QBody k (Step g u c)) -> g w = true ->
    qstep (ts, w) (<[i := QBody k (c w)]> ts, u w)
| qs_leave i ts w k j r : ts !! i = Some (QBody k j) -> job_end j = Some r ->
    qstep (ts, w) (<[i := QDone r]> ts, set_queue (tail (w_queue w)) (w_next_ticket w) w)
| qs_exit i ts w r : ts !! i = Some (QDone r) -> qstep (ts, w) (delete i ts, w).

(** What every reachable annotated pool satisfies: the held tickets are
    distinct, in the queue and below the next ticket, a running job holds
    the front ticket, and the jobs leave the queue alone. *)
Definition qinv (c : list qtask * world) : Prop :=
  let '(ts, w) := c in
  NoDup (omap qticket ts) /\
  Forall (fun k => k ∈ w_queue w /\ k < w_next_ticket w) (omap qticket ts) /\
  Forall (fun t => match t with QBody k _ => head (w_queue w) = Some k | _ => True end) ts /\
  Forall (fun t => match t with QFresh j | QWait _ j | QBody _ j => queue_free j | QDone _ => True end) ts.

(** ** Lists of annotated tasks *)

Section OmapLemmas.
Context {A B : Type} (f : A -> option B).

Lemma omap_cons_list x l : omap f (x :: l) = option_list (f x) ++ omap f l.
Proof. simpl. by destruct (f x). Qed.

(** Replacing the [i]-th element trades its image for the new one's. *)
Lemma omap_insert_perm l i x y :
  l !! i = Some x -> omap f (<[i := y]> l) ++ option_list (f x) ≡ₚ omap f l ++ option_list (f y).
Proof.
  revert i. induction l as [|a l IH]; intros [|i] Hi;
    cbn [insert list_insert delete list_delete lookup list_lookup] in *; simplify_eq.
  - rewrite !omap_cons_list. solve_Permutation.
  - rewrite !omap_cons_list, <- !(assoc_L app). by apply Permutation_app_head, IH.
Qed.

Lemma omap_delete_perm l i x :
  l !! i = Some x -> omap f (delete i l) ++ option_list (f x) ≡ₚ omap f l.
Proof.
  revert i. induction l as [|a l IH]; intros [|i] Hi;
    cbn [insert list_insert delete list_delete lookup list_lookup] in *; simplify_eq.
  - rewrite omap_cons_list. solve_Permutation.
  - rewrite !omap_cons_list, <- (assoc_L app). by apply Permutation_app_head, IH.
Qed.

(** Distinct images: two elements with the same image are one. *)
Lemma NoDup_omap_lookup l i1 i2 x1 x2 k :
  NoDup (omap f l) -> l !! i1 = Some x1 -> l !! i2 = Some x2 -> f x1 = Some k -> f x2 = Some k -> i1 = i2.
Proof.
  revert i1 i2. induction l as [|a l IH]; intros [|i1] [|i2] Hnd H1 H2 F1 F2;
    cbn [lookup list_lookup] in *; simplify_eq;
    rewrite omap_cons_list in Hnd; try done.
  - rewrite F1 in Hnd. apply NoDup_cons in Hnd as [Hn _]. destruct Hn.
    apply list_elem_of_omap. exists x2. split; [by eapply list_elem_of_lookup_2|done].
  - rewrite F2 in Hnd. apply NoDup_cons in Hnd as [Hn _]. destruct Hn.
    apply list_elem_of_omap. exists x1. split; [by eapply list_elem_of_lookup_2|done].
  - f_equal. apply NoDup_app in Hnd as (_ & _ & Hnd). by eapply IH.
Qed.
End OmapLemmas.

(** ** The annotated pool simulates the event loop *)

Lemma is_final_qprog t : is_final (qprog t) = true -> exists r, t = QDone r.
Proof. destruct t as [| | |[]]; [done|done| |by eexists..]. by destruct j. Qed.

(** Every step of the event loop on a pool of queued jobs is a step of
    the annotated pool. *)
Lemma conc_qstep ts w ts' w' :
  conc_step queued_job (qprog <$> ts, w) (ts', w') ->
  exists ts'', qstep (ts, w) (ts'', w') /\ ts' = qprog <$> ts''.
Proof.
  intros Hst. inversion Hst as [p ts1 s Hp|i ts1 s g u c Hi Hg|i ts1 s p Hi Hf]; subst.
  - destruct Hp as (j & Hj & ->). exists (ts ++ [QFresh j]). split; [by constructor|].
    by rewrite fmap_app.
  - apply list_lookup_fmap_Some in Hi as (t & Heq & Hi).
    destruct t as [j|k j|k [a|e|g' u' c']|[e|]];
      cbn [qprog] in Heq; unfold queue_add, queue_wait, job_body, queue_leave, await_until, act in Heq;
      simpl in Heq; simplify_eq.
    + eexists. split; [by apply qs_enter|]. by rewrite list_fmap_insert.
    + eexists. split; [apply qs_start; [done|by apply bool_decide_eq_true in Hg]|].
      by rewrite list_fmap_insert.
    + eexists. split; [by eapply qs_leave|]. by rewrite list_fmap_insert.
    + eexists. split; [by eapply qs_leave|]. by rewrite list_fmap_insert.
    + eexists. split; [by eapply qs_run|]. by rewrite list_fmap_insert.
  - apply list_lookup_fmap_Some in Hi as (t & -> & Hi).
    destruct (is_final_qprog t Hf) as [r ->]. exists (delete i ts).
    split; [by eapply qs_exit|]. by rewrite list_fmap_delete.
Qed.

Lemma conc_qsteps ts w ts' w' :
  rtc (conc_step queued_job) (qprog <$> ts, w) (ts', w') ->
  exists ts'', rtc qstep (ts, w) (ts'', w') /\ ts' = qprog <$> ts''.
Proof.
  remember (qprog <$> ts, w) as c eqn:Ec. remember (ts', w') as c' eqn:Ec'. intros Hr.
  revert ts w Ec. induction Hr as [c|c1 [ts2 w2] c3 H12 _ IH]; intros ts w ->; subst.
  - simplify_eq. by exists ts.
  - destruct (conc_qstep _ _ _ _ H12) as (ts2' & Hq & ->).
    destruct (IH eq_refl ts2' w2 eq_refl) as (ts3 & Hr & ->). exists ts3. split; [|done].
    by eapply rtc_l.
Qed.

(** ** The ticket-lock invariant *)

(** At most one job runs: two running jobs would hold the front ticket. *)
Lemma qinv_one_body ts w i1 i2 k1 k2 j1 j2 :
  qinv (ts, w) -> ts !! i1 = Some (QBody k1 j1) -> ts !! i2 = Some (QBody k2 j2) -> i1 = i2.
Proof.
  intros (Hnd & _ & Hb & _) H1 H2.
  pose proof (Forall_lookup_1 _ _ _ _ Hb H1) as E1. pose proof (Forall_lookup_1 _ _ _ _ Hb H2) as E2.
  simpl in E1, E2. rewrite E1 in E2. injection E2 as <-. by eapply (NoDup_omap_lookup qticket).
Qed.

Lemma qticket_insert_same ts i x y :
  ts !! i = Some x -> qticket y = qticket x -> omap qticket (<[i := y]> ts) ≡ₚ omap qticket ts.
Proof.
  intros Hi Hxy. apply (Permutation_app_inv_r (option_list (qticket x))).
  rewrite (omap_insert_perm _ _ _ _ y Hi). by rewrite Hxy.
Qed.

Lemma head_app_some (q : list nat) n k : head q = Some k -> head (q ++ [n]) = Some k.
Proof. by destruct q. Qed.

Lemma qinv_free ts w i t :
  qinv (ts, w) -> ts !! i = Some t ->
  match t with QFresh j | QWait _ j | QBody _ j => queue_free j | QDone _ => True end.
Proof. intros (_ & _ & _ & Hf) Hi. by eapply Forall_lookup_1 in Hf. Qed.

Lemma qstep_qinv c c' : qstep c c' -> qinv c -> qinv c'.
Proof.
  intros Hst Hinv.
  destruct Hst as [ts w j Hj|i ts w j Hi|i ts w k j Hi Hh|i ts w k g u c Hi Hg|i ts w k j r Hi Hr|i ts w r Hi];
    pose proof Hinv as (Hnd & Hk & Hb & Hf); simpl.
  - rewrite omap_app, app_nil_r. split_and!; [done|done|by apply Forall_app; split; [|constructor]..].
  - pose proof (qinv_free _ _ _ _ Hinv Hi) as Hj. simpl in Hj.
    pose proof (omap_insert_perm qticket _ _ _ (QWait (w_next_ticket w) j) Hi) as Hp.
    simpl in Hp. rewrite app_nil_r in Hp. rewrite Hp. split_and!.
    + apply NoDup_app. split_and!; [done| |by constructor; [set_solver|constructor]].
      intros x Hx ->%list_elem_of_singleton. destruct (proj1 (Forall_forall _ _) Hk _ Hx). lia.
    + apply Forall_app. split; [|constructor; [split; [set_solver|simpl; lia]|done]].
      eapply Forall_impl; [done|]. intros x [? ?]. simpl. split; [set_solver|lia].
    + apply Forall_insert; [|done]. eapply Forall_impl; [exact Hb|]. intros [] ?; simpl in *; try done.
      by apply head_app_some.
    + by apply Forall_insert.
  - pose proof (qinv_free _ _ _ _ Hinv Hi) as Hj. simpl in Hj.
    rewrite (qticket_insert_same _ _ _ (QBody k j) Hi) by done.
    split_and!; [done|done|by apply Forall_insert..].
  - pose proof (qinv_free _ _ _ _ Hinv Hi) as [[Hq Ht] Hc].
    rewrite (qticket_insert_same _ _ _ (QBody k (c w)) Hi) by done. rewrite (Hq w), (Ht w).
    split_and!; [done|done|apply Forall_insert; [done|]|apply Forall_insert; [done|apply Hc]].
    exact (Forall_lookup_1 _ _ _ _ Hb Hi).
  - pose proof (Forall_lookup_1 _ _ _ _ Hb Hi) as Hhd. simpl in Hhd.
    pose proof (omap_insert_perm qticket _ _ _ (QDone r) Hi) as Hp. simpl in Hp.
    rewrite app_nil_r in Hp. rewrite <- Hp in Hnd, Hk.
    apply NoDup_app in Hnd as (Hnd & Hnk & _). apply Forall_app in Hk as [Hk _].
    split_and!; [done| |apply Forall_lookup; intros i' t Hi'|by apply Forall_insert].
    + apply Forall_forall. intros x Hx. eapply Forall_forall in Hk as [Hx' ?]; [|done]. simpl.
      split; [|done]. destruct (w_queue w) as [|k' q]; simplify_eq/=.
      apply elem_of_cons in Hx' as [->|?]; [|done]. destruct (Hnk k Hx). set_solver.
    + apply list_lookup_insert_Some in Hi' as [(-> & <- & _)|(Hne & Hi')]; [done|].
      destruct t as [| |k2 j2|]; [done|done| |done].
      destruct Hne. by eapply (qinv_one_body ts w).
  - pose proof (omap_delete_perm qticket _ _ _ Hi) as Hp. simpl in Hp. rewrite app_nil_r in Hp.
    rewrite Hp. split_and!; [done|done|by apply Forall_delete..].
Qed.

Lemma qsteps_qinv c c' : rtc qstep c c' -> qinv c -> qinv c'.
Proof. induction 1; eauto using qstep_qinv. Qed.

Lemma qinv_fresh js w : Forall queue_free js -> qinv (QFresh <$> js, w).
Proof.
  assert (E : omap qticket (QFresh <$> js) = []) by (induction js as [|a js IH]; [done|exact IH]). intros Hjs.
  unfold qinv. rewrite E. split_and!; [constructor|constructor|apply Forall_fmap, Forall_true; by intros x|].
  apply Forall_fmap. exact Hjs.
Qed.

(** ** Mutual exclusion *)

(** Any jobs that leave the queue alone, put on the queue at the start
    or later: in the annotated history of every interleaving at most one
    job runs, and it holds the front ticket. *)
Lemma queue_mutual_exclusion js w ts w' :
  Forall queue_free js ->
  rtc (conc_step queued_job) (queue_add <$> js, w) (ts, w') ->
  exists qs, ts = qprog <$> qs /\ rtc qstep (QFresh <$> js, w) (qs, w') /\
    (forall i1 i2 k1 k2 j1 j2, qs !! i1 = Some (QBody k1 j1) -> qs !! i2 = Some (QBody k2 j2) -> i1 = i2) /\
    (forall i k j, qs !! i = Some (QBody k j) -> head (w_queue w') = Some k).
Proof.
  intros Hjs Hr. assert (E : queue_add <$> js = qprog <$> (QFresh <$> js)).
  { rewrite <- list_fmap_compose. reflexivity. }
  rewrite E in Hr.
  destruct (conc_qsteps _ _ _ _ Hr) as (qs & Hq & ->). exists qs.
  pose proof (qsteps_qinv _ _ Hq (qinv_fresh js w Hjs)) as Hinv.
  split_and!; [done|done|intros; by eapply qinv_one_body|].
  intros i k j Hi. destruct Hinv as (_ & _ & Hb & _). exact (Forall_lookup_1 _ _ _ _ Hb Hi).
Qed.

(** ** The close job of [close.js] *)

(** The job a user's close puts on the queue leaves the queue alone. *)
Lemma queue_free_userCloseJob t : queue_free (userCloseJob t).
Proof.
  unfold queue_free, userCloseJob, postSystemMessage, close, thread_update_at.
  apply all_steps_bind; [apply all_steps_act|intros _]; [done|].
  apply all_steps_bind; [apply all_steps_act_result|intros _].
  - split; intros w; by repeat case_match.
  - apply all_steps_bind; [done|intros _]. by apply all_steps_act.
Qed.

(** The tasks [close] from direct messages starts for the threads [ths]. *)
Definition user_close_pool (ths : list Thread) : list (M unit) :=
  (fun t => queue_add (userCloseJob t)) <$> ths.

(** C31: safety of the message queue of spec 4.3 as [close.js] uses it:
    start the queued jobs of users' closes of any threads, let the event
    loop start any number of further queued jobs (of user closes or any
    other job that leaves the queue alone) at any time, and interleave
    them all in any order.  Every pool the event loop reaches is the image
    ([qprog]) of an annotated pool reached by [qstep], the task-by-task
    history, in which at most one job is running, and the running job
    holds the ticket at the front of the queue: a user's close notice and
    teardown never overlap another queued job. *)
Theorem user_close_jobs_exclusive ths w ts w' :
  rtc (conc_step queued_job) (user_close_pool ths, w) (ts, w') ->
  exists qs : list qtask, ts = qprog <$> qs /\ rtc qstep ((fun t => QFresh (userCloseJob t)) <$> ths, w) (qs, w') /\
    (forall i1 i2 k1 k2 j1 j2, qs !! i1 = Some (QBody k1 j1) -> qs !! i2 = Some (QBody k2 j2) -> i1 = i2) /\
    (forall i k j, qs !! i = Some (QBody k j) -> head (w_queue w') = Some k).
Proof.
  intros Hr. unfold user_close_pool in Hr. rewrite (list_fmap_compose userCloseJob queue_add) in Hr.
  rewrite (list_fmap_compose userCloseJob QFresh).
  apply (queue_mutual_exclusion _ _ _ _ (proj2 (Forall_fmap _ _ _) (Forall_true _ _ queue_free_userCloseJob)) Hr).
Qed.

(** The pool after [ana]'s job has taken ticket 0, [dan]'s ticket 1, and
    [ana]'s job has started. *)
Definition two_jobs_ops : list (sched_op (S:=world)) := [Go 0; Go 1; Go 0].

Definition two_jobs_end : list (M unit) * world :=
  default ([], w_two) (exec two_jobs_ops (user_close_pool [threadA; threadD], w_two)).

(** C31 on the user closes of [threadA] and [threadD] at [w_two]. *)
Lemma user_close_jobs_exclusive_witness :
  rtc (conc_step queued_job) (user_close_pool [threadA; threadD], w_two) (two_jobs_end.1, two_jobs_end.2) /\
  exists qs : list qtask, two_jobs_end.1 = qprog <$> qs /\
    rtc qstep ((fun t => QFresh (userCloseJob t)) <$> [threadA; threadD], w_two) (qs, two_jobs_end.2) /\
    (forall i1 i2 k1 k2 j1 j2, qs !! i1 = Some (QBody k1 j1) -> qs !! i2 = Some (QBody k2 j2) -> i1 = i2) /\
    (forall i k j, qs !! i = Some (QBody k j) -> head (w_queue two_jobs_end.2) = Some k).
Proof.
  assert (Hr : rtc (conc_step queued_job) (user_close_pool [threadA; threadD], w_two)
                 (two_jobs_end.1, two_jobs_end.2)).
  { apply (exec_sound _ two_jobs_ops); [repeat constructor|vm_compute; reflexivity]. }
  split; [exact Hr|]. exact (user_close_jobs_exclusive _ _ _ _ Hr).
Defined.
