(* ===== verification/Alert.v ===== *)
(** * [modules/alert.js]

    The [alert] command: in a thread channel, [alert] asks to be mentioned
    on the thread's next reply, and [alert <opt>] with an option starting
    with [c] cancels the request.  The command framework passes the OPEN
    thread of the channel. *)

From S2P Require Import Prelude Async Thread Store World Fixtures.

Section Alert.

(** [args.opt && args.opt.startsWith('c')]. *)
Definition isCancel (opt : option string) : bool :=
  match opt with Some o => truthy_str (Some o) && starts_with "c" o | None => false end.

Definition alertSetMessage (author : User) : string :=
  "Mencionando a " ++ username author ++ "#" ++ discriminator author
  ++ " cuando este hilo obtenga una nueva respuesta".

Definition alertCommand (msg : Message) (opt : option string) (thread : Thread) : M unit :=
  if isCancel opt
  then bind (setAlert None thread) (fun _ =>
       postSystemMessage thread "Alerta de nuevo mensaje cancelada")
  else bind (setAlert (Some (uid (msg_author msg))) thread) (fun _ =>
       postSystemMessage thread (alertSetMessage (msg_author msg))).

(** C16: [alert] in the channel of a stored thread records the author as the
    alert target of the current row, changes nothing else, and confirms in
    the thread; [alert c...] clears the target.  The status is untouched. *)
Theorem alertCommand_spec w msg opt t row :
  w_store w !! thread_id t = Some row ->
  let target := if isCancel opt then None else Some (uid (msg_author msg)) in
  let text := if isCancel opt then "Alerta de nuevo mensaje cancelada"
              else alertSetMessage (msg_author msg) in
  run 2 (alertCommand msg opt t) w =
    Some (Done tt, emit (SystemMessage (channel_id t) text)
                     (set_store (save (set_alert_thread target row) (w_store w)) w)).
Proof. intros Hrow target text. unfold alertCommand, target, text. by destruct (isCancel opt); cbn; rewrite Hrow. Qed.

Lemma keeps_wf_alertCommand msg opt t : keeps_wf (alertCommand msg opt t).
Proof. unfold alertCommand, postSystemMessage. keeps. Qed.

Lemma segs_ok_alertCommand msg opt t : segs_ok (alertCommand msg opt t).
Proof. unfold alertCommand, postSystemMessage. segs. Qed.

Lemma terminates_alertCommand msg opt t : terminates (alertCommand msg opt t).
Proof. unfold alertCommand, postSystemMessage. terminates_tac. Qed.

End Alert.

(** ** Witnesses on the fixture worlds *)

(** [alert] by [sam] in [threadA]'s channel at [w0]. *)
Lemma alertCommand_spec_witness :
  w_store w0 !! "a" = Some threadA /\
  run 2 (alertCommand staff_msg None threadA) w0 =
    Some (Done tt, emit (SystemMessage "c1" (alertSetMessage sam))
                     (set_store (save (set_alert_thread (Some "s1") threadA) (w_store w0)) w0)).
Proof.
  assert (Hrow : w_store w0 !! "a" = Some threadA) by (vm_compute; reflexivity).
  split; [exact Hrow|]. exact (alertCommand_spec w0 staff_msg None threadA threadA Hrow).
Defined.
