(* ===== verification/NewThread.v ===== *)
(** * [modules/newthread.js]

    The [newthread <userId>] command: staff open a thread with a user.  The
    handler looks the user up in the bot's cache ([bot.users.get], the
    configuration's [getUser]), refuses when the user already has an OPEN
    thread, and otherwise creates the thread and announces it.  The two
    announcements are not awaited; each is one step at its call. *)

From S2P Require Import Prelude Async Thread Store World Fixtures.

Section NewThread.
Context (env : Env).

Definition existingThreadMessage (existing : Thread) : string :=
  "No se puede crear un nuevo hilo; hay uno ya abierto con el usuario: <#" ++ channel_id existing ++ ">".

Definition openedByMessage (author : User) : string :=
  "El hilo fue abierto por " ++ username author ++ "#" ++ discriminator author.

Definition openedMessage (created : Thread) : string :=
  "Hilo abierto: <#" ++ channel_id created ++ ">".

Definition newthreadCommand (msg : Message) (userId : string) (thread : option Thread) : M unit :=
  match getUser env userId with
  | None => postSystemMessageWithFallback (msg_channel_id msg) thread "Usuario no encontrado!"
  | Some user =>
      bind (q_findOpenThreadByUserId (uid user)) (fun existingThread =>
      match existingThread with
      | Some existing =>
          postSystemMessageWithFallback (msg_channel_id msg) thread (existingThreadMessage existing)
      | None =>
          bind (q_createNewThreadForUser user) (fun createdThread =>
          bind (postSystemMessage createdThread (openedByMessage (msg_author msg))) (fun _ =>
          createMessage (msg_channel_id msg) (openedMessage createdThread)))
      end)
  end.

(** The thread [newthread] creates for [user] in the table [m]. *)
Definition created_thread (user : User) (m : store) : Thread :=
  new_thread (new_tid m) (new_cid m) user.

Lemma new_tid_fresh m : m !! new_tid m = None.
Proof. apply not_elem_of_dom. unfold new_tid. apply (is_fresh (dom m)). Qed.

(** Creating a thread leaves the other rows in place. *)
Lemma create_lookup m cid u k t :
  m !! k = Some t -> createNewThreadForUser (new_tid m) cid u m !! k = Some t.
Proof.
  intros Hk. unfold createNewThreadForUser, save. rewrite lookup_insert_ne; [done|].
  change (new_tid m <> k). intros <-. by rewrite new_tid_fresh in Hk.
Qed.

(** Creating the thread of a user without an OPEN thread keeps the
    invariant, and the new row is the user's OPEN thread. *)
Lemma create_fresh_wf m user :
  store_wf m -> findOpenThreadByUserId (uid user) m = None ->
  store_wf (save (created_thread user m) m) /\
  findOpenThreadByUserId (uid user) (save (created_thread user m) m) = Some (created_thread user m).
Proof.
  intros Hwf Hn. assert (Hwf' : store_wf (save (created_thread user m) m)).
  { by apply create_wf; [|apply new_tid_fresh|]. }
  split; [done|]. change (uid user) with (user_id (created_thread user m)).
  eapply findOpenThreadByUserId_row; [done| |done]. unfold save. apply lookup_insert_eq.
Qed.

(** C14: [newthread] for a known user without an OPEN thread terminates
    after four steps: it inserts a new OPEN row with a fresh id and channel,
    which becomes the user's one OPEN thread (the invariant is kept), posts
    who opened it in the new channel, and links the new channel where the
    command was typed. *)
Theorem newthreadCommand_creates w msg userId th user :
  store_wf (w_store w) -> getUser env userId = Some user ->
  findOpenThreadByUserId (uid user) (w_store w) = None ->
  let t := created_thread user (w_store w) in
  exists w', run 4 (newthreadCommand msg userId th) w = Some (Done tt, w') /\
    w_store w' = save t (w_store w) /\ store_wf (w_store w') /\
    findOpenThreadByUserId (uid user) (w_store w') = Some t /\
    w_effects w' = w_effects w ++ [SystemMessage (channel_id t) (openedByMessage (msg_author msg));
                                   ChannelMessage (msg_channel_id msg) (openedMessage t)].
Proof.
  intros Hwf Hu Hn t. destruct (create_fresh_wf _ user Hwf Hn) as [Hwf' Hf'].
  eexists. split; [unfold newthreadCommand; rewrite Hu; cbn; rewrite Hn; reflexivity|].
  split_and!; [reflexivity|exact Hwf'|exact Hf'|]. simpl. by rewrite <- app_assoc.
Qed.

(** C15: [newthread] for a user who already has an OPEN thread changes no
    row and answers with a link to the existing thread's channel. *)
Theorem newthreadCommand_existing w msg userId th user existing :
  getUser env userId = Some user ->
  findOpenThreadByUserId (uid user) (w_store w) = Some existing ->
  run 2 (newthreadCommand msg userId th) w =
    Some (Done tt, emit (match th with
                         | Some t => SystemMessage (channel_id t) (existingThreadMessage existing)
                         | None => ChannelMessage (msg_channel_id msg) (existingThreadMessage existing)
                         end) w).
Proof. intros Hu He. unfold newthreadCommand. rewrite Hu. cbn. rewrite He. by destruct th. Qed.

(** The check and the creation are consecutive steps of one run, so
    [newthread] alone keeps the invariant. *)
Lemma keeps_wf_newthreadCommand msg userId th : keeps_wf (newthreadCommand msg userId th).
Proof.
  unfold newthreadCommand, postSystemMessageWithFallback, postSystemMessage, createMessage.
  destruct (getUser env userId) as [user|]; [|keeps].
  intros w Hw. apply pwp_bind, pwp_act. cbv beta iota.
  destruct (findOpenThreadByUserId _ _) as [e|] eqn:Hn; [destruct th; by apply pwp_act|].
  apply pwp_bind, pwp_act. cbv beta iota. apply pwp_bind, pwp_act. cbv beta iota.
  apply pwp_act. by apply create_fresh_wf.
Qed.

Lemma segs_ok_newthreadCommand msg userId th : segs_ok (newthreadCommand msg userId th).
Proof.
  unfold newthreadCommand, postSystemMessageWithFallback, postSystemMessage, createMessage, query.
  segs.
Qed.

Lemma terminates_newthreadCommand msg userId th : terminates (newthreadCommand msg userId th).
Proof.
  unfold newthreadCommand, postSystemMessageWithFallback, postSystemMessage, createMessage, query,
    q_createNewThreadForUser.
  terminates_tac.
Qed.

End NewThread.

(** ** Witnesses on the fixture worlds *)

(** [newthread u3] at [w0]: [cleo] has no thread yet. *)
Lemma newthreadCommand_creates_witness :
  store_wf (w_store w0) /\ getUser env0 "u3" = Some cleo /\
  findOpenThreadByUserId "u3" (w_store w0) = None /\
  let t := created_thread cleo (w_store w0) in
  exists w', run 4 (newthreadCommand env0 staff_msg "u3" (Some threadA)) w0 = Some (Done tt, w') /\
    w_store w' = save t (w_store w0) /\ store_wf (w_store w') /\
    findOpenThreadByUserId "u3" (w_store w') = Some t /\
    w_effects w' = w_effects w0 ++ [SystemMessage (channel_id t) (openedByMessage sam);
                                    ChannelMessage "c1" (openedMessage t)].
Proof.
  assert (Hwf : store_wf (w_store w0)) by (apply (bool_decide_unpack _); vm_compute; reflexivity).
  assert (Hu : getUser env0 "u3" = Some cleo) by reflexivity.
  assert (Hn : findOpenThreadByUserId "u3" (w_store w0) = None) by (vm_compute; reflexivity).
  split_and!; [exact Hwf|exact Hu|exact Hn|].
  exact (newthreadCommand_creates env0 w0 staff_msg "u3" (Some threadA) cleo Hwf Hu Hn).
Defined.

(** [newthread u1] at [w0]: [ana] already has [threadA]. *)
Lemma newthreadCommand_existing_witness :
  getUser env0 "u1" = Some ana /\ findOpenThreadByUserId "u1" (w_store w0) = Some threadA /\
  run 2 (newthreadCommand env0 staff_msg "u1" None) w0 =
    Some (Done tt, emit (ChannelMessage "c1" (existingThreadMessage threadA)) w0).
Proof.
  assert (Hu : getUser env0 "u1" = Some ana) by reflexivity.
  assert (He : findOpenThreadByUserId "u1" (w_store w0) = Some threadA) by (vm_compute; reflexivity).
  split_and!; [exact Hu|exact He|].
  exact (newthreadCommand_existing env0 w0 staff_msg "u1" None ana threadA Hu He).
Defined.
