(* ===== verification/Bot.v ===== *)
(** * The bot: the events the modules handle, one at a time

    [event] lists what reaches the modules: the commands they register
    ([close], [suspend], [suspend cancel], [unsuspend], [alert],
    [newthread]), the [channelDelete] gateway event, an iteration of either
    scheduler loop, and the passing of time.  [handle] dispatches an event
    to its handler.  [seq_step] runs one handler to completion; its
    reflexive-transitive closure gives the worlds reachable when no two
    handlers overlap.  The theorems show that in those worlds the table
    invariant (at most one OPEN thread per user, spec section 8) holds, and
    that a suspension scheduled and
    then overtaken by a close is never applied (a scenario of spec 8). *)

From S2P Require Import Prelude Async Thread Store World Fixtures Close Suspend Alert NewThread.

Inductive event :=
| CloseCmd (msg : Message) (opts : list string)
| ChannelDelete (ch : DeletedChannel)
| SuspendCancelCmd (thread : Thread)
| SuspendCmd (msg : Message) (delay : option Z) (thread : Thread)
| UnsuspendCmd (msg : Message) (thread : option Thread)
| AlertCmd (msg : Message) (opt : option string) (thread : Thread)
| NewThreadCmd (msg : Message) (userId : string) (thread : option Thread)
| CloseTick
| SuspendTick
| TimePasses (ms : Z).

Section Bot.
Context (env : Env).

Definition handle (e : event) : M unit :=
  match e with
  | CloseCmd msg opts => closeCommand env msg opts
  | ChannelDelete ch => onChannelDelete env ch
  | SuspendCancelCmd t => suspendCancel t
  | SuspendCmd msg delay t => suspendCommand env msg delay t
  | UnsuspendCmd msg th => unsuspendCommand msg th
  | AlertCmd msg opt t => alertCommand msg opt t
  | NewThreadCmd msg userId th => newthreadCommand env msg userId th
  | CloseTick => scheduledCloseTick env
  | SuspendTick => scheduledSuspendTick env
  | TimePasses ms => sleep ms
  end.

(** One event handled to completion, whether it resolved or rejected. *)
Inductive seq_step : world -> world -> Prop :=
| ss_event e n o w w' : run n (handle e) w = Some (o, w') -> seq_step w w'.

Lemma keeps_wf_handle e : keeps_wf (handle e).
Proof.
  destruct e; simpl.
  - apply keeps_wf_closeCommand.
  - apply keeps_wf_onChannelDelete.
  - apply keeps_wf_suspendCancel.
  - apply keeps_wf_suspendCommand.
  - apply keeps_wf_unsuspendCommand.
  - apply keeps_wf_alertCommand.
  - apply keeps_wf_newthreadCommand.
  - apply keeps_wf_scheduledCloseTick.
  - apply keeps_wf_scheduledSuspendTick.
  - unfold sleep. keeps.
Qed.

Lemma segs_ok_handle e : segs_ok (handle e).
Proof.
  destruct e; simpl.
  - apply segs_ok_closeCommand.
  - apply segs_ok_onChannelDelete.
  - apply segs_ok_suspendCancel.
  - apply segs_ok_suspendCommand.
  - apply segs_ok_unsuspendCommand.
  - apply segs_ok_alertCommand.
  - apply segs_ok_newthreadCommand.
  - apply segs_ok_scheduledCloseTick.
  - apply segs_ok_scheduledSuspendTick.
  - exact (segs_ok_act _ (fun _ => tt) (same_store_advance_clock ms) (same_queue_advance_clock ms)
      (same_ticket_advance_clock ms)).
Qed.

(** C6: when events are handled one at a time, every reachable world keeps
    the table invariant: rows under their ids, scheduled actions only on
    OPEN threads, and at most one OPEN thread per user. *)
Theorem sequential_store_wf w w' :
  store_wf (w_store w) -> rtc seq_step w w' -> store_wf (w_store w').
Proof.
  intros Hw Hr. induction Hr as [w|w1 w2 w3 [e n o ? ? Hrun] _ IH]; [done|].
  apply IH. by eapply keeps_wf_handle.
Qed.

(** ** Handlers in sequence *)

(** C29: the spec-8 scenario of a suspension scheduled and then overtaken
    by a close: [suspend <d>] on an OPEN thread, then a staff [close] in its
    channel, then [ms >= d] milliseconds, then an iteration of the
    scheduled-suspend loop.  The loop runs after the suspension's scheduled
    time, yet the thread ends CLOSED with neither scheduled action, exactly
    the row a close without any schedule would leave: the close cleared
    the scheduled suspension, so the thread no longer matches the due
    query. *)
Theorem suspend_then_close_disarms w msg msg' t d ms :
  store_wf (w_store w) ->
  msg_is_private msg' = false -> msg_on_inbox_server msg' = true -> msg_member_is_staff msg' = true ->
  findOpenThreadByChannelId (msg_channel_id msg') (w_store w) = Some t -> d <> 0%Z -> (d <= ms)%Z ->
  exists n w', run n (bind (handle (SuspendCmd msg (Some d) t)) (fun _ =>
                      bind (handle (CloseCmd msg' [])) (fun _ =>
                      bind (handle (TimePasses ms)) (fun _ => handle SuspendTick)))) w = Some (Done tt, w') /\
    (db_time (w_now w + d) <= db_time (w_now w'))%Z /\
    w_store w' !! thread_id t = Some (closed_row t).
Proof.
  intros Hwf Hpriv Hin Hstaff Hfind Hd Hms.
  destruct (findOpenThreadByChannelId_Some _ _ _ Hwf Hfind) as (Hrow & Hopen & _).
  set (t1 := with_suspend (Some (db_time (w_now w + d))) (Some (uid (msg_author msg)))
               (Some (username (msg_author msg))) t).
  assert (Hwf1 : store_wf (save t1 (w_store w))).
  { apply (save_step_same_status_wf _ t); [done|done| |done].
    eapply ts_schedule_suspend. unfold schedule_suspend_thread. by rewrite Hopen. }
  assert (Hwf2 : store_wf (save (closed_row t1) (save t1 (w_store w)))).
  { apply (save_step_not_open_wf _ t1); [done|by rewrite save_lookup| |done].
    constructor. by apply close_thread_open. }
  assert (Hclosed : closed_row t1 = closed_row t) by (destruct t; reflexivity).
  cut (wp (fun o w' => o = Done tt /\ (db_time (w_now w + d) <= db_time (w_now w'))%Z /\
         w_store w' !! thread_id t = Some (closed_row t)) (bind (handle (SuspendCmd msg (Some d) t)) (fun _ =>
                      bind (handle (CloseCmd msg' [])) (fun _ =>
                      bind (handle (TimePasses ms)) (fun _ => handle SuspendTick)))) w).
  { intros (n & o & w' & Hr & -> & ?)%wp_adequate. eauto. }
  unfold handle. apply wp_bind, wp_suspendCommand_scheduled; [done..|]. wp_post.
  apply wp_bind. eapply wp_mono; [|apply (wp_closeCommand_staff env _ msg' [] t1); [exact Hwf1|done|done|done| |done|done]].
  2:{ by apply (find_save _ _ t); [apply Hwf|done..]. }
  intros o w2 [-> ->]. wp_post. unfold sleep. apply wp_bind, wp_act. wp_post.
  eapply wp_mono; [|apply wp_scheduledSuspendTick; simpl; case_match; by autorewrite with modmail_rw].
  intros o w4 (-> & Hs4 & _ & Hn4). split_and!; [done| |].
  - rewrite Hn4. simpl. destruct (truthy_str (closeMessage env) && true); simpl; rewrite ?deliver_now; simpl;
      apply Z.div_le_mono; lia.
  - rewrite Hs4. simpl. destruct (truthy_str (closeMessage env) && true); simpl; autorewrite with modmail_rw;
      (rewrite bool_decide_eq_false_2; [rewrite <- Hclosed; by apply save_lookup|]);
      change (thread_id t) with (thread_id (closed_row t1)); unfold getThreadsThatShouldBeSuspended;
      (rewrite filter_ids_row; [done|done|by apply save_lookup]).
Qed.

End Bot.

(** ** Witness *)

(** [w1] after [unsuspend] in [c0] and then [newthread u1]. *)
Definition w1_after : world :=
  let step e w := match run 10 (handle env0 e) w with Some (_, w') => w' | None => w end in
  step (NewThreadCmd (staff_msg_in "c0") "u1" None) (step (UnsuspendCmd (staff_msg_in "c0") None) w1).

Lemma sequential_store_wf_witness :
  store_wf (w_store w1) /\ rtc (seq_step env0) w1 w1_after /\ store_wf (w_store w1_after).
Proof.
  assert (Hwf : store_wf (w_store w1)) by (apply (bool_decide_unpack _); vm_compute; reflexivity).
  assert (Hr : rtc (seq_step env0) w1 w1_after).
  { eapply rtc_l; [eapply (ss_event env0 (UnsuspendCmd (staff_msg_in "c0") None) 10); vm_compute; reflexivity|].
    eapply rtc_l; [eapply (ss_event env0 (NewThreadCmd (staff_msg_in "c0") "u1" None) 10); vm_compute; reflexivity|].
    apply rtc_refl. }
  split_and!; [exact Hwf|exact Hr|]. exact (sequential_store_wf env0 w1 w1_after Hwf Hr).
Defined.

(** C29 in [threadB]'s channel [c2] at [w_susp]: [suspend] in one hour,
    [close], one hour later a suspend tick. *)
Lemma suspend_then_close_disarms_witness :
  store_wf (w_store w_susp) /\ findOpenThreadByChannelId "c2" (w_store w_susp) = Some threadB /\
  exists n w', run n (bind (handle env0 (SuspendCmd (staff_msg_in "c2") (Some 3600000%Z) threadB)) (fun _ =>
                      bind (handle env0 (CloseCmd (staff_msg_in "c2") [])) (fun _ =>
                      bind (handle env0 (TimePasses 3600000)) (fun _ => handle env0 SuspendTick)))) w_susp
                 = Some (Done tt, w') /\
    (db_time (w_now w_susp + 3600000) <= db_time (w_now w'))%Z /\
    w_store w' !! thread_id threadB = Some (closed_row threadB).
Proof.
  assert (Hwf : store_wf (w_store w_susp)) by (apply (bool_decide_unpack _); vm_compute; reflexivity).
  assert (Hf : findOpenThreadByChannelId "c2" (w_store w_susp) = Some threadB) by (vm_compute; reflexivity).
  split; [exact Hwf|split; [exact Hf|]].
  exact (suspend_then_close_disarms env0 w_susp (staff_msg_in "c2") (staff_msg_in "c2") threadB 3600000 3600000
           Hwf eq_refl eq_refl eq_refl Hf ltac:(lia) ltac:(lia)).
Defined.
