(* ===== verification/Interleave.v ===== *)
(** * Handlers interleaved on the event loop

    Node runs every handler as an [async] function on one event loop: a
    handler runs until its next [await], and meanwhile other events start
    handlers and other handlers resume.  [conc_step] ([Async.v]) is that
    semantics over a pool of tasks; here the tasks are the handlers of
    [Bot.handle], started by incoming events at any time.

    The results are races the code leaves open, each shown for any world
    that meets its hypotheses, by an explicit schedule of the event loop:
    - "one OPEN thread per user" is kept by each handler run alone
      ([Bot.sequential_store_wf]) but not by interleavings, because
      [unsuspend] and [newthread] check for an OPEN thread and write in two
      different steps with an [await] between them;
    - a channel deleted during a scheduled-close tick makes the tick send a
      second farewell and skip the remaining due threads;
    - a thread due both to close and to be suspended either loses its
      close or goes through both transitions, against the tie-break of
      spec 4.2. *)

From S2P Require Import Prelude Async Thread Store World Fixtures Close Suspend Alert NewThread Bot.

(** Steps of an explicit schedule. *)
Ltac spawn_ev env e := eapply rtc_l; [apply (cs_spawn _ (handle env e)); by exists e|]; cbn [app].
Ltac go i := eapply rtc_l; [eapply (cs_step _ i); reflexivity|]; cbn -[findSuspendedThreadByChannelId
  findOpenThreadByUserId new_tid new_cid createNewThreadForUser save].
Ltac leave i := eapply rtc_l; [eapply (cs_exit _ i); reflexivity|]; cbn.

Section Interleave.
Context (env : Env).

(** A task the event loop may start: the handler of some event. *)
Definition spawn_handler (p : M unit) : Prop := exists e, p = handle env e.

Abbreviation bot_step := (conc_step spawn_handler).

(** C18: the time-of-check/time-of-use race between [unsuspend] and
    [newthread]: from a well-formed table with a SUSPENDED thread [c] whose
    user has no OPEN thread, staff typing [unsuspend] in [c]'s channel
    while [newthread] is run for the same user can end, with both
    handlers finished, with two OPEN threads for that user: both checks
    run before either write. *)
Theorem unsuspend_newthread_race w msg userId c user :
  store_wf (w_store w) ->
  findSuspendedThreadByChannelId (msg_channel_id msg) (w_store w) = Some c ->
  findOpenThreadByUserId (user_id c) (w_store w) = None ->
  getUser env userId = Some user -> uid user = user_id c ->
  exists w', rtc bot_step ([], w) ([], w') /\
    exists k1 k2 t1 t2, k1 <> k2 /\ w_store w' !! k1 = Some t1 /\ w_store w' !! k2 = Some t2 /\
      status t1 = OPEN /\ status t2 = OPEN /\ user_id t1 = user_id t2.
Proof.
  intros Hwf Hs Ho Hu Huid.
  destruct (findSuspendedThreadByChannelId_Some _ _ _ Hwf Hs) as (Hrow & Hst & _).
  eexists. split.
  - spawn_ev env (UnsuspendCmd msg None). spawn_ev env (NewThreadCmd msg userId None).
    go 0. rewrite Hs. go 0. rewrite Ho. unfold newthreadCommand. rewrite Hu.
    go 1. rewrite Huid, Ho. go 1. go 0. rewrite (create_lookup _ _ _ _ _ Hrow).
    assert (Hun : unsuspend_thread c = Some (with_status OPEN c)) by (unfold unsuspend_thread; by rewrite Hst).
    cbn. rewrite Hun. go 0. leave 0. go 0. go 0. leave 0. apply rtc_refl.
  - assert (Hne : thread_id c <> new_tid (w_store w)).
    { intros Heq. pose proof (new_tid_fresh (w_store w)) as Hf. congruence. }
    exists (thread_id c), (new_tid (w_store w)), (with_status OPEN c),
      (created_thread user (w_store w)).
    cbn. unfold save. split_and!; [done|by apply lookup_insert_eq| |done|done|done].
    rewrite lookup_insert_ne by done. by apply lookup_insert_eq.
Qed.

(** C19: a scheduled-close tick does not isolate a failing thread.  When
    the threads [a] and [b] are due and [a]'s channel is deleted right
    after the tick has read them, the auto-close closes [a]; the tick then
    sends [a]'s user the farewell a second time before its [close] fails,
    and the failure ends the whole tick: it is logged, and [b] stays OPEN
    with its close still due, although it was due and never failed. *)
Theorem tick_race_skips_remaining w ch a b :
  store_wf (w_store w) ->
  getThreadsThatShouldBeClosed (db_time (w_now w)) (w_store w) = [a; b] ->
  dc_is_text ch = true -> dc_on_inbox ch = true ->
  findOpenThreadByChannelId (dc_id ch) (w_store w) = Some a ->
  truthy_str (closeMessage env) = true -> scheduled_close_silent a = false ->
  user_id a ∉ w_unreachable w ->
  exists w', rtc bot_step ([], w) ([], w') /\
    w_store w' = save (closed_row a) (w_store w) /\ w_store w' !! thread_id b = Some b /\
    w_effects w' = w_effects w ++
      [ConsoleLog (autoCloseLine a); ToUser (user_id a) (closeMessageText env);
       ChannelDeleted (channel_id a); AuditLog (channelDeletedLog a (logUrl env (thread_id a)));
       ToUser (user_id a) (closeMessageText env); ConsoleError (Error "Thread is already closed")].
Proof.
  intros Hwf Hdue Htext Hin Hfind Hmsg Hsil Hreach.
  destruct (findOpenThreadByChannelId_Some _ _ _ Hwf Hfind) as (Hrow & Hopen & _).
  assert (Hb : w_store w !! thread_id b = Some b /\ thread_id b <> thread_id a).
  { pose proof (threads_of_NoDup_ids _ Hwf) as Hnd.
    assert (Hbin : b ∈ getThreadsThatShouldBeClosed (db_time (w_now w)) (w_store w))
      by (rewrite Hdue; set_solver).
    apply elem_of_getThreadsThatShouldBeClosed in Hbin as ([k Hk] & _).
    split; [apply store_wf_row; [done|]; apply elem_of_threads_of; eauto|].
    pose proof (NoDup_fmap_filter thread_id (fun t => is_open t && due (scheduled_close_at t) (db_time (w_now w))) _ Hnd) as Hnd'.
    change (List.filter _ _) with (getThreadsThatShouldBeClosed (db_time (w_now w)) (w_store w)) in Hnd'.
    rewrite Hdue in Hnd'. simpl in Hnd'. apply NoDup_cons in Hnd' as [Hn _]. set_solver. }
  destruct Hb as [Hbrow Hba].
  eexists. split.
  - spawn_ev env CloseTick. go 0. rewrite Hdue. spawn_ev env (ChannelDelete ch).
    unfold handle, onChannelDelete. rewrite Htext, Hin. cbn. go 1. rewrite Hfind, Hmsg.
    go 1. go 1. rewrite (bool_decide_eq_false_2 _ Hreach). cbn. go 1.
    rewrite Hrow. cbn. rewrite (close_thread_open a Hopen). cbn. go 1. go 1. go 1. leave 1.
    unfold applyScheduledClose. rewrite Hmsg, Hsil. cbn. go 0.
    rewrite (bool_decide_eq_false_2 _ Hreach). cbn. go 0.
    assert (Hc : <[thread_id a := closed_row a]> (w_store w) !! thread_id a = Some (closed_row a))
      by apply lookup_insert_eq.
    rewrite Hc. cbn. go 0. leave 0. apply rtc_refl.
  - cbn. split_and!; [done| |by rewrite <- !app_assoc].
    unfold save. rewrite lookup_insert_ne; [done|]. by apply not_eq_sym.
Qed.

(** C30: the tie-break of spec 4.2 does not hold.  Take a thread [x] that is
    the only one due for its scheduled close and the only one due for its
    scheduled suspension.  If the scheduled-suspend tick runs first, it
    suspends [x] and clears both schedules, so the due close is dropped:
    [x] stays SUSPENDED and is never again among the threads due to close.
    If instead the close tick reads [x] and the suspend tick then reads and
    suspends it, the close tick goes on with the row it read.  Both
    transitions apply: the farewell, the closing notice, the channel's
    deletion and the audit line come first, and the suspension notice is
    posted after the channel is gone.  Whichever loop observes the thread
    first, neither one wins. *)
Theorem due_close_and_suspend_race w x :
  store_wf (w_store w) ->
  getThreadsThatShouldBeClosed (db_time (w_now w)) (w_store w) = [x] ->
  getThreadsThatShouldBeSuspended (db_time (w_now w)) (w_store w) = [x] ->
  truthy_str (closeMessage env) = true -> scheduled_close_silent x = false -> user_id x ∉ w_unreachable w ->
  (exists w', rtc bot_step ([], w) ([], w') /\
     w_store w' = save (with_status SUSPENDED (clear_schedules x)) (w_store w) /\
     w_effects w' = w_effects w ++ scheduledSuspendEffects env x /\
     forall now, thread_id x ∉ thread_id <$> getThreadsThatShouldBeClosed now (w_store w')) /\
  (exists w', rtc bot_step ([], w) ([], w') /\
     w_store w' = save (closed_row x) (w_store w) /\
     w_effects w' = w_effects w ++ scheduledCloseEffects env (w_unreachable w) x ++ scheduledSuspendEffects env x).
Proof.
  intros Hwf Hdc Hds Hmsg Hsil Hreach.
  assert (Hx : x ∈ getThreadsThatShouldBeClosed (db_time (w_now w)) (w_store w)) by (rewrite Hdc; set_solver).
  apply elem_of_getThreadsThatShouldBeClosed in Hx as ([k Hk] & Hopen & _).
  assert (Hrow : w_store w !! thread_id x = Some x)
    by (apply store_wf_row; [done|apply elem_of_threads_of; eauto]).
  assert (Ho : is_open x = true) by (unfold is_open; by rewrite bool_decide_eq_true).
  assert (Hsus : suspend_thread x = Some (with_status SUSPENDED (clear_schedules x)))
    by (unfold suspend_thread; by rewrite Hopen).
  split.
  - eexists. split_and!.
    + spawn_ev env SuspendTick. go 0. rewrite Hds. cbn [for_each]. unfold applyScheduledSuspension.
      rewrite Ho. go 0. rewrite Hrow. cbn. rewrite Hsus. cbn. go 0. leave 0. apply rtc_refl.
    + done.
    + done.
    + intros now. cbn [w_store emit set_store].
      assert (Hwf' : store_wf (save (with_status SUSPENDED (clear_schedules x)) (w_store w))).
      { apply (save_step_not_open_wf _ x); [done|done|by apply ts_suspend|done]. }
      change (thread_id x) with (thread_id (with_status SUSPENDED (clear_schedules x))).
      rewrite (due_close_ids _ _ _ Hwf' (save_lookup _ _ _ eq_refl)). by intros [? _].
  - eexists. split_and!.
    + spawn_ev env CloseTick. go 0. rewrite Hdc.
      spawn_ev env SuspendTick. go 1. rewrite Hds. cbn [for_each]. unfold applyScheduledSuspension.
      rewrite Ho. go 1. rewrite Hrow. cbn. rewrite Hsus. cbn.
      unfold applyScheduledClose. rewrite Hmsg, Hsil. cbn.
      go 0. rewrite (bool_decide_eq_false_2 _ Hreach). cbn.
      go 0. rewrite lookup_insert_eq. cbn.
      go 0. go 0. go 0. go 0. leave 0. go 0. leave 0. apply rtc_refl.
    + cbn. unfold save. by rewrite insert_insert_eq.
    + cbn. unfold scheduledCloseEffects. rewrite Hmsg, Hsil, (bool_decide_eq_false_2 _ Hreach).
      cbn. by rewrite <- !app_assoc.
Qed.

End Interleave.

(** ** Witnesses on the fixture worlds *)

(** C18 at [w1]: [unsuspend] in [c0] and [newthread u1] for [ana]. *)
Lemma unsuspend_newthread_race_witness :
  store_wf (w_store w1) /\
  findSuspendedThreadByChannelId (msg_channel_id (staff_msg_in "c0")) (w_store w1) = Some threadS /\
  findOpenThreadByUserId "u1" (w_store w1) = None /\ getUser env0 "u1" = Some ana /\
  exists w', rtc (conc_step (spawn_handler env0)) ([], w1) ([], w') /\
    exists k1 k2 t1 t2, k1 <> k2 /\ w_store w' !! k1 = Some t1 /\ w_store w' !! k2 = Some t2 /\
      status t1 = OPEN /\ status t2 = OPEN /\ user_id t1 = user_id t2.
Proof.
  assert (Hwf : store_wf (w_store w1)) by (apply (bool_decide_unpack _); vm_compute; reflexivity).
  assert (Hs : findSuspendedThreadByChannelId (msg_channel_id (staff_msg_in "c0")) (w_store w1)
                 = Some threadS) by (vm_compute; reflexivity).
  assert (Ho : findOpenThreadByUserId "u1" (w_store w1) = None) by (vm_compute; reflexivity).
  split_and!; [exact Hwf|exact Hs|exact Ho|reflexivity|].
  exact (unsuspend_newthread_race env0 w1 (staff_msg_in "c0") "u1" threadS ana Hwf Hs Ho eq_refl eq_refl).
Defined.

(** C19 at [w_two]: the closes of [threadA] and [threadD] are due and
    [c1] is deleted during the tick. *)
Lemma tick_race_skips_remaining_witness :
  store_wf (w_store w_two) /\
  getThreadsThatShouldBeClosed (db_time (w_now w_two)) (w_store w_two) = [threadA; threadD] /\
  findOpenThreadByChannelId "c1" (w_store w_two) = Some threadA /\ "u1" ∉ w_unreachable w_two /\
  exists w', rtc (conc_step (spawn_handler env0)) ([], w_two) ([], w') /\
    w_store w' = save (closed_row threadA) (w_store w_two) /\ w_store w' !! "d" = Some threadD /\
    w_effects w' = w_effects w_two ++
      [ConsoleLog (autoCloseLine threadA); ToUser "u1" (closeMessageText env0);
       ChannelDeleted "c1"; AuditLog (channelDeletedLog threadA (logUrl env0 "a"));
       ToUser "u1" (closeMessageText env0); ConsoleError (Error "Thread is already closed")].
Proof.
  assert (Hwf : store_wf (w_store w_two)) by (apply (bool_decide_unpack _); vm_compute; reflexivity).
  assert (Hd : getThreadsThatShouldBeClosed (db_time (w_now w_two)) (w_store w_two) = [threadA; threadD])
    by (vm_compute; reflexivity).
  assert (Hf : findOpenThreadByChannelId "c1" (w_store w_two) = Some threadA) by (vm_compute; reflexivity).
  assert (Hr : "u1" ∉ w_unreachable w_two) by (simpl; set_solver).
  split_and!; [exact Hwf|exact Hd|exact Hf|exact Hr|].
  exact (tick_race_skips_remaining env0 w_two (deleted "c1") threadA threadD Hwf Hd eq_refl eq_refl
           Hf eq_refl eq_refl Hr).
Defined.

(** ** The double close of spec 8 *)


(** C30 at [w_race]: [threadX] is due both to close and to be suspended. *)
Lemma due_close_and_suspend_race_witness :
  store_wf (w_store w_race) /\
  getThreadsThatShouldBeClosed (db_time (w_now w_race)) (w_store w_race) = [threadX] /\
  getThreadsThatShouldBeSuspended (db_time (w_now w_race)) (w_store w_race) = [threadX] /\
  (exists w', rtc (conc_step (spawn_handler env0)) ([], w_race) ([], w') /\
     w_store w' = save (with_status SUSPENDED (clear_schedules threadX)) (w_store w_race) /\
     w_effects w' = w_effects w_race ++ scheduledSuspendEffects env0 threadX /\
     forall now, thread_id threadX ∉ thread_id <$> getThreadsThatShouldBeClosed now (w_store w')) /\
  (exists w', rtc (conc_step (spawn_handler env0)) ([], w_race) ([], w') /\
     w_store w' = save (closed_row threadX) (w_store w_race) /\
     w_effects w' = w_effects w_race ++ scheduledCloseEffects env0 (w_unreachable w_race) threadX ++
       scheduledSuspendEffects env0 threadX).
Proof.
  assert (Hwf : store_wf (w_store w_race)) by (apply (bool_decide_unpack _); vm_compute; reflexivity).
  assert (Hc : getThreadsThatShouldBeClosed (db_time (w_now w_race)) (w_store w_race) = [threadX])
    by (vm_compute; reflexivity).
  assert (Hs : getThreadsThatShouldBeSuspended (db_time (w_now w_race)) (w_store w_race) = [threadX])
    by (vm_compute; reflexivity).
  assert (Hr : user_id threadX ∉ w_unreachable w_race) by (simpl; set_solver).
  split_and!; [exact Hwf|exact Hc|exact Hs|..];
    [exact (proj1 (due_close_and_suspend_race env0 w_race threadX Hwf Hc Hs eq_refl eq_refl Hr))
    |exact (proj2 (due_close_and_suspend_race env0 w_race threadX Hwf Hc Hs eq_refl eq_refl Hr))].
Defined.
