(* ===== verification/Boot.v ===== *)
(** * [index.js]: start-up checks and the process-level error handlers

    Before the bot starts, [index.js] checks the Node version
    ([parseInt(process.versions.node.split('.')[0], 10) < 10]), that
    [node_modules] exists and that every dependency of [package.json] is
    installed, registers the [uncaughtException] and [unhandledRejection]
    handlers, runs the database migrations (and the legacy migration when
    needed) and calls [main.start()].  [Host] is what these steps read
    from the machine, with the failure of every call that can fail: a
    [require] of the bot's modules (lines 44-48) that throws reaches the
    [uncaughtException] handler, which exits with code 1 unless the
    message is that of an unknown Discord message type (then nothing else
    runs and the process does not exit by itself); a rejection of the
    migrations or of the legacy migrator in the [async] main reaches the
    [unhandledRejection] handler, which exits with code 1.  [boot] returns
    the console lines, the exit code (if [process.exit] is called) and
    whether [main.start()] was called.

    A handler that the Discord client calls ([bot.on('channelDelete',
    async ...)]) has its promise ignored, so its rejection reaches
    [unhandledRejection], which exits the process. *)

From S2P Require Import Prelude Async Thread Store World Fixtures Close Suspend Alert NewThread Bot Interleave.

Local Open Scope string_scope.

(** ** JavaScript values read by [index.js] *)

(** [parseInt(s, 10)]: optional leading spaces and sign, then the longest
    run of decimal digits; [None] is [NaN]. *)
Definition is_digit (c : Ascii.ascii) : bool :=
  let n := Ascii.nat_of_ascii c in Nat.leb 48 n && Nat.leb n 57.

Fixpoint digits_prefix (s : string) : list nat :=
  match s with
  | String c s' => if is_digit c then (Ascii.nat_of_ascii c - 48)%nat :: digits_prefix s' else []
  | EmptyString => []
  end.

Fixpoint skip_spaces (s : string) : string :=
  match s with
  | String c s' => if Nat.eqb (Ascii.nat_of_ascii c) 32 then skip_spaces s' else s
  | EmptyString => s
  end.

Definition digits_value (ds : list nat) : Z :=
  fold_left (fun acc d => 10 * acc + Z.of_nat d)%Z ds 0%Z.

Definition parseInt10 (s : string) : option Z :=
  let s := skip_spaces s in
  let '(sign, rest) := match s with
                       | String c r => if Nat.eqb (Ascii.nat_of_ascii c) 45 then ((-1)%Z, r)
                                       else if Nat.eqb (Ascii.nat_of_ascii c) 43 then (1%Z, r)
                                       else (1%Z, s)
                       | EmptyString => (1%Z, s)
                       end in
  match digits_prefix rest with
  | [] => None
  | ds => Some (sign * digits_value ds)%Z
  end.

(** [s.split('.')[0]]. *)
Fixpoint before_dot (s : string) : string :=
  match s with
  | String c s' => if Nat.eqb (Ascii.nat_of_ascii c) 46 then EmptyString else String c (before_dot s')
  | EmptyString => EmptyString
  end.

(** [x < 10] for a number that may be [NaN] (every comparison with [NaN]
    is false). *)
Definition lt_num (x : option Z) (y : Z) : bool :=
  match x with Some n => Z.ltb n y | None => false end.

(** An error value as the handlers inspect it: [err.message], [err
    instanceof utils.BotError], [err.code], and the text [console.error]
    prints for it. *)
Record JsErr := mkJsErr {
  je_message : option string;
  je_bot_error : bool;
  je_code : option string;
  je_text : string
}.

(** The rejection of an awaited call of the model, as a JavaScript error. *)
Definition of_js_error (e : js_error) : JsErr :=
  match e with
  | TypeError m => {| je_message := Some m; je_bot_error := false; je_code := None;
                      je_text := "TypeError: " ++ m |}
  | Error m => {| je_message := Some m; je_bot_error := false; je_code := None;
                  je_text := "Error: " ++ m |}
  end.

(** ** The process *)

Inductive console_line := Out (s : string) | Err (s : string).

(** What [index.js] reads from the machine, and how each call that can
    fail fails: the [require]s of [./config], [./utils], [./main],
    [./knex] and [./legacy/legacyMigrator] (the first error one of them
    throws, if any), [knex.migrate.latest()], [legacyMigrator.shouldMigrate()]
    and [legacyMigrator.migrate()] (their rejections, if any).  [db_dir]
    and [log_dir] are [config.dbDir] and [config.logDir] resolved to
    absolute paths. *)
Record Host := mkHost {
  node_version : string;
  node_modules_present : bool;
  package_dependencies : option (list string);
  installed : string -> bool;
  require_error : option JsErr;
  migration_error : option JsErr;
  legacy_check_error : option JsErr;
  should_migrate_legacy : bool;
  legacy_migrate_error : option JsErr;
  db_dir : string;
  log_dir : string
}.

Record Outcome := mkOutcome {
  console : list console_line;
  exit_code : option Z;
  started : bool
}.

Definition unsupportedNode : string :=
  "Versión de NodeJS no soportada! Por favor instala NodeJS 10 o superior.".

Definition runNpmInstall : string :=
  "Por favor, ejecuta " ++ dq ++ "npm install" ++ dq ++ " antes de iniciar el BOT".

Definition missingPackage (p : string) : string :=
  "Por favor, ejecuta " ++ dq ++ "npm install" ++ dq ++ " de nuevo! El paquete " ++ dq ++ p ++ dq
  ++ " falta.".

(** The [uncaughtException] handler: ignore the unknown message types,
    crash on everything else. *)
Definition onUncaughtException (err : option JsErr) : list console_line * option Z :=
  match err with
  | Some e => if truthy_str (je_message e) &&
                 starts_with "Unhandled MESSAGE_CREATE type" (js_str_opt (je_message e))
              then ([], None) else ([Err (je_text e)], Some 1%Z)
  | None => ([Err "undefined"], Some 1%Z)
  end.

(** The [unhandledRejection] handler: print the message of a [BotError]
    or of a network error (one with a [code]), the whole error otherwise,
    and exit with 1. *)
Definition onUnhandledRejection (err : option JsErr) : list console_line * option Z :=
  match err with
  | Some e => if je_bot_error e || truthy_str (je_code e)
              then ([Err ("Error: " ++ js_str_opt (je_message e))], Some 1%Z)
              else ([Err (je_text e)], Some 1%Z)
  | None => ([Err "undefined"], Some 1%Z)
  end.

(** The dependency loop: [testedPackage] is the last module tried, or
    the empty string when [package.json] cannot be read. *)
Fixpoint first_missing (inst : string -> bool) (mods : list string) : option string :=
  match mods with
  | [] => None
  | m :: ms => if inst m then first_missing inst ms else Some m
  end.

Definition testedPackageOnError (h : Host) : option string :=
  match package_dependencies h with
  | None => Some EmptyString
  | Some mods => first_missing (installed h) mods
  end.

(** The lines printed before [legacyMigrator.migrate()]. *)
Definition legacyMigrationStart : list console_line :=
  [Out "=== Migrando datos hereditarios ==="; Out "No cierres el BOT!"; Out EmptyString].

(** The lines printed after it. *)
Definition legacyMigrationDone (h : Host) : list console_line :=
  [Out EmptyString; Out "=== Migración de datos hereditarios completada ==="; Out EmptyString;
   Out "IMPORTANTE: Lugo de un reinicio del BOT, verifica que todo está correctamente funcionando.";
   Out "Una vez hecho esto, los siguientes archivos/directorios ya no son necesarios. Sin embargo, recomendaría mantener una copia de seguridad de ellos.";
   Out EmptyString;
   Out ("ARCHIVO: " ++ db_dir h ++ "/threads.json"); Out ("ARCHIVO: " ++ db_dir h ++ "/blocked.json");
   Out ("ARCHIVO: " ++ db_dir h ++ "/snippets.json"); Out ("DIRECTORIO: " ++ log_dir h);
   Out EmptyString; Out "Iniciando el BOT..."].

(** A rejection in the [async] main after the lines [pre]: it reaches the
    [unhandledRejection] handler. *)
Definition rejected (pre : list console_line) (e : JsErr) : Outcome :=
  let '(l, c) := onUnhandledRejection (Some e) in {| console := pre ++ l; exit_code := c; started := false |}.

(** [index.js] from top to bottom. *)
Definition boot (h : Host) : Outcome :=
  if lt_num (parseInt10 (before_dot (node_version h))) 10
  then {| console := [Err unsupportedNode]; exit_code := Some 1%Z; started := false |}
  else if negb (node_modules_present h)
  then {| console := [Err runNpmInstall]; exit_code := Some 1%Z; started := false |}
  else match testedPackageOnError h with
  | Some p => {| console := [Err (missingPackage p)]; exit_code := Some 1%Z; started := false |}
  | None =>
      match require_error h with
      | Some e => let '(l, c) := onUncaughtException (Some e) in
                  {| console := l; exit_code := c; started := false |}
      | None =>
          match migration_error h with
          | Some e => rejected [] e
          | None =>
              match legacy_check_error h with
              | Some e => rejected [] e
              | None =>
                  if should_migrate_legacy h then
                    match legacy_migrate_error h with
                    | Some e => rejected legacyMigrationStart e
                    | None => {| console := legacyMigrationStart ++ legacyMigrationDone h;
                                 exit_code := None; started := true |}
                    end
                  else {| console := []; exit_code := None; started := true |}
              end
          end
      end
  end.

(** ** Start-up *)

Lemma first_missing_None inst mods : first_missing inst mods = None <-> Forall (fun m => inst m = true) mods.
Proof.
  induction mods as [|m ms IH]; simpl; [split; by constructor|].
  rewrite Forall_cons, <- IH. destruct (inst m) eqn:Hm; [tauto|].
  split; [discriminate|intros [? _]; congruence].
Qed.

Lemma first_missing_app inst l1 m l2 :
  Forall (fun x => inst x = true) l1 -> inst m = false -> first_missing inst (l1 ++ m :: l2)%list = Some m.
Proof. induction 1 as [|x l1 Hx _ IH]; simpl; [by intros ->|]. intros Hm. rewrite Hx. by apply IH. Qed.

(** The checks that precede the dependency loop pass. *)
Definition early_checks_pass (h : Host) : Prop :=
  lt_num (parseInt10 (before_dot (node_version h))) 10 = false /\ node_modules_present h = true.

(** Case on the pair a handler returns. *)
Ltac destruct_pair :=
  repeat match goal with |- context [match ?p with (_, _) => _ end] => destruct p end.

(** C20: the bot starts ([main.start()] is called) exactly when the Node
    major version is not below 10, [node_modules] exists, [package.json]
    is readable with every dependency installed, the [require]s of the
    bot's modules do not throw, the database migrations, the legacy check
    and (when it is needed) the legacy migration do not reject; a Node
    older than 10 ends the process with code 1 and the version message
    only. *)
Theorem boot_started_iff h :
  (started (boot h) = true <->
   early_checks_pass h /\
   (exists mods, package_dependencies h = Some mods /\ Forall (fun m => installed h m = true) mods) /\
   require_error h = None /\ migration_error h = None /\ legacy_check_error h = None /\
   (should_migrate_legacy h = true -> legacy_migrate_error h = None)) /\
  (forall n, parseInt10 (before_dot (node_version h)) = Some n -> (n < 10)%Z ->
   boot h = {| console := [Err unsupportedNode]; exit_code := Some 1%Z; started := false |}).
Proof.
  split.
  - unfold boot, early_checks_pass, testedPackageOnError.
    destruct (lt_num _ _) eqn:Hv; simpl; [split; [done|]; intros ((? & _) & _); congruence|].
    destruct (node_modules_present h); simpl; [|split; [done|]; intros ((_ & ?) & _); congruence].
    destruct (package_dependencies h) as [mods|] eqn:Hp;
      [|simpl; split; [done|]; intros (_ & (? & ? & _) & _); congruence].
    destruct (first_missing (installed h) mods) as [m|] eqn:Hf.
    + simpl. split; [done|]. intros (_ & (mods' & Hm & Hall) & _). simplify_eq.
      apply first_missing_None in Hall. congruence.
    + assert (Hall : exists mods', Some mods = Some mods' /\ Forall (fun m => installed h m = true) mods')
        by (exists mods; split; [done|by apply first_missing_None]).
      unfold rejected.
      destruct (require_error h) as [e|]; [simpl; destruct_pair;
        split; [done|intros (_ & _ & ? & _); congruence]|].
      destruct (migration_error h) as [e|]; [simpl; destruct_pair;
        split; [done|intros (_ & _ & _ & ? & _); congruence]|].
      destruct (legacy_check_error h) as [e|]; [simpl; destruct_pair;
        split; [done|intros (_ & _ & _ & _ & ? & _); congruence]|].
      destruct (should_migrate_legacy h); [destruct (legacy_migrate_error h) as [e|]|].
      * simpl. destruct_pair. split; [done|].
        intros (_ & _ & _ & _ & _ & Hl). by discriminate (Hl eq_refl).
      * simpl. split; [intros _|done]. split_and!; [done..|by intros].
      * simpl. split; [intros _|done]. split_and!; [done..|by intros].
  - intros n Hn Hlt. unfold boot. rewrite Hn. simpl. by rewrite (proj2 (Z.ltb_lt n 10) Hlt).
Qed.

(** C21: when the early checks pass and a dependency is missing, the
    process exits with code 1 naming the first missing dependency in the
    order of [package.json]. *)
Theorem boot_reports_first_missing h l1 m l2 :
  early_checks_pass h -> package_dependencies h = Some (l1 ++ m :: l2)%list ->
  Forall (fun x => installed h x = true) l1 -> installed h m = false ->
  boot h = {| console := [Err (missingPackage m)]; exit_code := Some 1%Z; started := false |}.
Proof.
  intros [Hv Hn] Hp Hl1 Hm. unfold boot, testedPackageOnError. rewrite Hv, Hn, Hp.
  by rewrite (first_missing_app _ _ _ _ Hl1 Hm).
Qed.

(** C22: when [package.json] cannot be read, [testedPackage] is still the
    empty string, so the process exits telling to reinstall a package
    with an empty name. *)
Theorem boot_unreadable_package_json h :
  early_checks_pass h -> package_dependencies h = None ->
  boot h = {| console := [Err (missingPackage EmptyString)]; exit_code := Some 1%Z; started := false |}.
Proof. intros [Hv Hn] Hp. unfold boot, testedPackageOnError. by rewrite Hv, Hn, Hp. Qed.

(** ** A handler's rejection ends the process *)

Section Crash.
Context (env : Env).

(** C23: a deletion of a thread's channel that races with a staff [close]
    of that thread crashes the bot: the [channelDelete] handler reads the
    OPEN thread, the staff close completes, the handler's own [close] then
    finds the thread CLOSED and rejects, and the Discord client ignores the
    handler's promise, so [unhandledRejection] logs the error and exits the
    process with code 1. *)
Theorem channelDelete_race_crashes w ch msg a :
  store_wf (w_store w) -> dc_is_text ch = true -> dc_on_inbox ch = true ->
  findOpenThreadByChannelId (dc_id ch) (w_store w) = Some a ->
  msg_is_private msg = false -> msg_on_inbox_server msg = true -> msg_member_is_staff msg = true ->
  msg_channel_id msg = dc_id ch ->
  truthy_str (closeMessage env) = true -> user_id a ∉ w_unreachable w ->
  (exists w', rtc (conc_step (spawn_handler env)) ([], w)
                ([Throw (Error "Thread is already closed")], w')) /\
  onUnhandledRejection (Some (of_js_error (Error "Thread is already closed"))) =
    ([Err "Error: Thread is already closed"], Some 1%Z).
Proof.
  intros Hwf Htext Hin Hfind Hpriv Hon Hstaff Hch Hmsg Hreach.
  destruct (findOpenThreadByChannelId_Some _ _ _ Hwf Hfind) as (Hrow & Hopen & _).
  split; [|reflexivity]. eexists.
  spawn_ev env (ChannelDelete ch). unfold handle, onChannelDelete. rewrite Htext, Hin. cbn.
  go 0. rewrite Hfind, Hmsg. go 0.
  spawn_ev env (CloseCmd msg []). unfold handle, closeCommand, closeByStaff.
  rewrite Hpriv, Hon, Hstaff, Hch. cbn. go 1. rewrite Hfind.
  go 1. rewrite Hrow. cbn. rewrite (close_thread_open a Hopen). cbn. go 1. go 1.
  unfold closeFarewellAndLog. rewrite Hmsg. cbn. go 1. rewrite (bool_decide_eq_false_2 _ Hreach).
  cbn. go 1. go 1. leave 1.
  go 0. rewrite (bool_decide_eq_false_2 _ Hreach). cbn. go 0.
  rewrite (lookup_insert_eq (w_store w) (thread_id a) (closed_row a)). cbn. apply rtc_refl.
Qed.

End Crash.

(** ** Witnesses *)

Definition host_ok : Host := {|
  node_version := "12.22.1"; node_modules_present := true;
  package_dependencies := Some ["eris"; "knex"; "moment"];
  installed := fun _ => true; require_error := None; migration_error := None; legacy_check_error := None;
  should_migrate_legacy := false; legacy_migrate_error := None;
  db_dir := "/srv/db"; log_dir := "/srv/logs" |}.

Definition host_old : Host := {|
  node_version := "8.17.0"; node_modules_present := true;
  package_dependencies := Some ["eris"; "knex"; "moment"];
  installed := fun _ => true; require_error := None; migration_error := None; legacy_check_error := None;
  should_migrate_legacy := false; legacy_migrate_error := None;
  db_dir := "/srv/db"; log_dir := "/srv/logs" |}.

(** [knex] is not installed. *)
Definition host_missing : Host := {|
  node_version := "12.22.1"; node_modules_present := true;
  package_dependencies := Some ["eris"; "knex"; "moment"];
  installed := fun m => negb (String.eqb m "knex"); require_error := None; migration_error := None;
  legacy_check_error := None; should_migrate_legacy := false; legacy_migrate_error := None; db_dir := "/srv/db"; log_dir := "/srv/logs" |}.

Definition host_nopkg : Host := {|
  node_version := "12.22.1"; node_modules_present := true; package_dependencies := None;
  installed := fun _ => true; require_error := None; migration_error := None; legacy_check_error := None;
  should_migrate_legacy := false; legacy_migrate_error := None;
  db_dir := "/srv/db"; log_dir := "/srv/logs" |}.

(** C20 on Node 8.17.0 and on a host where everything is in place. *)
Lemma boot_started_iff_witness :
  parseInt10 (before_dot (node_version host_old)) = Some 8%Z /\
  boot host_old = {| console := [Err unsupportedNode]; exit_code := Some 1%Z; started := false |} /\
  started (boot host_ok) = true.
Proof.
  assert (Hn : parseInt10 (before_dot (node_version host_old)) = Some 8%Z) by reflexivity.
  split; [exact Hn|split].
  - exact (proj2 (boot_started_iff host_old) 8%Z Hn ltac:(lia)).
  - apply (proj1 (boot_started_iff host_ok)). split; [split; reflexivity|]. split.
    + exists ["eris"; "knex"; "moment"]. split; [reflexivity|repeat constructor].
    + split_and!; [reflexivity..|discriminate].
Defined.

(** C21 on [host_missing]: the message names [knex]. *)
Lemma boot_reports_first_missing_witness :
  early_checks_pass host_missing /\
  boot host_missing = {| console := [Err (missingPackage "knex")]; exit_code := Some 1%Z; started := false |}.
Proof.
  assert (He : early_checks_pass host_missing) by (split; reflexivity).
  split; [exact He|].
  exact (boot_reports_first_missing host_missing ["eris"] "knex" ["moment"] He eq_refl
           ltac:(repeat constructor) eq_refl).
Defined.

(** C22 on [host_nopkg]. *)
Lemma boot_unreadable_package_json_witness :
  early_checks_pass host_nopkg /\
  boot host_nopkg = {| console := [Err (missingPackage EmptyString)]; exit_code := Some 1%Z; started := false |}.
Proof.
  assert (He : early_checks_pass host_nopkg) by (split; reflexivity).
  split; [exact He|]. exact (boot_unreadable_package_json host_nopkg He eq_refl).
Defined.

(** C23 at [w0]: [c1] is deleted while [sam] closes [threadA] in it. *)
Lemma channelDelete_race_crashes_witness :
  store_wf (w_store w0) /\ findOpenThreadByChannelId "c1" (w_store w0) = Some threadA /\
  (exists w', rtc (conc_step (spawn_handler env0)) ([], w0)
                ([Throw (Error "Thread is already closed")], w')) /\
  onUnhandledRejection (Some (of_js_error (Error "Thread is already closed"))) =
    ([Err "Error: Thread is already closed"], Some 1%Z).
Proof.
  assert (Hwf : store_wf (w_store w0)) by (apply (bool_decide_unpack _); vm_compute; reflexivity).
  assert (Hf : findOpenThreadByChannelId "c1" (w_store w0) = Some threadA) by (vm_compute; reflexivity).
  assert (Hr : user_id threadA ∉ w_unreachable w0) by (simpl; set_solver).
  split_and!; [exact Hwf|exact Hf|..];
    [apply (channelDelete_race_crashes env0 w0 (deleted "c1") staff_msg threadA Hwf eq_refl eq_refl Hf
              eq_refl eq_refl eq_refl eq_refl eq_refl Hr)
    |apply (channelDelete_race_crashes env0 w0 (deleted "c1") staff_msg threadA Hwf eq_refl eq_refl Hf
              eq_refl eq_refl eq_refl eq_refl eq_refl Hr)].
Defined.
